(** * PubChem toxicology retrievers: a shallow embedding

  Two programs are embedded here, one module each:
  - [get_toxinfo_by_cas6]: CAS number -> CID -> compound record ->
    keyword-section extraction;
  - [pubchem_hazard_scraper]: CSV rows -> CID -> GHS fragment ->
    hazard and precaution codes, processed in batches.

  Python values coming out of [json.loads] are embedded as the inductive
  type [json]; the dynamic operations the programs apply to them
  ([in], subscription, iteration, truth value) are embedded with the
  exceptions they raise on values of the wrong shape.

  A [str] is embedded as a [string], one [ascii] per character, which
  covers text whose characters lie below U+0100; on such text decoding
  bytes as ISO-8859-1 is the identity, [str.lower] acts character by
  character and the regex class [\d] is the ten digits 0-9.  Lines the
  programs write to the console are kept as their UTF-8 bytes.

  Effects are explicit: a task threads a [world] (requests sent, log of
  requests, sleeps and printed lines) and reads the outcome of its [n]-th
  request from a function [net]; a [for] loop with [try]/[except] becomes a
  recursion over the remaining attempts; the dictionary a closure mutates
  is passed and returned. *)

From Stdlib Require Import ZArith QArith List String Ascii Bool Arith Lia.
From Stdlib Require Import Numbers.DecimalString Sorting.Sorted.
Import ListNotations.

Set Warnings "-register-all".

Local Open Scope string_scope.
Local Open Scope list_scope.

(** ** Python values and their dynamic operations *)

Module Py.

(** A JSON number as Python holds it after parsing. *)
Inductive number :=
| Int (z : Z)
| Float (q : Q)
| NaN
| Infinity (negative : bool).

(** Values produced by [json.loads]; [JNull] is Python's [None].  An object
    is kept as its items in insertion order; subscription takes the first
    binding of a key, so repeated keys later in the list are never seen. *)
Inductive json :=
| JNull
| JBool (b : bool)
| JNum (n : number)
| JStr (s : string)
| JArr (items : list json)
| JObj (fields : list (string * json)).

(** The built-in exceptions the embedded operations raise. *)
Inductive exn :=
| TypeError
| KeyError
| IndexError
| AttributeError
| RecursionError.

Inductive result (A : Type) :=
| Ok (a : A)
| Raise (e : exn).
Arguments Ok {A} a.
Arguments Raise {A} e.

Definition bind {A B} (r : result A) (k : A -> result B) : result B :=
  match r with
  | Ok a => k a
  | Raise e => Raise e
  end.

(** [needle in hay] on two strings. *)
Fixpoint contains (needle hay : string) : bool :=
  if String.prefix needle hay then true
  else match hay with
       | EmptyString => false
       | String _ rest => contains needle rest
       end.

Fixpoint lookup {V} (key : string) (fields : list (string * V)) : option V :=
  match fields with
  | [] => None
  | (k, v) :: rest => if String.eqb key k then Some v else lookup key rest
  end.

(** [key == v] for a string [key]. *)
Definition str_eq (key : string) (v : json) : bool :=
  match v with
  | JStr s => String.eqb key s
  | _ => false
  end.

(** [key in v]. *)
Definition py_in (key : string) (v : json) : result bool :=
  match v with
  | JObj fields => Ok (match lookup key fields with Some _ => true | None => false end)
  | JArr items => Ok (existsb (str_eq key) items)
  | JStr s => Ok (contains key s)
  | JNull | JBool _ | JNum _ => Raise TypeError
  end.

(** [v[key]] for a string [key]. *)
Definition getitem (v : json) (key : string) : result json :=
  match v with
  | JObj fields =>
      match lookup key fields with
      | Some x => Ok x
      | None => Raise KeyError
      end
  | _ => Raise TypeError
  end.

(** [v[0]]. *)
Definition getitem0 (v : json) : result json :=
  match v with
  | JArr (x :: _) => Ok x
  | JArr [] => Raise IndexError
  | JStr (String c _) => Ok (JStr (String c EmptyString))
  | JStr EmptyString => Raise IndexError
  | JObj _ => Raise KeyError
  | JNull | JBool _ | JNum _ => Raise TypeError
  end.

Fixpoint chars (s : string) : list json :=
  match s with
  | EmptyString => []
  | String c rest => JStr (String c EmptyString) :: chars rest
  end.

Fixpoint keys {V} (seen : list string) (fields : list (string * V)) : list string :=
  match fields with
  | [] => []
  | (k, _) :: rest =>
      if existsb (String.eqb k) seen then keys seen rest
      else k :: keys (k :: seen) rest
  end.

(** The items a [for] loop over [v] runs through. *)
Definition iter (v : json) : result (list json) :=
  match v with
  | JArr items => Ok items
  | JObj fields => Ok (map JStr (keys [] fields))
  | JStr s => Ok (chars s)
  | JNull | JBool _ | JNum _ => Raise TypeError
  end.

(** Truth value of [v], as [if v:] and [not v] take it. *)
Definition truthy (v : json) : bool :=
  match v with
  | JNull => false
  | JBool b => b
  | JNum (Int z) => negb (Z.eqb z 0)
  | JNum (Float q) => negb (Qeq_bool q 0)
  | JNum NaN | JNum (Infinity _) => true
  | JStr s => negb (String.eqb s "")
  | JArr items => match items with [] => false | _ => true end
  | JObj fields => match fields with [] => false | _ => true end
  end.

(** [c.lower()] for one character below U+0100: the capitals A-Z and the
    accented capitals U+00C0-U+00DE (the sign U+00D7 apart) move up by 32. *)
Definition lower_char (c : ascii) : ascii :=
  let n := nat_of_ascii c in
  if ((65 <=? n) && (n <=? 90) || (192 <=? n) && (n <=? 222) && negb (n =? 215))%nat
  then ascii_of_nat (n + 32) else c.

(** [s.lower()]. *)
Fixpoint lower (s : string) : string :=
  match s with
  | EmptyString => EmptyString
  | String c rest => String (lower_char c) (lower rest)
  end.

(** [str(n)] for an [int]. *)
Definition str_of_int (z : Z) : string :=
  NilZero.string_of_int (Z.to_int z).

(** [range(n)]. *)
Definition range (n : Z) : list Z :=
  map Z.of_nat (seq 0 (Z.to_nat n)).

(** [enumerate(xs, start)]: each item with its position. *)
Definition enumerate {A} (start : nat) (xs : list A) : list (nat * A) :=
  combine (seq start (List.length xs)) xs.

(** [sep.join(parts)]. *)
Fixpoint join (sep : string) (parts : list string) : string :=
  match parts with
  | [] => ""
  | [p] => p
  | p :: rest => p ++ sep ++ join sep rest
  end.

(** [v.get(key, default)]: only a dictionary has [get]. *)
Definition get_default (v : json) (key : string) (default : json) : result json :=
  match v with
  | JObj fields =>
      Ok (match lookup key fields with Some x => x | None => default end)
  | _ => Raise AttributeError
  end.

(** [v in d] for a dictionary [d] keyed by strings: lists and dictionaries
    cannot be hashed, anything else that is no string is simply absent. *)
Definition key_in {V} (v : json) (d : list (string * V)) : result bool :=
  match v with
  | JStr s => Ok (match lookup s d with Some _ => true | None => false end)
  | JArr _ | JObj _ => Raise TypeError
  | JNull | JBool _ | JNum _ => Ok false
  end.

(** [c.isspace()] for one character below U+0100. *)
Definition is_space (c : ascii) : bool :=
  let n := nat_of_ascii c in
  ((9 <=? n) && (n <=? 13) || (28 <=? n) && (n <=? 32) || (n =? 133) || (n =? 160))%nat.

(** [s.lstrip()]. *)
Fixpoint lstrip (s : string) : string :=
  match s with
  | EmptyString => EmptyString
  | String c rest => if is_space c then lstrip rest else s
  end.

(** [s.rstrip()]. *)
Fixpoint rstrip (s : string) : string :=
  match s with
  | EmptyString => EmptyString
  | String c rest =>
      match rstrip rest with
      | EmptyString => if is_space c then EmptyString else String c EmptyString
      | kept => String c kept
      end
  end.

(** [s.strip()]. *)
Definition strip (s : string) : string := rstrip (lstrip s).

End Py.

Declare Scope py_scope.
Notation "x <- c ;; k" := (Py.bind c (fun x => k))
(at level 61, c at next level, right associativity) : py_scope.

(** ** The network as each task sees it *)

Module Http.

(** What [await response.text()] does. *)
Inductive text_outcome :=
| Text (s : string)
| UnicodeDecodeError (msg : string)
| TextRaises (msg : string).

(** A response object: status line and the outcome of each way of reading
    the body.  [read] is the raw body ([inr]) or the message of the
    exception raised while reading ([inl]); [resp_json] likewise for
    [await resp.json()]. *)
Record response := {
  status : Z;
  text : text_outcome;
  read : string + string;
  resp_json : string + Py.json
}.

(** Outcome of one [session.get(url)]. *)
Inductive outcome :=
| Responds (r : response)
| Raises (msg : string).

Inductive event :=
| Get (url : string)
| Sleep (seconds : Q)
| Print (line : string).

(** A task's view of the world: [net n] is the outcome of the [n]-th request
    the task issues; [sent] counts the requests issued so far and [log]
    keeps the task's effects, oldest first. *)
Record world := {
  sent : nat;
  log : list event
}.

Definition start : world := {| sent := 0; log := [] |}.

Definition emit (e : event) (w : world) : world :=
  {| sent := sent w; log := log w ++ [e] |}.

Definition get (net : nat -> outcome) (url : string) (w : world) : outcome * world :=
  (net (sent w), {| sent := S (sent w); log := log w ++ [Get url] |}).

Definition gets (l : list event) : list string :=
  flat_map (fun e => match e with Get u => [u] | _ => [] end) l.

Definition sleeps (l : list event) : list Q :=
  flat_map (fun e => match e with Sleep s => [s] | _ => [] end) l.

End Http.

(** ** Tasks: effects on the world, and exceptions *)

Module Task.
Import Py Http.

(** A coroutine body: it changes the world and returns or raises; what it
    did before raising stays done. *)
Definition task (A : Type) : Type := world -> result A * world.

Definition ret {A} (a : A) : task A := fun w => (Ok a, w).

Definition bind {A B} (m : task A) (k : A -> task B) : task B := fun w =>
  match m w with
  | (Ok a, w1) => k a w1
  | (Raise e, w1) => (Raise e, w1)
  end.

(** A computation on values, with no effect on the world. *)
Definition lift {A} (r : result A) : task A := fun w => (r, w).

(** [print(line)]. *)
Definition say (line : string) : task unit := fun w => (Ok tt, emit (Print line) w).

End Task.

Declare Scope task_scope.
Notation "x <~ c ;; k" := (Task.bind c (fun x => k))
(at level 61, c at next level, right associativity) : task_scope.

(** ** [asyncio.gather] *)

Module Asyncio.

(** [gather] as the asyncio documentation gives it: the awaitables run
    concurrently and finish in some order; each result is kept with the
    position of its awaitable, and the returned list runs through the
    positions in order.  [completion] lists positions in the order the
    tasks finish; tasks it leaves out finish after the listed ones. *)
Definition finished {A} (completion : list nat) (tasks : list A) : list (nat * A) :=
  flat_map (fun i => match nth_error tasks i with
                     | Some r => [(i, r)]
                     | None => []
                     end)
           (completion ++ seq 0 (List.length tasks)).

Fixpoint slot {A} (i : nat) (done : list (nat * A)) : list A :=
  match done with
  | [] => []
  | (j, r) :: rest => if Nat.eqb i j then [r] else slot i rest
  end.

Definition gather {A} (completion : list nat) (tasks : list A) : list A :=
  flat_map (fun i => slot i (finished completion tasks)) (seq 0 (List.length tasks)).

End Asyncio.

(** ** First program: [get_toxinfo_by_cas6.py] *)

Module get_toxinfo_by_cas6.
Import Py Http.
Local Open Scope py_scope.
Local Open Scope Z_scope.

Definition BASE_URL := "https://pubchem.ncbi.nlm.nih.gov/rest/pug".

Definition tox_keywords : list string :=
  ["tox"; "safety"; "hazard"; "health"; "exposure"; "risk"; "carcinogen"].

(** The dictionary [tox_data]: headings in insertion order, each with the
    list collected under it. *)
Definition tox_dict := list (string * list json).

(** [d[key] = value]: a present key keeps its place. *)
Fixpoint dict_set {V} (key : string) (value : V) (d : list (string * V)) : list (string * V) :=
  match d with
  | [] => [(key, value)]
  | (k, v) :: rest =>
      if String.eqb key k then (k, value) :: rest
      else (k, v) :: dict_set key value rest
  end.

(** [d[key].extend(more)]. *)
Definition dict_extend (key : string) (more : list json) (d : tox_dict) : result tox_dict :=
  match lookup key d with
  | Some old => Ok (dict_set key (old ++ more) d)
  | None => Raise KeyError
  end.

(** [for x in xs: body], the body threading a state and possibly raising. *)
Fixpoint for_each {A S} (body : A -> S -> result S) (xs : list A) (s : S) : result S :=
  match xs with
  | [] => Ok s
  | x :: rest => s' <- body x s ;; for_each body rest s'
  end.

(** [[f(x) for x in xs]]. *)
Fixpoint comprehension {A B} (f : A -> result B) (xs : list A) : result (list B) :=
  match xs with
  | [] => Ok []
  | x :: rest => y <- f x ;; ys <- comprehension f rest ;; Ok (y :: ys)
  end.

Definition error_marker (msg : string) : json := JObj [("error", JStr msg)].

Section Libraries.

(** Library functions the program calls: [json.loads] (a value, or the
    message of the exception it raises), [urllib.parse.quote] and the text
    an f-string puts for a value. *)
Variable json_loads : string -> string + json.
Variable quote : string -> string.
Variable format : json -> string.

(** The network as the running task sees it. *)
Variable net : nat -> outcome.

(** The [status == 200] branch of [fetch_url]: the parsed body, or the
    message of the exception that reaches the outer [except].  When
    [response.text()] fails with [UnicodeDecodeError] the raw bytes are
    decoded as ISO-8859-1, which leaves them as they are, and parsed. *)
Definition load_body (r : response) : string + json :=
  match text r with
  | Text t => json_loads t
  | UnicodeDecodeError _ =>
      match read r with
      | inr content => json_loads content
      | inl msg => inl msg
      end
  | TextRaises msg => inl msg
  end.

(** The loop of [fetch_url] over the remaining values of [attempt]. *)
Fixpoint fetch_url_loop (url : string) (retries : Z) (attempts : list Z) (w : world)
  : json * world :=
  match attempts with
  | [] => (JNull, w)
  | attempt :: rest =>
      let (o, w1) := get net url w in
      let on_exception (msg : string) :=
        let w2 := emit (Print ("Exception for URL " ++ url ++ ": " ++ msg)) w1 in
        if attempt =? retries - 1 then (error_marker msg, w2)
        else fetch_url_loop url retries rest (emit (Sleep (inject_Z (2 ^ attempt))) w2) in
      match o with
      | Raises msg => on_exception msg
      | Responds r =>
          if status r =? 200 then
            match load_body r with
            | inr value => (value, w1)
            | inl msg => on_exception msg
            end
          else if status r =? 503 then
            fetch_url_loop url retries rest (emit (Sleep (inject_Z (2 ^ attempt))) w1)
          else
            (error_marker ("HTTP error " ++ str_of_int (status r)),
             emit (Print ("Error " ++ str_of_int (status r) ++ " for URL: " ++ url)) w1)
      end
  end.

Definition fetch_url (url : string) (retries : Z) (w : world) : json * world :=
  fetch_url_loop url retries (range retries) w.

(** ['IdentifierList' in data and 'CID' in data['IdentifierList']] *)
Definition has_cid_list (data : json) : result bool :=
  present <- py_in "IdentifierList" data ;;
  if present then
    identifiers <- getitem data "IdentifierList" ;;
    py_in "CID" identifiers
  else Ok false.

(** [data['IdentifierList']['CID'][0]] *)
Definition first_cid (data : json) : result json :=
  identifiers <- getitem data "IdentifierList" ;;
  cids <- getitem identifiers "CID" ;;
  getitem0 cids.

(** What [get_pubchem_cid] does with the value [fetch_url] gave it. *)
Definition cid_of_response (cas_number : string) (data : json) (w : world)
  : result json * world :=
  match has_cid_list data with
  | Raise e => (Raise e, w)
  | Ok true => (first_cid data, w)
  | Ok false =>
      (Ok JNull,
       emit (Print ("Failed to get CID for CAS " ++ cas_number ++ ". Response: "
                    ++ format data)) w)
  end.

Definition get_pubchem_cid (cas_number : string) (w : world) : result json * world :=
  let url := (BASE_URL ++ "/compound/name/" ++ quote cas_number ++ "/cids/JSON")%string in
  let (data, w1) := fetch_url url 3 w in
  cid_of_response cas_number data w1.

(** The test of [process_section]:
    ['TOCHeading' in section and any(keyword in section['TOCHeading'].lower()
     for keyword in tox_keywords)]; on success the heading is handed back. *)
Definition is_tox (heading : string) : bool :=
  existsb (fun keyword => contains keyword (lower heading)) tox_keywords.

Definition tox_heading (section : json) : result (option string) :=
  present <- py_in "TOCHeading" section ;;
  if present then
    heading <- getitem section "TOCHeading" ;;
    match heading with
    | JStr h => if is_tox h then Ok (Some h) else Ok None
    | _ => Raise AttributeError
    end
  else Ok None.

(** One turn of [for info in section['Information']]. *)
Definition collect_info (heading : string) (info : json) (tox_data : tox_dict)
  : result tox_dict :=
  has_value <- py_in "Value" info ;;
  if has_value then
    value <- getitem info "Value" ;;
    has_markup <- py_in "StringWithMarkup" value ;;
    if has_markup then
      markup <- getitem value "StringWithMarkup" ;;
      items <- iter markup ;;
      strings <- comprehension (fun item => getitem item "String") items ;;
      dict_extend heading strings tox_data
    else Ok tox_data
  else Ok tox_data.

(** [if 'Information' in section: for info in section['Information']: ...] *)
Definition collect_information (heading : string) (section : json) (tox_data : tox_dict)
  : result tox_dict :=
  has_information <- py_in "Information" section ;;
  if has_information then
    information <- getitem section "Information" ;;
    infos <- iter information ;;
    for_each (collect_info heading) infos tox_data
  else Ok tox_data.

(** [process_section], the closure inside [extract_tox_data]; [tox_data] is
    the dictionary it mutates.  [frames] is the number of nested calls the
    interpreter still allows: Python raises [RecursionError] beyond it. *)
Fixpoint process_section (frames : nat) (section : json) (tox_data : tox_dict)
  : result tox_dict :=
  match frames with
  | O => Raise RecursionError
  | S frames' =>
      matched <- tox_heading section ;;
      match matched with
      | Some heading =>
          tox_data1 <- collect_information heading section (dict_set heading [] tox_data) ;;
          has_section <- py_in "Section" section ;;
          if has_section then
            subsections <- getitem section "Section" ;;
            items <- iter subsections ;;
            for_each (process_section frames') items tox_data1
          else Ok tox_data1
      | None => Ok tox_data
      end
  end.

Definition extract_tox_data (frames : nat) (data : json) : result tox_dict :=
  has_record <- py_in "Record" data ;;
  if negb has_record then Ok []
  else
    record <- getitem data "Record" ;;
    has_section <- py_in "Section" record ;;
    if negb has_section then Ok []
    else
      sections <- getitem record "Section" ;;
      items <- iter sections ;;
      for_each (process_section frames) items [].

(** *** The rest of the record of one compound *)

Import Task.
Local Open Scope task_scope.

(** [str(e)] for the built-in exceptions, and the number of nested calls
    the interpreter still allows when [extract_tox_data] is entered. *)
Variable exn_message : exn -> string.
Variable frames : nat.

Definition VIEW_URL := "https://pubchem.ncbi.nlm.nih.gov/rest/pug_view".

(** [await fetch_url(session, url)] with the default budget. *)
Definition fetch (url : string) : task json := fun w =>
  let (data, w1) := fetch_url url 3 w in (Ok data, w1).

Definition compound_url (cid : json) : string :=
  VIEW_URL ++ "/data/compound/" ++ format cid ++ "/JSON".

Definition property_url (cid : json) : string :=
  BASE_URL ++ "/compound/cid/" ++ format cid ++ "/property/IUPACName,CanonicalSMILES/JSON".

Definition get_compound_data (cid : json) : task json := fetch (compound_url cid).

(** [outer in data and inner in data[outer]] *)
Definition has_path (outer inner : string) (data : json) : result bool :=
  present <- py_in outer data ;;
  if present then
    below <- getitem data outer ;;
    py_in inner below
  else Ok false.

(** What [get_iupac_and_smiles] makes of the value fetched: the pair of
    the entries ['IUPAC'] and ['SMILES'] of the dictionary it returns. *)
Definition iupac_and_smiles_of (data : json) : result (json * json) :=
  has_properties <- has_path "PropertyTable" "Properties" data ;;
  if has_properties then
    table <- getitem data "PropertyTable" ;;
    listed <- getitem table "Properties" ;;
    properties <- getitem0 listed ;;
    iupac <- get_default properties "IUPACName" (JStr "N/A") ;;
    smiles <- get_default properties "CanonicalSMILES" (JStr "N/A") ;;
    Ok (iupac, smiles)
  else Ok (JStr "N/A", JStr "N/A").

Definition get_iupac_and_smiles (cid : json) : task (json * json) :=
  data <~ fetch (property_url cid) ;;
  lift (iupac_and_smiles_of data).

(** The dictionary [names_and_synonyms]: the lists under ['Names'] and
    ['Synonyms']. *)
Definition names_and_synonyms : Type := list json * list json.

(** One turn of the loop over the [Information] of "Computed Descriptors". *)
Definition collect_name (info : json) (found : names_and_synonyms)
  : result names_and_synonyms :=
  name <- get_default info "Name" JNull ;;
  if str_eq "IUPAC Name" name then
    value <- getitem info "Value" ;;
    markup <- getitem value "StringWithMarkup" ;;
    first <- getitem0 markup ;;
    text <- getitem first "String" ;;
    Ok (fst found ++ [text], snd found)
  else Ok found.

(** One turn of the loop over the [Information] of "Synonyms". *)
Definition collect_synonyms (info : json) (found : names_and_synonyms)
  : result names_and_synonyms :=
  name <- get_default info "Name" JNull ;;
  if str_eq "Synonym" name then
    value <- getitem info "Value" ;;
    markup <- getitem value "StringWithMarkup" ;;
    items <- iter markup ;;
    texts <- comprehension (fun item => getitem item "String") items ;;
    Ok (fst found, snd found ++ texts)
  else Ok found.

(** One turn of [for subsection in section.get('Section', [])]; the [elif]
    reads the heading again, with the same outcome. *)
Definition scan_subsection (subsection : json) (found : names_and_synonyms)
  : result names_and_synonyms :=
  heading <- get_default subsection "TOCHeading" JNull ;;
  if str_eq "Computed Descriptors" heading then
    information <- get_default subsection "Information" (JArr []) ;;
    infos <- iter information ;;
    for_each collect_name infos found
  else if str_eq "Synonyms" heading then
    information <- get_default subsection "Information" (JArr []) ;;
    infos <- iter information ;;
    for_each collect_synonyms infos found
  else Ok found.

(** [for section in data['Record']['Section']], left by [break] after the
    first section headed "Names and Identifiers". *)
Fixpoint scan_sections (sections : list json) (found : names_and_synonyms)
  : result names_and_synonyms :=
  match sections with
  | [] => Ok found
  | section :: rest =>
      heading <- get_default section "TOCHeading" JNull ;;
      if str_eq "Names and Identifiers" heading then
        subsections <- get_default section "Section" (JArr []) ;;
        items <- iter subsections ;;
        for_each scan_subsection items found
      else scan_sections rest found
  end.

Definition names_and_synonyms_of (data : json) : result names_and_synonyms :=
  has_sections <- has_path "Record" "Section" data ;;
  if has_sections then
    record <- getitem data "Record" ;;
    sections <- getitem record "Section" ;;
    items <- iter sections ;;
    scan_sections items ([], [])
  else Ok ([], []).

Definition get_names_and_synonyms (cid : json) : task names_and_synonyms :=
  data <~ fetch (compound_url cid) ;;
  lift (names_and_synonyms_of data).

(** The dictionary [references] as [get_literature_references] creates it. *)
Definition no_references : tox_dict :=
  [("Disease and References", []);
   ("Nature Journal References", []);
   ("Springer Nature References", []);
   ("Other Safety Information", [])].

(** One turn of [for section in data['Record']['Section']] in
    [get_literature_references]; the turn on one [Information] item is that
    of [process_section]. *)
Definition collect_references (section : json) (references : tox_dict)
  : result tox_dict :=
  heading <- get_default section "TOCHeading" JNull ;;
  known <- key_in heading references ;;
  if known then
    information <- get_default section "Information" (JArr []) ;;
    infos <- iter information ;;
    match heading with
    | JStr h => for_each (collect_info h) infos references
    | _ => Ok references
    end
  else Ok references.

Definition literature_references_of (data : json) : result tox_dict :=
  has_sections <- has_path "Record" "Section" data ;;
  if has_sections then
    record <- getitem data "Record" ;;
    sections <- getitem record "Section" ;;
    items <- iter sections ;;
    for_each collect_references items no_references
  else Ok no_references.

Definition get_literature_references (cid : json) : task tox_dict :=
  data <~ fetch (compound_url cid) ;;
  lift (literature_references_of data).

(** A dictionary of lists as the value it is in a record. *)
Definition dict_json (d : tox_dict) : json :=
  JObj (map (fun entry => (fst entry, JArr (snd entry))) d).

(** The fields every record with a resolved compound shares. *)
Definition described (cas_number : string) (cid : json) (iupac_smiles : json * json)
  (found : names_and_synonyms) (references : tox_dict) : list (string * json) :=
  [("CAS", JStr cas_number);
   ("PubChemCID", cid);
   ("IUPAC", fst iupac_smiles);
   ("SMILES", snd iupac_smiles);
   ("Names", JArr (fst found));
   ("Synonyms", JArr (snd found));
   ("LiteratureReferences", dict_json references)].

(** The body of the [try] of [process_cas_number]. *)
Definition process_cas_number_try (cas_number : string) : task json :=
  cid <~ get_pubchem_cid cas_number ;;
  match cid with
  | JNull =>
      ret (JObj [("CAS", JStr cas_number); ("error", JStr "Could not find PubChem CID")])
  | _ =>
      _ <~ say ("Found CID " ++ format cid ++ " for CAS " ++ cas_number) ;;
      compound_data <~ get_compound_data cid ;;
      failed <~ lift (py_in "error" compound_data) ;;
      if failed then
        message <~ lift (getitem compound_data "error") ;;
        ret (JObj [("CAS", JStr cas_number); ("PubChemCID", cid); ("error", message)])
      else
        iupac_smiles <~ get_iupac_and_smiles cid ;;
        found <~ get_names_and_synonyms cid ;;
        references <~ get_literature_references cid ;;
        has_record <~ lift (py_in "Record" compound_data) ;;
        if negb has_record then
          ret (JObj (described cas_number cid iupac_smiles found references
                     ++ [("error", JStr "Could not find compound data")]))
        else
          tox_data <~ lift (extract_tox_data frames compound_data) ;;
          ret (JObj (described cas_number cid iupac_smiles found references
                     ++ [("ToxData", dict_json tox_data)]))
  end.

(** [process_cas_number]: the record, whatever happens inside the [try]. *)
Definition process_cas_number (cas_number : string) (w : world) : json * world :=
  match process_cas_number_try cas_number
          (emit (Print ("Processing CAS " ++ cas_number)) w) with
  | (Ok record, w1) => (record, w1)
  | (Raise e, w1) =>
      (JObj [("CAS", JStr cas_number);
             ("error", JStr ("Processing error: " ++ exn_message e))],
       emit (Print ("Error processing CAS " ++ cas_number ++ ": " ++ exn_message e)) w1)
  end.

End Libraries.

(** The sleeps of attempts that all end in a retry. *)
Definition backoff (attempts : list Z) : list Q :=
  map (fun attempt => inject_Z (2 ^ attempt)) attempts.

Section Orchestrator.

(** [get_tox_data_for_cas_numbers] starts one task per identifier and
    gathers them.  What a task returns is left open here: a [record] is
    whatever [process_cas_number] makes of an identifier and of the
    responses its own requests receive. *)
Variable record : Type.
Variable process_cas_number : (nat -> outcome) -> string -> record.

(** [nets i] is the network as the [i]-th task sees it; [completion] is the
    order in which the tasks finish. *)
Definition get_tox_data_for_cas_numbers
  (nets : nat -> nat -> outcome) (completion : list nat) (cas_numbers : list string)
  : list record :=
  let tasks :=
    map (fun '(i, cas) => process_cas_number (nets i) cas) (enumerate 0 cas_numbers) in
  Asyncio.gather completion tasks.

End Orchestrator.

(** The orchestrator with the tasks of the program: each identifier is
    handed to [process_cas_number], which starts from an untouched world
    and sees the responses of its own requests. *)
Definition tox_data_for_cas_numbers
  (json_loads : string -> string + json) (quote : string -> string)
  (format : json -> string) (exn_message : exn -> string) (frames : nat)
  (nets : nat -> nat -> outcome) (completion : list nat) (cas_numbers : list string)
  : list json :=
  get_tox_data_for_cas_numbers json
    (fun net cas =>
       fst (process_cas_number json_loads quote format net exn_message frames cas start))
    nets completion cas_numbers.

(** *** Reading the identifiers *)

(** How [get_cas_numbers_from_user] ends: with the identifiers typed and the
    lines of the input it has not read, or with the [EOFError] that
    [input()] raises when the input runs out. *)
Inductive typed :=
| Entered (cas_numbers unread : list string)
| EOFError.

(** The [while True] loop of [get_cas_numbers_from_user], after the prompt
    is printed; [stdin] holds the lines still to come. *)
Fixpoint read_cas_numbers (stdin : list string) (cas_numbers : list string) : typed :=
  match stdin with
  | [] => EOFError
  | line :: rest =>
      let cas := strip line in
      if String.eqb cas "" then Entered cas_numbers rest
      else read_cas_numbers rest (cas_numbers ++ [cas])
  end.

Definition get_cas_numbers_from_user (stdin : list string) : typed :=
  read_cas_numbers stdin [].

(** How the script starts: it goes on to fetch a list of identifiers, it
    leaves through [sys.exit(1)], or it dies of the [EOFError]. *)
Inductive startup :=
| Fetches (cas_numbers : list string)
| Exits (status : Z)
| Dies.

(** The head of the [__main__] block, up to the call of [asyncio.run]. *)
Definition choose_cas_numbers (argv stdin : list string) : startup :=
  let chosen :=
    if (1 <? List.length argv)%nat then Entered (tl argv) stdin
    else get_cas_numbers_from_user stdin in
  match chosen with
  | EOFError => Dies
  | Entered [] _ => Exits 1
  | Entered cas_numbers _ => Fetches cas_numbers
  end.

(** *** Sizing a column of the spreadsheet *)

(** The value of a cell of the sheet: a string, or a value without length
    (a number, [None]), given by the text [str] makes of it. *)
Inductive cell_value :=
| TextCell (s : string)
| OtherCell (shown : string).

(** One turn of [for cell in column]: when the text of the value is longer
    than [max_length], [len(cell.value)] is taken, which raises for a value
    that is no string; the bare [except] swallows that. *)
Definition widen (max_length : nat) (value : cell_value) : nat :=
  match value with
  | TextCell s => if (max_length <? String.length s)%nat then String.length s else max_length
  | OtherCell shown => if (max_length <? String.length shown)%nat then max_length else max_length
  end.

(** [adjusted_width] for one column. *)
Definition column_width (column : list cell_value) : nat :=
  Nat.min (fold_left widen column 0%nat + 2) 100.

End get_toxinfo_by_cas6.

(** ** Second program: [pubchem_hazard_scraper.py] *)

Module pubchem_hazard_scraper.
Import Py Http.
Local Open Scope py_scope.
Local Open Scope Z_scope.

Definition no_data_found := "No data found".

(** A cell of the [CAS] column as [pandas.read_csv] hands it over: a
    string, or NaN for an empty field. *)
Inductive cell :=
| Missing
| Str (s : string).

(** [not cas or pd.isna(cas)]. *)
Definition blank (cas : cell) : bool :=
  match cas with
  | Missing => true
  | Str s => String.eqb s ""
  end.

Definition cell_text (cas : cell) : string :=
  match cas with
  | Missing => "nan"
  | Str s => s
  end.

(** The regex class [\d] on characters below U+0100. *)
Definition is_digit (c : ascii) : bool :=
  ((48 <=? nat_of_ascii c) && (nat_of_ascii c <=? 57))%nat.

(** [re.findall] of the pattern [letter\d{3}]: leftmost matches, the scan
    resuming after each match. *)
Fixpoint findall (letter : ascii) (text : string) : list string :=
  match text with
  | EmptyString => []
  | String c rest =>
      if Ascii.eqb c letter then
        match rest with
        | String d1 (String d2 (String d3 rest')) =>
            if is_digit d1 && is_digit d2 && is_digit d3
            then String c (String d1 (String d2 (String d3 EmptyString)))
                   :: findall letter rest'
            else findall letter rest
        | _ => findall letter rest
        end
      else findall letter rest
  end.

(** [set(xs)], kept as a list without repetition. *)
Definition set (xs : list string) : list string := nodup string_dec xs.

Fixpoint insort (x : string) (sorted : list string) : list string :=
  match sorted with
  | [] => [x]
  | y :: rest => if String.leb x y then x :: sorted else y :: insort x rest
  end.

(** [sorted(xs)]. *)
Definition sorted (xs : list string) : list string := fold_right insort [] xs.

(** The [status == 200] branch of [get_ghs_classification], from the body
    text on. *)
Definition ghs_codes (text : string) : string * string :=
  if contains no_data_found text then (no_data_found, no_data_found)
  else
    let hazards := findall "H"%char text in
    let precautions := findall "P"%char text in
    (join "," (sorted (set hazards)), join "," (sorted (set precautions))).

Definition PUBCHEM_URL (name : string) : string :=
  "https://pubchem.ncbi.nlm.nih.gov/rest/pug/compound/name/" ++ name ++ "/cids/JSON".

Definition PUBCHEM_BASE_URL (cid : string) : string :=
  "https://pubchem.ncbi.nlm.nih.gov/rest/pug_view/data/compound/" ++ cid
  ++ "/JSON/?response_type=display&heading=GHS%20Classification".

Section Libraries.

(** The text [str.format] and an f-string put for a value, and [str(e)] for
    the built-in exceptions. *)
Variable format : json -> string.
Variable exn_message : exn -> string.

Variable net : nat -> outcome.

(** ["IdentifierList" in data and "CID" in data["IdentifierList"]], then
    [data["IdentifierList"]["CID"][0]] or [None]. *)
Definition cid_of_data (data : json) : result json :=
  present <- py_in "IdentifierList" data ;;
  if present then
    identifiers <- getitem data "IdentifierList" ;;
    has_cid <- py_in "CID" identifiers ;;
    if has_cid then
      cids <- getitem identifiers "CID" ;;
      getitem0 cids
    else Ok JNull
  else Ok JNull.

(** The loop of [cas_to_cid] over the remaining values of [attempt]. *)
Fixpoint cas_to_cid_loop (cas_number : string) (delay : Q) (attempts : list Z) (w : world)
  : json * world :=
  match attempts with
  | [] => (JNull, w)
  | attempt :: rest =>
      let (o, w1) := get net (PUBCHEM_URL cas_number) w in
      let on_exception (msg : string) :=
        cas_to_cid_loop cas_number delay rest
          (emit (Sleep delay)
             (emit (Print ("Exception for CAS " ++ cas_number ++ ": " ++ msg)) w1)) in
      match o with
      | Raises msg => on_exception msg
      | Responds r =>
          if status r =? 200 then
            match resp_json r with
            | inl msg => on_exception msg
            | inr data =>
                match cid_of_data data with
                | Ok cid => (cid, w1)
                | Raise e => on_exception (exn_message e)
                end
            end
          else if status r =? 404 then (JNull, w1)
          else if status r =? 503 then
            cas_to_cid_loop cas_number delay rest
              (emit (Sleep delay)
                 (emit (Print ("503 Service Unavailable for CAS " ++ cas_number
                               ++ ", retrying...")) w1))
          else cas_to_cid_loop cas_number delay rest (emit (Sleep delay) w1)
      end
  end.

Definition cas_to_cid (cas_number : string) (retries : Z) (delay : Q) (w : world)
  : json * world :=
  cas_to_cid_loop cas_number delay (range retries) w.

(** The loop of [get_ghs_classification]. *)
Fixpoint get_ghs_classification_loop (cid : json) (delay : Q) (attempts : list Z) (w : world)
  : (string * string) * world :=
  match attempts with
  | [] => (("", ""), w)
  | attempt :: rest =>
      let (o, w1) := get net (PUBCHEM_BASE_URL (format cid)) w in
      let on_exception (msg : string) :=
        get_ghs_classification_loop cid delay rest
          (emit (Sleep delay)
             (emit (Print ("Exception for CID " ++ format cid ++ ": " ++ msg)) w1)) in
      match o with
      | Raises msg => on_exception msg
      | Responds r =>
          if status r =? 200 then
            match text r with
            | Text body => (ghs_codes body, w1)
            | UnicodeDecodeError msg | TextRaises msg => on_exception msg
            end
          else if status r =? 404 then (("", ""), w1)
          else if status r =? 503 then
            get_ghs_classification_loop cid delay rest
              (emit (Sleep delay)
                 (emit (Print ("503 Service Unavailable for CID " ++ format cid
                               ++ ", retrying...")) w1))
          else get_ghs_classification_loop cid delay rest (emit (Sleep delay) w1)
      end
  end.

Definition get_ghs_classification (cid : json) (retries : Z) (delay : Q) (w : world)
  : (string * string) * world :=
  get_ghs_classification_loop cid delay (range retries) w.

(** [process_row]: the triple it returns, and what the task did. *)
Definition process_row (idx : nat) (cas : cell) (w : world)
  : (nat * string * string) * world :=
  if blank cas then ((idx, "", ""), w)
  else
    let w1 := emit (Print ("Processing CAS: " ++ cell_text cas ++ " ...")) w in
    let (cid, w2) := cas_to_cid (cell_text cas) 3 1 w1 in
    if truthy cid then
      let '((hazards, precautions), w3) := get_ghs_classification cid 3 1 w2 in
      ((idx, hazards, precautions),
       emit (Print ("  → CID " ++ format cid ++ " | Hazards: " ++ hazards
                    ++ " | Precautions: " ++ precautions)) w3)
    else
      ((idx, no_data_found, no_data_found),
       emit (Print ("  → No PubChem match for CAS " ++ cell_text cas)) w2).

End Libraries.

(** A row of the table: the [CAS] cell and the two columns [main] adds. *)
Record row := {
  CAS : cell;
  Hazards : string;
  Precautions : string
}.

(** What the orchestrator does, as seen from outside the tasks. *)
Inductive step :=
| Await (batch : list nat)
| Pause (seconds : Q).

(** [df.at[idx, "Hazards"] = hazards; df.at[idx, "Precautions"] = precautions]
    on a table indexed 0, 1, 2, ...; [main] only passes indices of rows of
    the table. *)
Fixpoint write_back (idx : nat) (hazards precautions : string) (df : list row) : list row :=
  match df, idx with
  | [], _ => []
  | r :: rest, O => {| CAS := CAS r; Hazards := hazards; Precautions := precautions |} :: rest
  | r :: rest, S i => r :: write_back i hazards precautions rest
  end.

Section Orchestrator.

Variable format : json -> string.
Variable exn_message : exn -> string.

(** [nets idx] is the network as the task of row [idx] sees it;
    [completion k] is the order in which the tasks of the [k]-th awaited
    batch finish. *)
Variable nets : nat -> nat -> outcome.
Variable completion : nat -> list nat.

Definition run_task (task : nat * cell) : nat * string * string :=
  fst (process_row format exn_message (nets (fst task)) (fst task) (snd task) start).

(** The row of the table once the task of that row has been written back. *)
Definition filled_row (task : nat * cell) : row :=
  {| CAS := snd task;
     Hazards := snd (fst (run_task task));
     Precautions := snd (run_task task) |}.

(** The state of the loop of [main]: pending tasks, results so far, and the
    batches awaited and pauses taken so far. *)
Record loop_state := {
  tasks : list (nat * cell);
  results : list (nat * string * string);
  steps : list step
}.

Definition awaited (st : loop_state) : nat :=
  List.length (filter (fun s => match s with Await _ => true | Pause _ => false end) (steps st)).

(** [batch_results = await asyncio.gather] of the pending tasks, then
    [results.extend(batch_results)]. *)
Definition await_batch (st : loop_state) : loop_state :=
  let batch_results := Asyncio.gather (completion (awaited st)) (map run_task (tasks st)) in
  {| tasks := [];
     results := results st ++ batch_results;
     steps := steps st ++ [Await (map fst (tasks st))] |}.

(** One turn of [for idx, row in df.iterrows()]. *)
Definition main_turn (batch_size : Z) (pause : Q) (task : nat * cell) (st : loop_state)
  : loop_state :=
  let st1 := {| tasks := tasks st ++ [task]; results := results st; steps := steps st |} in
  if Z.of_nat (List.length (tasks st1)) >=? batch_size then
    let st2 := await_batch st1 in
    {| tasks := tasks st2; results := results st2; steps := steps st2 ++ [Pause pause] |}
  else st1.

Definition main_loop (batch_size : Z) (pause : Q) (cells : list cell) : loop_state :=
  let st := fold_left (fun st task => main_turn batch_size pause task st)
                      (enumerate 0 cells)
                      {| tasks := []; results := []; steps := [] |} in
  match tasks st with
  | [] => st
  | _ => await_batch st
  end.

(** [main]: the table written out and the batches and pauses on the way.
    [cells] is the [CAS] column of the input file. *)
Definition main (cells : list cell) (batch_size : Z) (pause : Q) : list row * list step :=
  let df := map (fun c => {| CAS := c; Hazards := ""; Precautions := "" |}) cells in
  let st := main_loop batch_size pause cells in
  (fold_left (fun df '(idx, hazards, precautions) => write_back idx hazards precautions df)
             (results st) df,
   steps st).

End Orchestrator.

End pubchem_hazard_scraper.

(** ** Vocabulary of the statements *)

Module Spec.
Local Open Scope string_scope.

(** [needle] occurs somewhere in [hay]. *)
Definition occurs (needle hay : string) : Prop :=
  exists pre suf : string, hay = pre ++ needle ++ suf.

(** [code] is [letter] followed by exactly three digits. *)
Definition is_code (letter : ascii) (code : string) : Prop :=
  exists d1 d2 d3 : ascii,
    pubchem_hazard_scraper.is_digit d1 = true
    /\ pubchem_hazard_scraper.is_digit d2 = true
    /\ pubchem_hazard_scraper.is_digit d3 = true
    /\ code = String letter (String d1 (String d2 (String d3 EmptyString))).

(** Strictly before, in the order Python compares strings by. *)
Definition before (a b : string) : Prop := (a ?= b) = Lt.

(** *** The traversal of the keyword-section extractor *)

Import Py get_toxinfo_by_cas6.
Local Open Scope py_scope.

(** [[y for x in xs for y in f(x)]]. *)
Fixpoint gather_all {A B} (f : A -> result (list B)) (xs : list A) : result (list B) :=
  match xs with
  | [] => Ok []
  | x :: rest => ys <- f x ;; more <- gather_all f rest ;; Ok (ys ++ more)%list
  end.

(** The strings one [Information] item holds under
    [Value -> StringWithMarkup -> String]. *)
Definition info_strings (info : json) : result (list json) :=
  has_value <- py_in "Value" info ;;
  if has_value then
    value <- getitem info "Value" ;;
    has_markup <- py_in "StringWithMarkup" value ;;
    if has_markup then
      markup <- getitem value "StringWithMarkup" ;;
      items <- iter markup ;;
      comprehension (fun item => getitem item "String") items
    else Ok []
  else Ok [].

(** The string leaves attached to a section itself, in document order. *)
Definition own_strings (section : json) : result (list json) :=
  has_information <- py_in "Information" section ;;
  if has_information then
    information <- getitem section "Information" ;;
    infos <- iter information ;;
    gather_all info_strings infos
  else Ok [].

(** The sections the traversal enters with a matching heading, in the order
    it enters them, each as its heading and its own string leaves.  A
    section is entered when it is handed to [process_section]; its child
    sections are handed over only when its own heading matched. *)
Fixpoint encountered (frames : nat) (section : json) : result (list (string * list json)) :=
  match frames with
  | O => Raise RecursionError
  | S frames' =>
      matched <- tox_heading section ;;
      match matched with
      | Some heading =>
          own <- own_strings section ;;
          has_section <- py_in "Section" section ;;
          if has_section then
            subsections <- getitem section "Section" ;;
            items <- iter subsections ;;
            below <- gather_all (encountered frames') items ;;
            Ok ((heading, own) :: below)
          else Ok [(heading, own)]
      | None => Ok []
      end
  end.

(** The same for a whole document. *)
Definition encountered_in (frames : nat) (data : json) : result (list (string * list json)) :=
  has_record <- py_in "Record" data ;;
  if negb has_record then Ok []
  else
    record <- getitem data "Record" ;;
    has_section <- py_in "Section" record ;;
    if negb has_section then Ok []
    else
      sections <- getitem record "Section" ;;
      items <- iter sections ;;
      gather_all (encountered frames) items.

(** Storing the entries of a traversal one after the other. *)
Definition store (log : list (string * list json)) (tox_data : tox_dict) : tox_dict :=
  fold_left (fun d entry => dict_set (fst entry) (snd entry) d) log tox_data.

(** The last entry of a traversal under [heading], if any. *)
Definition last_under (heading : string) (log : list (string * list json))
  : option (list json) :=
  lookup heading (rev log).

(** *** Documents of the expected shape *)

(** A section with a heading, its [Information] items (each a list of
    strings) and its child sections. *)
Inductive section_tree :=
| Node (heading : string) (infos : list (list string)) (children : list section_tree).

Definition info_json (strings : list string) : json :=
  JObj [("Value",
         JObj [("StringWithMarkup",
                JArr (map (fun s => JObj [("String", JStr s)]) strings))])].

Fixpoint section_json (t : section_tree) : json :=
  match t with
  | Node heading infos children =>
      JObj [("TOCHeading", JStr heading);
            ("Information", JArr (map info_json infos));
            ("Section", JArr (map section_json children))]
  end.

Definition document (sections : list section_tree) : json :=
  JObj [("Record", JObj [("Section", JArr (map section_json sections))])].

(** Depth-first listing of every section, matching or not, a section
    before its children. *)
Fixpoint every_section (t : section_tree) : list (string * list json) :=
  match t with
  | Node heading infos children =>
      (heading, map JStr (List.concat infos)) :: flat_map every_section children
  end.

(** *** Sections of any document *)

(** The child sections [process_section] loops over below a section whose
    heading matched: those under ['Section'], none when the key is absent. *)
Definition subsections (section : json) : result (list json) :=
  has_section <- py_in "Section" section ;;
  if has_section then
    subsections <- getitem section "Section" ;;
    iter subsections
  else Ok [].

(** The sections [extract_tox_data] loops over: those under
    [Record -> Section], none when the path is absent. *)
Definition top_sections (data : json) : result (list json) :=
  has_record <- py_in "Record" data ;;
  if negb has_record then Ok []
  else
    record <- getitem data "Record" ;;
    has_section <- py_in "Section" record ;;
    if negb has_section then Ok []
    else
      sections <- getitem record "Section" ;;
      iter sections.

(** [reached top d]: [d] is [top], or [d] lies under [top] and the heading
    of every section on the way from [top] down to the parent of [d]
    matches a keyword. *)
Inductive reached : json -> json -> Prop :=
| reached_here section : reached section section
| reached_child section heading children c d :
    tox_heading section = Ok (Some heading) ->
    subsections section = Ok children ->
    In c children ->
    reached c d ->
    reached section d.

(** *** Documents with keys left out *)

(** An [Information] item as a record may hold it: without ['Value'], with
    a ['Value'] that has no ['StringWithMarkup'] (a number, for one), or
    with strings. *)
Inductive info_item :=
| NoValue
| NoMarkup
| Markup (strings : list string).

Definition item_strings (i : info_item) : list string :=
  match i with
  | Markup strings => strings
  | NoValue | NoMarkup => []
  end.

Definition item_json (i : info_item) : json :=
  match i with
  | NoValue => JObj [("ReferenceNumber", JNum (Int 1))]
  | NoMarkup => JObj [("Value", JObj [("Number", JArr [JNum (Int 1)])])]
  | Markup strings => info_json strings
  end.

(** A section any of whose three keys may be absent. *)
Inductive sparse_section :=
| Sparse (heading : option string) (information : option (list info_item))
         (children : option (list sparse_section)).

Definition sparse_heading (t : sparse_section) : option string :=
  match t with Sparse heading _ _ => heading end.

(** The heading of the section when it has one that matches a keyword. *)
Definition sparse_match (t : sparse_section) : option string :=
  match sparse_heading t with
  | Some h => if is_tox h then Some h else None
  | None => None
  end.

Definition sparse_leaves (t : sparse_section) : list json :=
  match t with
  | Sparse _ (Some infos) _ => map JStr (flat_map item_strings infos)
  | Sparse _ None _ => []
  end.

Definition sparse_children (t : sparse_section) : list sparse_section :=
  match t with
  | Sparse _ _ (Some children) => children
  | Sparse _ _ None => []
  end.

Fixpoint sparse_json (t : sparse_section) : json :=
  match t with
  | Sparse heading information children =>
      JObj (match heading with
            | Some h => [("TOCHeading", JStr h)]
            | None => []
            end
            ++ match information with
               | Some infos => [("Information", JArr (map item_json infos))]
               | None => []
               end
            ++ match children with
               | Some sections => [("Section", JArr (map sparse_json sections))]
               | None => []
               end)
  end.

Definition sparse_document (sections : list sparse_section) : json :=
  JObj [("Record", JObj [("Section", JArr (map sparse_json sections))])].

Fixpoint sparse_height (t : sparse_section) : nat :=
  match t with
  | Sparse _ _ children =>
      S (match children with
         | Some sections => fold_right (fun c m => Nat.max (sparse_height c) m) O sections
         | None => O
         end)
  end.


(** Depth-first listing of the matching sections, a section before its
    children, not entering the children of a section that has no heading or
    one that does not match. *)
Fixpoint sparse_preorder (t : sparse_section) : list (string * list json) :=
  match t with
  | Sparse heading information children =>
      match heading with
      | Some h =>
          if is_tox h
          then (h, match information with
                   | Some infos => map JStr (flat_map item_strings infos)
                   | None => []
                   end)
                 :: match children with
                    | Some sections => flat_map sparse_preorder sections
                    | None => []
                    end
          else []
      | None => []
      end
  end.

(** *** Attempts of [fetch_url] *)

Import Http.

(** The message of the exception an attempt ends with, when it ends with
    one: the request raises, or its body cannot be read or parsed. *)
Definition failure (json_loads : string -> string + json) (o : outcome) : option string :=
  match o with
  | Raises msg => Some msg
  | Responds r =>
      if (status r =? 200)%Z then
        match load_body json_loads r with
        | inl msg => Some msg
        | inr _ => None
        end
      else None
  end.

(** The attempt is answered by 503 or ends with an exception. *)
Definition retriable (json_loads : string -> string + json) (o : outcome) : Prop :=
  (exists r, o = Responds r /\ status r = 503%Z) \/ failure json_loads o <> None.

(** The attempt is answered by 200 with a body that parses to [value]. *)
Definition served (json_loads : string -> string + json) (o : outcome) (value : json) : Prop :=
  exists r, o = Responds r /\ status r = 200%Z /\ load_body json_loads r = inr value.

(** *** Sections by heading *)

(** What [section.get('TOCHeading')] gives for a section that is a
    dictionary. *)
Definition heading_entry (section : json) : option json :=
  match section with
  | JObj fields =>
      Some (match lookup "TOCHeading" fields with Some h => h | None => JNull end)
  | _ => None
  end.

(** The section is a dictionary headed [name]. *)
Definition headed (name : string) (section : json) : Prop :=
  exists h, heading_entry section = Some h /\ str_eq name h = true.

(** The section is a dictionary with another heading, or with none. *)
Definition not_headed (name : string) (section : json) : Prop :=
  exists h, heading_entry section = Some h /\ str_eq name h = false.

(** [properties.get(key, 'N/A')] on the fields of a dictionary. *)
Definition or_NA (key : string) (properties : list (string * json)) : json :=
  match lookup key properties with Some x => x | None => JStr "N/A" end.

(** A record document with the given top-level sections. *)
Definition has_sections (data : json) (sections : list json) : Prop :=
  exists fields record,
    data = JObj fields
    /\ lookup "Record" fields = Some (JObj record)
    /\ lookup "Section" record = Some (JArr sections).

(** *** Records *)

(** A record of the output: a dictionary that names its identifier under
    ['CAS'] and holds either an ['error'] or the ['ToxData'], not both. *)
Definition record_of (cas_number : string) (record : json) : Prop :=
  exists fields,
    record = JObj fields
    /\ lookup "CAS" fields = Some (JStr cas_number)
    /\ ((lookup "error" fields <> None /\ lookup "ToxData" fields = None)
        \/ (lookup "error" fields = None /\ lookup "ToxData" fields <> None)).

(** *** Attempts of the second program *)

(** The attempt neither returns nor ends the loop: the request raises, or
    it is answered by a status other than 200 and 404. *)
Definition unavailable (o : outcome) : Prop :=
  (exists msg, o = Raises msg)
  \/ (exists r, o = Responds r /\ status r <> 200%Z /\ status r <> 404%Z).

(** *** Sheets and batches *)

(** The length of the longest string in a column. *)
Definition longest_text (column : list cell_value) : nat :=
  fold_right (fun value longest =>
                match value with
                | TextCell s => Nat.max (String.length s) longest
                | OtherCell _ => longest
                end) 0%nat column.

(** The rows the orchestrator has awaited, batch after batch. *)
Definition awaited_rows (steps : list pubchem_hazard_scraper.step) : list nat :=
  flat_map (fun s => match s with
                     | pubchem_hazard_scraper.Await batch => batch
                     | pubchem_hazard_scraper.Pause _ => []
                     end) steps.

(** The pauses the orchestrator has taken. *)
Definition pauses (steps : list pubchem_hazard_scraper.step) : list Q :=
  flat_map (fun s => match s with
                     | pubchem_hazard_scraper.Await _ => []
                     | pubchem_hazard_scraper.Pause seconds => [seconds]
                     end) steps.

End Spec.

(** ** Sample inputs *)

Module Samples.
Import Py Http.
Local Open Scope Z_scope.

Definition respond (code : Z) : outcome :=
  Responds {| status := code; text := Text ""; read := inr ""; resp_json := inr JNull |}.

(** A server that answers every request with 503. *)
Definition overloaded : nat -> outcome := fun _ => respond 503.

(** A server that answers 500 once and then serves a GHS fragment. *)
Definition flaky : nat -> outcome := fun n =>
  match n with
  | O => respond 500
  | _ => Responds {| status := 200; text := Text "H302 Harmful if swallowed";
                     read := inr ""; resp_json := inr JNull |}
  end.

(** The resolver's answer with an identifier list, and with an empty one. *)
Definition cid_list (cids : list json) : json :=
  JObj [("IdentifierList", JObj [("CID", JArr cids)])].

Definition serves (data : json) : nat -> outcome := fun _ =>
  Responds {| status := 200; text := Text "{}"; read := inr "{}"; resp_json := inr data |}.


(** The heading "Hazards Identification" met twice, the second time under
    the first. *)
Definition repeated_heading : json :=
  Spec.document
    [Spec.Node "Safety and Hazards" [["Irritant"]]
       [Spec.Node "Hazards Identification" [["H302"]; ["H315"]]
          [Spec.Node "Hazards Identification" [["H319"]] []]]].

(** The heading "Toxicity" twice, the second time under a section that
    does not match. *)
Definition later_hidden_sections : list Spec.section_tree :=
  [Spec.Node "Toxicity" [["LD50 200 mg/kg (rat, oral)"]] [];
   Spec.Node "Pharmacology" []
     [Spec.Node "Toxicity" [["LD50 1100 mg/kg (mouse, oral)"]] []]].

Definition later_hidden : json := Spec.document later_hidden_sections.

(** A record whose sections leave keys out: a matching section without
    ['Information'], a leaf without ['Section'], items without strings and a
    section without a heading. *)
Definition sparse_sections : list Spec.sparse_section :=
  [Spec.Sparse (Some "Safety and Hazards") None
     (Some [Spec.Sparse (Some "Toxicity")
              (Some [Spec.Markup ["LD50 200 mg/kg (rat, oral)"];
                     Spec.NoMarkup; Spec.NoValue])
              None;
            Spec.Sparse (Some "Toxicity") (Some [Spec.Markup ["Irritant"]]) None]);
   Spec.Sparse None None
     (Some [Spec.Sparse (Some "Health Hazards") (Some [Spec.Markup ["H302"]]) None]);
   Spec.Sparse (Some "Patents") (Some [Spec.NoValue])
     (Some [Spec.Sparse (Some "Exposure Limits") None None])].

Definition sparse_record : json := Spec.sparse_document sparse_sections.

(** A property table with one entry that has no SMILES. *)
Definition aspirin_properties : json :=
  JObj [("PropertyTable",
         JObj [("Properties",
                JArr [JObj [("CID", JNum (Int 2244));
                            ("IUPACName", JStr "2-acetyloxybenzoic acid")]])])].

(** An [Information] item with a name and strings. *)
Definition named_info (name : string) (strings : list string) : json :=
  JObj [("Name", JStr name);
        ("Value",
         JObj [("StringWithMarkup",
                JArr (map (fun s => JObj [("String", JStr s)]) strings))])].

(** A section "Names and Identifiers" holding a name and two synonyms. *)
Definition names_section : json :=
  JObj [("TOCHeading", JStr "Names and Identifiers");
        ("Section",
         JArr [JObj [("TOCHeading", JStr "Computed Descriptors");
                     ("Information",
                      JArr [named_info "IUPAC Name" ["2-acetyloxybenzoic acid"];
                            named_info "InChI" ["InChI=1S/C9H8O4"]])];
               JObj [("TOCHeading", JStr "Synonyms");
                     ("Information",
                      JArr [named_info "Synonym" ["aspirin"; "50-78-2"]])]])].

(** A record whose second "Names and Identifiers" section is no dictionary
    at all. *)
Definition names_twice : json :=
  JObj [("Record",
         JObj [("Section",
                JArr [JObj [("TOCHeading", JStr "Structures")];
                      names_section;
                      JStr "Names and Identifiers"])])].

(** A record with a literature section and a section of another kind. *)
Definition with_references : json :=
  JObj [("Record",
         JObj [("Section",
                JArr [JObj [("TOCHeading", JStr "Nature Journal References");
                            ("Information", JArr [named_info "Reference" ["Nature 2001"]])];
                      JObj [("TOCHeading", JStr "Patents");
                            ("Information", JArr [named_info "Patent" ["US1234"]])]])])].

(** A server that resolves every name to CID 2244 and serves the same
    record for every other request. *)
Definition aspirin_server : nat -> outcome := fun n =>
  match n with
  | O => Responds {| status := 200; text := Text "cids"; read := inr "";
                     resp_json := inr JNull |}
  | _ => Responds {| status := 200; text := Text "record"; read := inr "";
                     resp_json := inr JNull |}
  end.

(** A server that resolves the name and answers 404 ever after. *)
Definition no_record_server : nat -> outcome := fun n =>
  match n with
  | O => Responds {| status := 200; text := Text "cids"; read := inr "";
                     resp_json := inr JNull |}
  | _ => respond 404
  end.

(** A parser for the two bodies above. *)
Definition aspirin_loads : string -> string + json := fun body =>
  if String.eqb body "cids" then inr (cid_list [JNum (Int 2244)])
  else inr (Spec.document [Spec.Node "Toxicity" [["LD50 200 mg/kg"]] []]).

(** A parser that finds an empty identifier list in every body. *)
Definition empty_loads : string -> string + json := fun _ => inr (cid_list []).

(** A server that knows the compound but has no GHS fragment for it. *)
Definition no_ghs_server : nat -> outcome := fun n =>
  match n with
  | O => Responds {| status := 200; text := Text "cids"; read := inr "";
                     resp_json := inr (cid_list [JNum (Int 2244)]) |}
  | _ => respond 404
  end.

(** A GHS fragment that lists the same codes twice. *)
Definition twice_listed : string :=
  "H302 H315 H319 P264 P270 H302 H315 H319 P264 P270".

(** A [CAS] column of seven rows, the third one blank. *)
Definition seven_rows : list pubchem_hazard_scraper.cell :=
  map pubchem_hazard_scraper.Str
      ["50-78-2"; "64-17-5"; ""; "67-64-1"; "71-43-2"; "108-88-3"; "7732-18-5"].

(** A server that answers 503, then drops the connection, then serves. *)
Definition recovering : nat -> outcome := fun n =>
  match n with
  | O => respond 503
  | S O => Raises "Server disconnected"
  | _ => Responds {| status := 200; text := Text "{}"; read := inr "{}";
                     resp_json := inr JNull |}
  end.

(** A host that cannot be reached. *)
Definition unreachable : nat -> outcome := fun _ => Raises "Cannot connect to host".

Definition no_parse : string -> string + json := fun _ => inl "Expecting value".
Definition plain_quote : string -> string := fun s => s.
Definition plain_format : json -> string := fun _ => "2244".
Definition plain_message : exn -> string := fun _ => "error".

End Samples.

(** * Properties *)

(** ** Facts about the Python layer *)

Module PyFacts.
Import Py.

Lemma range_length n : List.length (range n) = Z.to_nat n.
Proof. unfold range. now rewrite length_map, length_seq. Qed.



End PyFacts.

(** ** The retry loop of the first program *)

Module FetchFacts.
Import Py Http get_toxinfo_by_cas6 PyFacts.
Local Open Scope Z_scope.

Section WithLibraries.

Variable json_loads : string -> string + json.
Variable net : nat -> outcome.

Local Abbreviation loop := (fetch_url_loop json_loads net).


(** An attempt answered by 503 sleeps [2 ^ attempt] and goes on with the
    remaining attempts. *)
Lemma fetch_url_loop_503 url retries attempt rest w r :
  net (sent w) = Responds r -> status r = 503 ->
  loop url retries (attempt :: rest) w
  = loop url retries rest
      {| sent := S (sent w);
         log := log w ++ [Get url; Sleep (inject_Z (2 ^ attempt))] |}.
Proof.
  intros Hnet Hst. simpl. rewrite Hnet, Hst. simpl.
  unfold emit. simpl. now rewrite <- app_assoc.
Qed.

(** An attempt answered by any status but 200 and 503 ends the call. *)
Lemma fetch_url_loop_other url retries attempt rest w r :
  net (sent w) = Responds r -> status r <> 200 -> status r <> 503 ->
  loop url retries (attempt :: rest) w
  = (error_marker ("HTTP error " ++ str_of_int (status r)),
     {| sent := S (sent w);
        log := log w ++ [Get url;
                         Print ("Error " ++ str_of_int (status r) ++ " for URL: " ++ url)] |}).
Proof.
  intros Hnet H200 H503. simpl. rewrite Hnet.
  destruct (Z.eqb_spec (status r) 200); [contradiction|].
  destruct (Z.eqb_spec (status r) 503); [contradiction|].
  unfold emit. simpl. now rewrite <- app_assoc.
Qed.

(** An exception on the attempt numbered [retries - 1] ends the call with
    the message of the exception. *)
Lemma fetch_url_loop_last_exception url retries rest w msg :
  net (sent w) = Raises msg ->
  fst (loop url retries (retries - 1 :: rest) w) = error_marker msg.
Proof.
  intros Hnet. simpl. rewrite Hnet, Z.eqb_refl. reflexivity.
Qed.

End WithLibraries.

End FetchFacts.

(** ** The retry loops of the second program *)

Module ScraperFacts.
Import Py Http pubchem_hazard_scraper PyFacts.
Local Open Scope Z_scope.

Section WithLibraries.

Variable format : json -> string.
Variable exn_message : exn -> string.
Variable net : nat -> outcome.

Local Abbreviation cid_loop := (cas_to_cid_loop exn_message net).
Local Abbreviation ghs_loop := (get_ghs_classification_loop format net).

(** Every sleep of the resolver loop lasts [delay], and there is at most one
    request per attempt. *)
Lemma cas_to_cid_loop_log cas delay attempts w :
  exists l : list event,
    log (snd (cid_loop cas delay attempts w)) = log w ++ l
    /\ Forall (fun s => s = delay) (sleeps l)
    /\ (List.length (gets l) <= List.length attempts)%nat.
Proof.
  revert w. induction attempts as [|attempt rest IH]; intros w.
  - exists []. simpl. rewrite app_nil_r. repeat split; [constructor | lia].
  - simpl.
    assert (Hgo : forall pre,
      Forall (fun s => s = delay) (sleeps pre) -> gets pre = [PUBCHEM_URL cas] ->
      exists l : list event,
        log (snd (cid_loop cas delay rest {| sent := S (sent w); log := log w ++ pre |}))
        = log w ++ l
        /\ Forall (fun s => s = delay) (sleeps l)
        /\ (List.length (gets l) <= S (List.length rest))%nat).
    { intros pre Hs Hg.
      destruct (IH {| sent := S (sent w); log := log w ++ pre |}) as (l & Hl & Hsl & Hgl).
      exists (pre ++ l). rewrite Hl. simpl. rewrite <- app_assoc.
      unfold sleeps, gets in *. rewrite !flat_map_app, Hg. simpl.
      repeat split; [now apply Forall_app | lia]. }
    assert (Hexc : forall msg, exists l : list event,
        log (snd (cid_loop cas delay rest
                    (emit (Sleep delay)
                       (emit (Print ("Exception for CAS " ++ cas ++ ": " ++ msg)%string)
                          {| sent := S (sent w); log := log w ++ [Get (PUBCHEM_URL cas)] |}))))
        = log w ++ l
        /\ Forall (fun s => s = delay) (sleeps l)
        /\ (List.length (gets l) <= S (List.length rest))%nat).
    { intros msg. unfold emit. simpl. rewrite <- !app_assoc. simpl.
      apply Hgo; [repeat constructor | reflexivity]. }
    destruct (net (sent w)) as [r|msg]; [|apply Hexc].
    destruct (status r =? 200).
    { destruct (resp_json r) as [msg|data]; [apply Hexc|].
      destruct (cid_of_data data) as [cid|e]; [|apply Hexc].
      exists [Get (PUBCHEM_URL cas)]. simpl. repeat split; [constructor | lia]. }
    destruct (status r =? 404).
    { exists [Get (PUBCHEM_URL cas)]. simpl. repeat split; [constructor | lia]. }
    destruct (status r =? 503).
    + unfold emit. simpl. rewrite <- !app_assoc. simpl.
      apply Hgo; [repeat constructor | reflexivity].
    + unfold emit. simpl. rewrite <- !app_assoc. simpl.
      apply Hgo; [repeat constructor | reflexivity].
Qed.

Lemma get_ghs_classification_loop_log cid delay attempts w :
  exists l : list event,
    log (snd (ghs_loop cid delay attempts w)) = log w ++ l
    /\ Forall (fun s => s = delay) (sleeps l)
    /\ (List.length (gets l) <= List.length attempts)%nat.
Proof.
  revert w. induction attempts as [|attempt rest IH]; intros w.
  - exists []. simpl. rewrite app_nil_r. repeat split; [constructor | lia].
  - simpl.
    assert (Hgo : forall pre,
      Forall (fun s => s = delay) (sleeps pre) ->
      gets pre = [PUBCHEM_BASE_URL (format cid)] ->
      exists l : list event,
        log (snd (ghs_loop cid delay rest {| sent := S (sent w); log := log w ++ pre |}))
        = log w ++ l
        /\ Forall (fun s => s = delay) (sleeps l)
        /\ (List.length (gets l) <= S (List.length rest))%nat).
    { intros pre Hs Hg.
      destruct (IH {| sent := S (sent w); log := log w ++ pre |}) as (l & Hl & Hsl & Hgl).
      exists (pre ++ l). rewrite Hl. simpl. rewrite <- app_assoc.
      unfold sleeps, gets in *. rewrite !flat_map_app, Hg. simpl.
      repeat split; [now apply Forall_app | lia]. }
    assert (Hexc : forall msg, exists l : list event,
        log (snd (ghs_loop cid delay rest
                    (emit (Sleep delay)
                       (emit (Print ("Exception for CID " ++ format cid ++ ": " ++ msg)%string)
                          {| sent := S (sent w);
                             log := log w ++ [Get (PUBCHEM_BASE_URL (format cid))] |}))))
        = log w ++ l
        /\ Forall (fun s => s = delay) (sleeps l)
        /\ (List.length (gets l) <= S (List.length rest))%nat).
    { intros msg. unfold emit. simpl. rewrite <- !app_assoc. simpl.
      apply Hgo; [repeat constructor | reflexivity]. }
    destruct (net (sent w)) as [r|msg]; [|apply Hexc].
    destruct (status r =? 200).
    { destruct (text r) as [body|msg|msg]; [|apply Hexc|apply Hexc].
      exists [Get (PUBCHEM_BASE_URL (format cid))]. simpl.
      repeat split; [constructor | lia]. }
    destruct (status r =? 404).
    { exists [Get (PUBCHEM_BASE_URL (format cid))]. simpl.
      repeat split; [constructor | lia]. }
    destruct (status r =? 503).
    + unfold emit. simpl. rewrite <- !app_assoc. simpl.
      apply Hgo; [repeat constructor | reflexivity].
    + unfold emit. simpl. rewrite <- !app_assoc. simpl.
      apply Hgo; [repeat constructor | reflexivity].
Qed.


Lemma get_ghs_classification_loop_503 cid delay attempt rest w r :
  net (sent w) = Responds r -> status r = 503 ->
  ghs_loop cid delay (attempt :: rest) w
  = ghs_loop cid delay rest
      {| sent := S (sent w);
         log := log w ++ [Get (PUBCHEM_BASE_URL (format cid));
                          Print ("503 Service Unavailable for CID " ++ format cid
                                 ++ ", retrying...");
                          Sleep delay] |}.
Proof.
  intros Hnet Hst. simpl. rewrite Hnet, Hst. simpl.
  unfold emit. simpl. now rewrite <- !app_assoc.
Qed.

(** A status that is none of 200, 404 and 503 is not reported: the loop
    sleeps [delay] and goes on with the remaining attempts. *)
Lemma cas_to_cid_loop_other cas delay attempt rest w r :
  net (sent w) = Responds r ->
  status r <> 200 -> status r <> 404 -> status r <> 503 ->
  cid_loop cas delay (attempt :: rest) w
  = cid_loop cas delay rest
      {| sent := S (sent w); log := log w ++ [Get (PUBCHEM_URL cas); Sleep delay] |}.
Proof.
  intros Hnet H200 H404 H503. simpl. rewrite Hnet.
  destruct (Z.eqb_spec (status r) 200); [contradiction|].
  destruct (Z.eqb_spec (status r) 404); [contradiction|].
  destruct (Z.eqb_spec (status r) 503); [contradiction|].
  unfold emit. simpl. now rewrite <- !app_assoc.
Qed.

Lemma get_ghs_classification_loop_other cid delay attempt rest w r :
  net (sent w) = Responds r ->
  status r <> 200 -> status r <> 404 -> status r <> 503 ->
  ghs_loop cid delay (attempt :: rest) w
  = ghs_loop cid delay rest
      {| sent := S (sent w);
         log := log w ++ [Get (PUBCHEM_BASE_URL (format cid)); Sleep delay] |}.
Proof.
  intros Hnet H200 H404 H503. simpl. rewrite Hnet.
  destruct (Z.eqb_spec (status r) 200); [contradiction|].
  destruct (Z.eqb_spec (status r) 404); [contradiction|].
  destruct (Z.eqb_spec (status r) 503); [contradiction|].
  unfold emit. simpl. now rewrite <- !app_assoc.
Qed.

End WithLibraries.

End ScraperFacts.

(** ** Retry behaviour: claims C2, C4 and C5 *)

Module RetryClaims.
Import Py Http Samples PyFacts.
Local Open Scope Z_scope.

(** C2 (the code departs from the claim): when every attempt is answered
    by HTTP 503, [fetch_url] sleeps after each of them, falls off the end of
    its loop and returns [None], not an error marker, whatever the budget.
    With a budget of three attempts it sleeps 1, 2 and 4 seconds on the
    way. *)
Theorem C2_fetch_url_exhausted_by_503_returns_None :
  (forall json_loads net url retries w,
      (forall n, exists r, net n = Responds r /\ status r = 503) ->
      fst (get_toxinfo_by_cas6.fetch_url json_loads net url retries w) = JNull)
  /\ (forall json_loads url,
      get_toxinfo_by_cas6.fetch_url json_loads overloaded url 3 start
      = (JNull,
         {| sent := 3;
            log := [Get url; Sleep 1; Get url; Sleep 2; Get url; Sleep (4 # 1)] |})).
Proof.
  split; [|reflexivity].
  intros json_loads net url retries w Hnet.
  unfold get_toxinfo_by_cas6.fetch_url. generalize (range retries) as attempts.
  intros attempts. revert w.
  induction attempts as [|attempt rest IH]; intros w; [reflexivity|].
  destruct (Hnet (sent w)) as (r & Hr & Hst).
  rewrite (FetchFacts.fetch_url_loop_503 json_loads net url retries attempt rest w r Hr Hst).
  apply IH.
Qed.

Lemma C2_fetch_url_exhausted_by_503_returns_None_witness :
  fst (get_toxinfo_by_cas6.fetch_url no_parse overloaded "u" 3 start) = JNull.
Proof.
  apply (proj1 C2_fetch_url_exhausted_by_503_returns_None no_parse overloaded "u" 3 start).
  intros n. exists {| status := 503; text := Text ""; read := inr ""; resp_json := inr JNull |}.
  split; reflexivity.
Defined.

(** What the caller makes of that [None]: the membership test of
    [get_pubchem_cid] raises [TypeError]. *)
Lemma get_pubchem_cid_after_503s json_loads quote format cas :
  fst (get_toxinfo_by_cas6.get_pubchem_cid json_loads quote format overloaded cas start)
  = Raise TypeError.
Proof. reflexivity. Qed.




(** C5, as the claim states it, fails on the second program: a 500 on the
    first attempt is neither reported nor final; the call sleeps, asks
    again and returns what the second response holds. *)
Lemma C5_counterexample_silent_retry :
  let url := pubchem_hazard_scraper.PUBCHEM_BASE_URL "2244" in
  pubchem_hazard_scraper.get_ghs_classification
    plain_format flaky (JNum (Int 2244)) 3 1 start
  = (("H302", ""), {| sent := 2; log := [Get url; Sleep 1; Get url] |}).
Proof. reflexivity. Qed.

(** C5 (amended): in the first program an attempt answered by a status
    other than 200 and 503 prints the error line and returns the error
    marker at once, with no further request.  In the second program a status
    other than 200, 404 and 503 is not reported and does not end the call:
    the loop sleeps [delay] and goes on with the remaining attempts. *)
Theorem C5_other_status :
  (forall json_loads net url retries attempt rest w r,
      net (sent w) = Responds r -> status r <> 200 -> status r <> 503 ->
      get_toxinfo_by_cas6.fetch_url_loop json_loads net url retries (attempt :: rest) w
      = (get_toxinfo_by_cas6.error_marker ("HTTP error " ++ str_of_int (status r)),
         {| sent := S (sent w);
            log := log w ++ [Get url;
                             Print ("Error " ++ str_of_int (status r)
                                    ++ " for URL: " ++ url)] |}))
  /\ (forall exn_message net cas delay attempt rest w r,
      net (sent w) = Responds r ->
      status r <> 200 -> status r <> 404 -> status r <> 503 ->
      pubchem_hazard_scraper.cas_to_cid_loop exn_message net cas delay (attempt :: rest) w
      = pubchem_hazard_scraper.cas_to_cid_loop exn_message net cas delay rest
          {| sent := S (sent w);
             log := log w ++ [Get (pubchem_hazard_scraper.PUBCHEM_URL cas); Sleep delay] |})
  /\ (forall format net cid delay attempt rest w r,
      net (sent w) = Responds r ->
      status r <> 200 -> status r <> 404 -> status r <> 503 ->
      pubchem_hazard_scraper.get_ghs_classification_loop
        format net cid delay (attempt :: rest) w
      = pubchem_hazard_scraper.get_ghs_classification_loop format net cid delay rest
          {| sent := S (sent w);
             log := log w ++ [Get (pubchem_hazard_scraper.PUBCHEM_BASE_URL (format cid));
                              Sleep delay] |}).
Proof.
  split; [|split]; intros.
  - eapply FetchFacts.fetch_url_loop_other; eassumption.
  - eapply ScraperFacts.cas_to_cid_loop_other; eassumption.
  - eapply ScraperFacts.get_ghs_classification_loop_other; eassumption.
Qed.

Lemma C5_other_status_witness :
  get_toxinfo_by_cas6.fetch_url_loop no_parse (fun _ => respond 500) "u" 3 [0; 1; 2] start
  = (get_toxinfo_by_cas6.error_marker "HTTP error 500",
     {| sent := 1; log := [Get "u"; Print "Error 500 for URL: u"] |})
  /\ pubchem_hazard_scraper.get_ghs_classification_loop
       plain_format flaky (JNum (Int 2244)) 1 [0; 1; 2] start
     = pubchem_hazard_scraper.get_ghs_classification_loop
         plain_format flaky (JNum (Int 2244)) 1 [1; 2]
         {| sent := 1;
            log := [Get (pubchem_hazard_scraper.PUBCHEM_BASE_URL "2244"); Sleep 1] |}.
Proof.
  split.
  - apply (proj1 C5_other_status no_parse (fun _ => respond 500) "u" 3 0 [1; 2] start
             {| status := 500; text := Text ""; read := inr ""; resp_json := inr JNull |});
      [reflexivity | simpl; lia | simpl; lia].
  - apply (proj2 (proj2 C5_other_status) plain_format flaky (JNum (Int 2244)) 1%Q 0 [1; 2] start
             {| status := 500; text := Text ""; read := inr ""; resp_json := inr JNull |});
      [reflexivity | simpl; lia | simpl; lia | simpl; lia].
Defined.

End RetryClaims.

(** ** The identifier resolver: claim C3 *)

Module ResolverClaims.
Import Py Http Samples.
Local Open Scope Z_scope.

(** The two resolvers read the response in the same way. *)
Lemma cid_of_data_first fields ids x xs :
  lookup "IdentifierList" fields = Some (JObj ids) ->
  lookup "CID" ids = Some (JArr (x :: xs)) ->
  pubchem_hazard_scraper.cid_of_data (JObj fields) = Ok x.
Proof.
  intros H1 H2. unfold pubchem_hazard_scraper.cid_of_data. simpl.
  rewrite H1. simpl. rewrite H2. reflexivity.
Qed.

Lemma cid_of_data_missing fields :
  lookup "IdentifierList" fields = None
  \/ (exists ids, lookup "IdentifierList" fields = Some (JObj ids)
                  /\ lookup "CID" ids = None) ->
  pubchem_hazard_scraper.cid_of_data (JObj fields) = Ok JNull.
Proof.
  unfold pubchem_hazard_scraper.cid_of_data. simpl.
  intros [H | (ids & H1 & H2)].
  - now rewrite H.
  - rewrite H1. simpl. now rewrite H2.
Qed.

Lemma cid_of_data_empty fields ids :
  lookup "IdentifierList" fields = Some (JObj ids) ->
  lookup "CID" ids = Some (JArr []) ->
  pubchem_hazard_scraper.cid_of_data (JObj fields) = Raise IndexError.
Proof.
  intros H1 H2. unfold pubchem_hazard_scraper.cid_of_data. simpl.
  rewrite H1. simpl. rewrite H2. reflexivity.
Qed.

(** With every attempt answered by an empty identifier list, the second
    resolver catches each [IndexError], sleeps, and ends in [None]. *)
Lemma cas_to_cid_loop_empty_lists exn_message net cas delay :
  (forall n, exists r fields ids,
      net n = Responds r /\ status r = 200
      /\ resp_json r = inr (JObj fields)
      /\ lookup "IdentifierList" fields = Some (JObj ids)
      /\ lookup "CID" ids = Some (JArr [])) ->
  forall attempts w,
    fst (pubchem_hazard_scraper.cas_to_cid_loop exn_message net cas delay attempts w)
    = JNull.
Proof.
  intros Hnet. induction attempts as [|attempt rest IH]; intros w; [reflexivity|].
  destruct (Hnet (sent w)) as (r & fields & ids & Hr & Hst & Hjson & H1 & H2).
  simpl. rewrite Hr, Hst, Hjson. simpl.
  rewrite (cid_of_data_empty fields ids H1 H2). apply IH.
Qed.

(** C3 (the code departs from the claim): when the name lookup is answered
    by an object whose identifier list is empty, [get_pubchem_cid] raises
    [IndexError] on [data['IdentifierList']['CID'][0]] instead of returning
    [None], after its one request and without printing the response.  The
    same unguarded reading raises [TypeError] when ['IdentifierList'] holds
    [null].  Otherwise the function does what the claim says: on a
    non-empty list it returns the first element; when ['IdentifierList'] is
    absent, or ['CID'] is absent under it, or the fetch returned an error
    marker, it prints the response and returns [None].  The second
    program's [cas_to_cid] reads a response in the same way, inside its
    [try]: the first element, [None] without the path, and on an empty list
    it catches the [IndexError], sleeps and goes on with the remaining
    attempts; answered so at every attempt, it returns [None]. *)
Theorem C3_get_pubchem_cid_raises_on_empty_list :
  (forall json_loads quote format net cas w fields ids,
      Spec.served json_loads (net (sent w)) (JObj fields) ->
      lookup "IdentifierList" fields = Some (JObj ids) ->
      lookup "CID" ids = Some (JArr []) ->
      get_toxinfo_by_cas6.get_pubchem_cid json_loads quote format net cas w
      = (Raise IndexError,
         {| sent := S (sent w);
            log := log w ++ [Get (get_toxinfo_by_cas6.BASE_URL ++ "/compound/name/"
                                  ++ quote cas ++ "/cids/JSON")] |}))
  /\ (forall format cas fields w,
      lookup "IdentifierList" fields = Some JNull ->
      get_toxinfo_by_cas6.cid_of_response format cas (JObj fields) w
      = (Raise TypeError, w))
  /\ (forall format cas fields ids x xs w,
      lookup "IdentifierList" fields = Some (JObj ids) ->
      lookup "CID" ids = Some (JArr (x :: xs)) ->
      get_toxinfo_by_cas6.cid_of_response format cas (JObj fields) w = (Ok x, w))
  /\ (forall format cas fields w,
      lookup "IdentifierList" fields = None
      \/ (exists ids, lookup "IdentifierList" fields = Some (JObj ids)
                      /\ lookup "CID" ids = None) ->
      get_toxinfo_by_cas6.cid_of_response format cas (JObj fields) w
      = (Ok JNull,
         emit (Print ("Failed to get CID for CAS " ++ cas ++ ". Response: "
                      ++ format (JObj fields))) w))
  /\ (forall format cas msg w,
      get_toxinfo_by_cas6.cid_of_response
        format cas (get_toxinfo_by_cas6.error_marker msg) w
      = (Ok JNull,
         emit (Print ("Failed to get CID for CAS " ++ cas ++ ". Response: "
                      ++ format (get_toxinfo_by_cas6.error_marker msg))) w))
  /\ (forall exn_message net cas delay attempt rest w r fields,
      net (sent w) = Responds r -> status r = 200 ->
      resp_json r = inr (JObj fields) ->
      (forall ids x xs,
          lookup "IdentifierList" fields = Some (JObj ids) ->
          lookup "CID" ids = Some (JArr (x :: xs)) ->
          fst (pubchem_hazard_scraper.cas_to_cid_loop
                 exn_message net cas delay (attempt :: rest) w) = x)
      /\ (lookup "IdentifierList" fields = None
          \/ (exists ids, lookup "IdentifierList" fields = Some (JObj ids)
                          /\ lookup "CID" ids = None) ->
          fst (pubchem_hazard_scraper.cas_to_cid_loop
                 exn_message net cas delay (attempt :: rest) w) = JNull)
      /\ (forall ids,
          lookup "IdentifierList" fields = Some (JObj ids) ->
          lookup "CID" ids = Some (JArr []) ->
          pubchem_hazard_scraper.cas_to_cid_loop
            exn_message net cas delay (attempt :: rest) w
          = pubchem_hazard_scraper.cas_to_cid_loop exn_message net cas delay rest
              {| sent := S (sent w);
                 log := log w ++ [Get (pubchem_hazard_scraper.PUBCHEM_URL cas);
                                  Print ("Exception for CAS " ++ cas ++ ": "
                                         ++ exn_message IndexError);
                                  Sleep delay] |}))
  /\ (forall exn_message net cas retries delay w,
      (forall n, exists r fields ids,
          net n = Responds r /\ status r = 200
          /\ resp_json r = inr (JObj fields)
          /\ lookup "IdentifierList" fields = Some (JObj ids)
          /\ lookup "CID" ids = Some (JArr [])) ->
      fst (pubchem_hazard_scraper.cas_to_cid exn_message net cas retries delay w)
      = JNull).
Proof.
  split; [|split; [|split; [|split; [|split; [|split]]]]].
  - intros json_loads quote format net cas w fields ids (r & Hr & Hst & Hbody) H1 H2.
    unfold get_toxinfo_by_cas6.get_pubchem_cid, get_toxinfo_by_cas6.fetch_url.
    change (range 3) with [0; 1; 2]. simpl. rewrite Hr, Hst, Hbody. simpl.
    unfold get_toxinfo_by_cas6.cid_of_response, get_toxinfo_by_cas6.has_cid_list,
      get_toxinfo_by_cas6.first_cid.
    simpl. rewrite H1. simpl. rewrite H2. reflexivity.
  - intros format cas fields w H.
    unfold get_toxinfo_by_cas6.cid_of_response, get_toxinfo_by_cas6.has_cid_list.
    simpl. rewrite H. reflexivity.
  - intros format cas fields ids x xs w H1 H2.
    unfold get_toxinfo_by_cas6.cid_of_response, get_toxinfo_by_cas6.has_cid_list,
      get_toxinfo_by_cas6.first_cid.
    simpl. rewrite H1. simpl. rewrite H2. reflexivity.
  - intros format cas fields w H.
    unfold get_toxinfo_by_cas6.cid_of_response, get_toxinfo_by_cas6.has_cid_list.
    simpl. destruct H as [H | (ids & H1 & H2)].
    + now rewrite H.
    + rewrite H1. simpl. now rewrite H2.
  - reflexivity.
  - intros exn_message net cas delay attempt rest w r fields Hnet Hst Hjson.
    split; [|split].
    + intros ids x xs H1 H2. simpl. rewrite Hnet, Hst, Hjson. simpl.
      now rewrite (cid_of_data_first fields ids x xs H1 H2).
    + intros H. simpl. rewrite Hnet, Hst, Hjson. simpl.
      now rewrite (cid_of_data_missing fields H).
    + intros ids H1 H2. simpl. rewrite Hnet, Hst, Hjson. simpl.
      rewrite (cid_of_data_empty fields ids H1 H2).
      unfold emit. simpl. now rewrite <- !app_assoc.
  - intros exn_message net cas retries delay w Hnet.
    unfold pubchem_hazard_scraper.cas_to_cid.
    now apply cas_to_cid_loop_empty_lists.
Qed.

Lemma C3_get_pubchem_cid_raises_on_empty_list_witness :
  get_toxinfo_by_cas6.get_pubchem_cid empty_loads plain_quote plain_format (serves JNull)
    "50-78-2" start
  = (Raise IndexError,
     {| sent := 1;
        log := [Get "https://pubchem.ncbi.nlm.nih.gov/rest/pug/compound/name/50-78-2/cids/JSON"] |})
  /\ get_toxinfo_by_cas6.cid_of_response plain_format "50-78-2"
       (JObj [("IdentifierList", JNull)]) start
     = (Raise TypeError, start)
  /\ get_toxinfo_by_cas6.cid_of_response plain_format "50-78-2"
       (cid_list [JNum (Int 2244); JNum (Int 5)]) start
     = (Ok (JNum (Int 2244)), start)
  /\ get_toxinfo_by_cas6.cid_of_response plain_format "50-78-2" (JObj []) start
     = (Ok JNull,
        {| sent := 0;
           log := [Print "Failed to get CID for CAS 50-78-2. Response: 2244"] |})
  /\ fst (pubchem_hazard_scraper.cas_to_cid_loop plain_message
            (serves (cid_list [JNum (Int 2244); JNum (Int 5)])) "50-78-2" 1 [0; 1; 2] start)
     = JNum (Int 2244)
  /\ fst (pubchem_hazard_scraper.cas_to_cid plain_message (serves (cid_list []))
            "50-78-2" 3 1 start)
     = JNull.
Proof.
  destruct C3_get_pubchem_cid_raises_on_empty_list
    as (Hraises & Hnull & Hfirst & Hmissing & _ & Hsecond & Hsibling).
  split; [|split; [|split; [|split; [|split]]]].
  - apply (Hraises empty_loads plain_quote plain_format (serves JNull) "50-78-2" start
             [("IdentifierList", JObj [("CID", JArr [])])] [("CID", JArr [])]).
    + exists {| status := 200; text := Text "{}"; read := inr "{}";
                resp_json := inr JNull |}.
      repeat split; reflexivity.
    + reflexivity.
    + reflexivity.
  - apply (Hnull plain_format "50-78-2" [("IdentifierList", JNull)] start). reflexivity.
  - apply (Hfirst plain_format "50-78-2" _ [("CID", JArr [JNum (Int 2244); JNum (Int 5)])]
             (JNum (Int 2244)) [JNum (Int 5)] start);
      reflexivity.
  - apply (Hmissing plain_format "50-78-2" [] start). left. reflexivity.
  - destruct (Hsecond plain_message (serves (cid_list [JNum (Int 2244); JNum (Int 5)]))
                "50-78-2" 1%Q 0 [1; 2] start
                {| status := 200; text := Text "{}"; read := inr "{}";
                   resp_json := inr (cid_list [JNum (Int 2244); JNum (Int 5)]) |}
                [("IdentifierList", JObj [("CID", JArr [JNum (Int 2244); JNum (Int 5)])])]
                eq_refl eq_refl eq_refl) as (H & _).
    apply (H [("CID", JArr [JNum (Int 2244); JNum (Int 5)])] (JNum (Int 2244)) [JNum (Int 5)]);
      reflexivity.
  - apply (Hsibling plain_message (serves (cid_list [])) "50-78-2" 3 1%Q start).
    intros n. exists {| status := 200; text := Text "{}"; read := inr "{}";
                        resp_json := inr (cid_list []) |},
                     [("IdentifierList", JObj [("CID", JArr [])])], [("CID", JArr [])].
    repeat split; reflexivity.
Defined.

End ResolverClaims.

(** ** Strings: substrings and their order *)

Module StringFacts.
Import Py Spec.
Local Open Scope string_scope.

Lemma prefix_iff needle : forall hay,
  String.prefix needle hay = true <-> exists suf, hay = needle ++ suf.
Proof.
  induction needle as [|c needle IH]; intros [|d hay]; simpl.
  - split; [intros _; now exists "" | reflexivity].
  - split; [intros _; now exists (String d hay) | reflexivity].
  - split; [discriminate | intros (suf & H); discriminate].
  - destruct (ascii_dec c d) as [->|Hne].
    + rewrite IH. split; intros (suf & H); exists suf; congruence.
    + split; [discriminate | intros (suf & H); congruence].
Qed.

Lemma contains_unfold needle hay :
  contains needle hay
  = if String.prefix needle hay then true
    else match hay with
         | EmptyString => false
         | String _ rest => contains needle rest
         end.
Proof. destruct hay; reflexivity. Qed.

Lemma contains_iff needle : forall hay,
  contains needle hay = true <-> occurs needle hay.
Proof.
  unfold occurs. induction hay as [|c hay IH]; rewrite contains_unfold;
    match goal with |- context [String.prefix ?n ?h] =>
      destruct (String.prefix n h) eqn:Hp end.
  - apply prefix_iff in Hp as (suf & Hp).
    split; [intros _; now exists "", suf | reflexivity].
  - split; [discriminate|]. intros (pre & suf & H).
    destruct pre; simpl in H; [|discriminate].
    assert (String.prefix needle "" = true) by (apply prefix_iff; now exists suf).
    congruence.
  - apply prefix_iff in Hp as (suf & Hp).
    split; [intros _; now exists "", suf | reflexivity].
  - rewrite IH. split.
    + intros (pre & suf & H). exists (String c pre), suf. simpl. now rewrite H.
    + intros (pre & suf & H). destruct pre as [|d pre]; simpl in H.
      * assert (String.prefix needle (String c hay) = true)
          by (apply prefix_iff; now exists suf).
        congruence.
      * injection H as _ H. now exists pre, suf.
Qed.

Lemma ascii_before_trans a b c :
  Ascii.compare a b = Lt -> Ascii.compare b c = Lt -> Ascii.compare a c = Lt.
Proof.
  unfold Ascii.compare. rewrite !N.compare_lt_iff. apply N.lt_trans.
Qed.

Lemma before_trans a : forall b c, before a b -> before b c -> before a c.
Proof.
  unfold before. induction a as [|x a IH]; intros [|y b] [|z c]; simpl;
    try discriminate; try reflexivity.
  destruct (Ascii.compare x y) eqn:Hxy; try discriminate;
    destruct (Ascii.compare y z) eqn:Hyz; try discriminate.
  - apply Ascii.compare_eq_iff in Hxy, Hyz. subst.
    assert (Hzz : Ascii.compare z z = Eq).
    { unfold Ascii.compare. apply N.compare_refl. }
    rewrite Hzz. apply IH.
  - apply Ascii.compare_eq_iff in Hxy. subst. now rewrite Hyz.
  - apply Ascii.compare_eq_iff in Hyz. subst. now rewrite Hxy.
  - now rewrite (ascii_before_trans x y z Hxy Hyz).
Qed.

Lemma before_irrefl a : ~ before a a.
Proof.
  unfold before. induction a as [|x a IH]; simpl; [discriminate|].
  assert (Hxx : Ascii.compare x x = Eq) by (unfold Ascii.compare; apply N.compare_refl).
  now rewrite Hxx.
Qed.

Lemma leb_false_before x y : String.leb x y = false -> before y x.
Proof.
  unfold String.leb, before. rewrite (String.compare_antisym y x).
  destruct (x ?= y); simpl; congruence.
Qed.

Lemma leb_true_before x y : String.leb x y = true -> x <> y -> before x y.
Proof.
  unfold String.leb, before. intros H Hne.
  destruct (x ?= y) eqn:Hc; try congruence.
  apply String.compare_eq_iff in Hc. contradiction.
Qed.

End StringFacts.

(** ** The regex code extractor: claim C6 *)

Module CodeFacts.
Import Py Spec StringFacts pubchem_hazard_scraper.
Local Open Scope nat_scope.
Local Open Scope string_scope.

Lemma findall_cons letter c rest :
  findall letter (String c rest)
  = if Ascii.eqb c letter then
      match rest with
      | String d1 (String d2 (String d3 rest')) =>
          if is_digit d1 && is_digit d2 && is_digit d3
          then String c (String d1 (String d2 (String d3 EmptyString)))
                 :: findall letter rest'
          else findall letter rest
      | _ => findall letter rest
      end
    else findall letter rest.
Proof. reflexivity. Qed.

Lemma occurs_skip1 code c rest : occurs code rest -> occurs code (String c rest).
Proof. intros (pre & suf & ->). now exists (String c pre), suf. Qed.

Lemma occurs_skip4 code c d1 d2 d3 rest :
  occurs code rest -> occurs code (String c (String d1 (String d2 (String d3 rest)))).
Proof. intros H. now do 4 apply occurs_skip1. Qed.

(** Every string [findall] returns is a code that occurs in the text. *)
Lemma findall_sound letter (n : nat) : forall text,
  String.length text <= n ->
  forall code, In code (findall letter text) -> is_code letter code /\ occurs code text.
Proof.
  induction n as [|n IH]; intros [|c rest] Hlen code Hin; simpl in Hlen;
    try contradiction; try lia.
  rewrite findall_cons in Hin.
  assert (Hrest : In code (findall letter rest) -> is_code letter code /\ occurs code (String c rest)).
  { intros H. destruct (IH rest ltac:(lia) code H) as (Hc & Ho).
    split; [assumption | now apply occurs_skip1]. }
  destruct (Ascii.eqb c letter) eqn:Hc; [|now apply Hrest].
  apply Ascii.eqb_eq in Hc. subst c.
  destruct rest as [|d1 [|d2 [|d3 rest']]]; try (now apply Hrest).
  destruct (is_digit d1) eqn:H1; [|now apply Hrest].
  destruct (is_digit d2) eqn:H2; [|now apply Hrest].
  destruct (is_digit d3) eqn:H3; [|now apply Hrest].
  simpl in Hin. destruct Hin as [<- | Hin].
  - split; [now exists d1, d2, d3 | now exists "", rest'].
  - simpl in Hlen. destruct (IH rest' ltac:(lia) code Hin) as (Hc & Ho).
    split; [assumption | now apply occurs_skip4].
Qed.

(** Every code that occurs in the text is returned: a match can hide no
    other, because the letter of a code is not a digit. *)
Lemma findall_complete letter (n : nat) :
  is_digit letter = false ->
  forall text, String.length text <= n ->
  forall code, is_code letter code -> occurs code text -> In code (findall letter text).
Proof.
  intros Hletter. induction n as [|n IH];
    intros [|c rest] Hlen code Hcode (pre & suf & Hocc); simpl in Hlen; try lia.
  - destruct Hcode as (d1 & d2 & d3 & _ & _ & _ & ->).
    destruct pre; discriminate.
  - destruct Hcode as (d1 & d2 & d3 & _ & _ & _ & ->).
    destruct pre; discriminate.
  - rewrite findall_cons.
    destruct pre as [|p pre].
    + destruct Hcode as (d1 & d2 & d3 & H1 & H2 & H3 & ->).
      simpl in Hocc. injection Hocc as -> ->.
      rewrite Ascii.eqb_refl, H1, H2, H3. now left.
    + simpl in Hocc. injection Hocc as -> Hrest.
      assert (Hgo : In code (findall letter rest)).
      { apply IH; [lia | assumption | now exists pre, suf]. }
      destruct (Ascii.eqb p letter) eqn:Hp; [|assumption].
      destruct rest as [|e1 [|e2 [|e3 rest']]]; try assumption.
      destruct (is_digit e1) eqn:E1; [|assumption].
      destruct (is_digit e2) eqn:E2; [|assumption].
      destruct (is_digit e3) eqn:E3; [|assumption].
      simpl. right.
      destruct Hcode as (d1 & d2 & d3 & H1 & H2 & H3 & Hcode).
      destruct pre as [|x [|y [|z pre]]]; subst code; simpl in Hrest;
        injection Hrest as -> -> -> Hrest; try congruence.
      apply IH; [simpl in Hlen; lia | now exists d1, d2, d3 | now exists pre, suf].
Qed.

Lemma findall_iff letter text code :
  is_digit letter = false ->
  In code (findall letter text) <-> is_code letter code /\ occurs code text.
Proof.
  intros Hletter. split.
  - now apply (findall_sound letter (String.length text)).
  - intros (Hc & Ho). now apply (findall_complete letter (String.length text)).
Qed.

Lemma insort_In x code l : In code (insort x l) <-> code = x \/ In code l.
Proof.
  induction l as [|y l IH]; simpl.
  - intuition congruence.
  - destruct (String.leb x y); simpl; [intuition congruence|].
    rewrite IH. intuition.
Qed.

Lemma sorted_In code l : In code (sorted l) <-> In code l.
Proof.
  induction l as [|x l IH]; simpl; [reflexivity|].
  unfold sorted in *. simpl. rewrite insort_In, IH. intuition congruence.
Qed.

Lemma insort_sorted x l :
  ~ In x l -> StronglySorted before l -> StronglySorted before (insort x l).
Proof.
  intros Hx Hs. induction Hs as [|y l Hs IH Hy]; simpl.
  - repeat constructor.
  - destruct (String.leb x y) eqn:Hle.
    + assert (Hxy : before x y).
      { apply leb_true_before; [assumption|]. intros ->. apply Hx. now left. }
      constructor; [now constructor|].
      constructor; [assumption|].
      eapply Forall_impl; [|exact Hy]. intros z Hz. now apply (before_trans x y z).
    + constructor.
      * apply IH. intros H. apply Hx. now right.
      * apply Forall_forall. intros z Hz. apply insort_In in Hz as [-> | Hz].
        -- now apply leb_false_before.
        -- rewrite Forall_forall in Hy. now apply Hy.
Qed.

(** [sorted(set(xs))] is strictly increasing and holds what [xs] holds. *)
Lemma sorted_set_sorted xs : StronglySorted before (sorted (set xs)).
Proof.
  unfold set. pose proof (NoDup_nodup string_dec xs) as Hnd.
  induction Hnd as [|x l Hx Hnd IH]; [constructor|].
  unfold sorted in *. simpl. apply insort_sorted; [|assumption].
  intros H. apply Hx. now apply (sorted_In x l).
Qed.

Lemma sorted_set_In code xs : In code (sorted (set xs)) <-> In code xs.
Proof. unfold set. now rewrite sorted_In, nodup_In. Qed.

(** C6: a body in which "No data found" occurs yields that sentinel for
    both outputs.  Any other body yields, for the hazards, the comma-joined
    list that is strictly increasing in string order (hence sorted and free
    of repetition) and holds exactly the strings made of [H] and three
    digits that occur in the body; likewise for the precautions with [P].
    A body listing H302 H315 H319 P264 P270 twice yields "H302,H315,H319"
    and "P264,P270". *)
Theorem C6_regex_code_extractor :
  (forall text,
      occurs "No data found" text ->
      ghs_codes text = ("No data found", "No data found"))
  /\ (forall text,
      ~ occurs "No data found" text ->
      exists hazards precautions : list string,
        ghs_codes text = (join "," hazards, join "," precautions)
        /\ StronglySorted before hazards
        /\ (forall code, In code hazards <-> is_code "H" code /\ occurs code text)
        /\ StronglySorted before precautions
        /\ (forall code, In code precautions <-> is_code "P" code /\ occurs code text))
  /\ ghs_codes Samples.twice_listed = ("H302,H315,H319", "P264,P270").
Proof.
  split; [|split].
  - intros text H. unfold ghs_codes.
    apply contains_iff in H. unfold no_data_found. now rewrite H.
  - intros text H. unfold ghs_codes.
    destruct (contains no_data_found text) eqn:Hc.
    { exfalso. apply H. now apply contains_iff. }
    exists (sorted (set (findall "H" text))), (sorted (set (findall "P" text))).
    split; [reflexivity|].
    split; [apply sorted_set_sorted|].
    split; [intros code; rewrite sorted_set_In; now apply findall_iff|].
    split; [apply sorted_set_sorted|].
    intros code; rewrite sorted_set_In; now apply findall_iff.
  - reflexivity.
Qed.

Lemma C6_regex_code_extractor_witness :
  ghs_codes "<p>No data found</p>" = ("No data found", "No data found")
  /\ exists hazards precautions : list string,
       ghs_codes "H302 P264" = (join "," hazards, join "," precautions)
       /\ StronglySorted before hazards
       /\ (forall code, In code hazards <-> is_code "H" code /\ occurs code "H302 P264")
       /\ StronglySorted before precautions
       /\ (forall code, In code precautions <-> is_code "P" code /\ occurs code "H302 P264").
Proof.
  split.
  - apply (proj1 C6_regex_code_extractor "<p>No data found</p>").
    exists "<p>", "</p>". reflexivity.
  - apply (proj1 (proj2 C6_regex_code_extractor) "H302 P264").
    intros H. apply contains_iff in H. vm_compute in H. discriminate.
Defined.

End CodeFacts.

(** ** [asyncio.gather] returns results by position *)

Module GatherFacts.
Import Asyncio.
Local Open Scope nat_scope.

Lemma flat_map_ext_in {A B} (f g : A -> list B) (l : list A) :
  (forall a, In a l -> f a = g a) -> flat_map f l = flat_map g l.
Proof.
  induction l as [|x l IH]; intros H; simpl; [reflexivity|].
  rewrite (H x) by now left. f_equal. apply IH. intros a Ha. apply H. now right.
Qed.

Lemma flat_map_map {A B C} (f : B -> list C) (g : A -> B) (l : list A) :
  flat_map f (map g l) = flat_map (fun x => f (g x)) l.
Proof. induction l as [|x l IH]; simpl; [reflexivity | now rewrite IH]. Qed.

Lemma slot_finished {A} (tasks : list A) i (order : list nat) :
  slot i (flat_map (fun j => match nth_error tasks j with
                             | Some r => [(j, r)]
                             | None => []
                             end) order)
  = if existsb (Nat.eqb i) order
    then match nth_error tasks i with Some r => [r] | None => [] end
    else [].
Proof.
  induction order as [|j order IH]; simpl; [reflexivity|].
  destruct (nth_error tasks j) as [r|] eqn:Hj; simpl.
  - destruct (Nat.eqb_spec i j) as [->|Hne]; simpl.
    + now rewrite Hj.
    + exact IH.
  - destruct (Nat.eqb_spec i j) as [->|Hne]; simpl.
    + rewrite IH, Hj. now destruct (existsb (Nat.eqb j) order).
    + exact IH.
Qed.

Lemma collect_positions {A} (l : list A) : forall pre : list A,
  flat_map (fun i => match nth_error (pre ++ l) i with Some r => [r] | None => [] end)
           (seq (List.length pre) (List.length l))
  = l.
Proof.
  induction l as [|x l IH]; intros pre; simpl; [reflexivity|].
  rewrite nth_error_app2 by lia. rewrite Nat.sub_diag. simpl. f_equal.
  specialize (IH (pre ++ [x])). rewrite <- app_assoc, length_app in IH. simpl in IH.
  now rewrite Nat.add_1_r in IH.
Qed.

(** Whatever the order in which the tasks finish, [gather] returns their
    results in the order of the tasks. *)
Lemma gather_in_order {A} (completion : list nat) (tasks : list A) :
  gather completion tasks = tasks.
Proof.
  unfold gather, finished.
  transitivity
    (flat_map (fun i => match nth_error tasks i with Some r => [r] | None => [] end)
              (seq 0 (List.length tasks)));
    [|exact (collect_positions tasks [])].
  apply flat_map_ext_in. intros i Hi. apply in_seq in Hi.
  rewrite slot_finished, existsb_app.
  replace (existsb (Nat.eqb i) (seq 0 (List.length tasks))) with true.
  - now rewrite orb_true_r.
  - symmetry. apply existsb_exists. exists i. split; [now apply in_seq | apply Nat.eqb_refl].
Qed.

End GatherFacts.

(** ** The batch loop of the second program *)

Module BatchFacts.
Import Py Http pubchem_hazard_scraper GatherFacts.
Local Open Scope nat_scope.

Lemma enumerate_cons {A} a (x : A) xs : enumerate a (x :: xs) = (a, x) :: enumerate (S a) xs.
Proof. reflexivity. Qed.

Lemma enumerate_app {A} (xs ys : list A) : forall a,
  enumerate a (xs ++ ys) = enumerate a xs ++ enumerate (a + List.length xs) ys.
Proof.
  induction xs as [|x xs IH]; intros a; simpl.
  - now rewrite Nat.add_0_r.
  - rewrite !enumerate_cons, IH. simpl. now rewrite Nat.add_succ_r.
Qed.

Lemma enumerate_fst {A} (xs : list A) : forall a,
  map fst (enumerate a xs) = seq a (List.length xs).
Proof.
  induction xs as [|x xs IH]; intros a; [reflexivity|].
  rewrite enumerate_cons. simpl. now rewrite IH.
Qed.

Lemma enumerate_length {A} (xs : list A) a : List.length (enumerate a xs) = List.length xs.
Proof.
  unfold enumerate. rewrite length_combine, length_seq. apply Nat.min_id.
Qed.

Section WithTasks.

Variable format : json -> string.
Variable exn_message : exn -> string.
Variable nets : nat -> nat -> outcome.
Variable completion : nat -> list nat.
Variable batch_size : Z.
Variable pause : Q.

Local Abbreviation run := (run_task format exn_message nets).
Local Abbreviation turn :=
  (fun st task => main_turn format exn_message nets completion batch_size pause task st).
Local Abbreviation await := (await_batch format exn_message nets completion).

(** Every branch of [process_row] returns the index it was given. *)
Lemma run_task_index i c : fst (fst (run (i, c))) = i.
Proof.
  unfold run_task, process_row. simpl.
  destruct (blank c); [reflexivity|].
  destruct (cas_to_cid _ _ _ _ _ _) as [cid w2].
  destruct (truthy cid); [|reflexivity].
  destruct (get_ghs_classification _ _ _ _ _ _) as [[h p] w3]. reflexivity.
Qed.

Lemma await_results st :
  results (await st) = results st ++ map run (tasks st).
Proof. unfold await_batch. simpl. now rewrite gather_in_order. Qed.

(** The loop never loses or reorders a result: what is awaited so far,
    followed by what is pending, is the list of tasks met so far. *)
Lemma loop_results l : forall st,
  let st' := fold_left turn l st in
  results st' ++ map run (tasks st')
  = results st ++ map run (tasks st) ++ map run l.
Proof.
  induction l as [|task l IH]; intros st; simpl.
  - now rewrite app_nil_r.
  - rewrite IH. unfold main_turn. simpl.
    destruct (Z.of_nat (List.length (tasks st ++ [task])) >=? batch_size)%Z; simpl.
    + rewrite gather_in_order, map_app. simpl. now rewrite <- !app_assoc.
    + rewrite map_app. simpl. now rewrite <- !app_assoc.
Qed.

Lemma main_loop_results cells :
  results (main_loop format exn_message nets completion batch_size pause cells)
  = map run (enumerate 0 cells).
Proof.
  unfold main_loop.
  pose proof (loop_results (enumerate 0 cells)
                {| tasks := []; results := []; steps := [] |}) as H.
  simpl in H.
  destruct (tasks (fold_left turn (enumerate 0 cells) _)) as [|t ts] eqn:Ht.
  - simpl in H. now rewrite app_nil_r in H.
  - rewrite await_results, Ht. exact H.
Qed.

Lemma write_back_at pre : forall r rest hazards precautions,
  write_back (List.length pre) hazards precautions (pre ++ r :: rest)
  = pre ++ {| CAS := CAS r; Hazards := hazards; Precautions := precautions |} :: rest.
Proof.
  induction pre as [|x pre IH]; intros; simpl; [reflexivity|]. now rewrite IH.
Qed.

Local Abbreviation filled := (filled_row format exn_message nets).

Lemma write_back_all cells : forall pre,
  fold_left (fun df '(idx, hazards, precautions) => write_back idx hazards precautions df)
            (map run (enumerate (List.length pre) cells))
            (pre ++ map (fun c => {| CAS := c; Hazards := ""; Precautions := "" |}) cells)
  = pre ++ map filled (enumerate (List.length pre) cells).
Proof.
  induction cells as [|c cells IH]; intros pre; [reflexivity|].
  rewrite enumerate_cons. simpl.
  pose proof (run_task_index (List.length pre) c) as Hidx.
  unfold filled_row at 1. simpl.
  destruct (run (List.length pre, c)) as [[idx h] p] eqn:Hrun. simpl in Hidx. subst idx.
  rewrite write_back_at. simpl.
  specialize (IH (pre ++ [{| CAS := c; Hazards := h; Precautions := p |}])).
  rewrite length_app, Nat.add_1_r, <- !app_assoc in IH. simpl in IH.
  exact IH.
Qed.

(** The table [main] writes: row [i] holds what the task of row [i]
    returned, whatever the batch size and the order in which tasks finish. *)
Lemma main_table cells :
  fst (main format exn_message nets completion cells batch_size pause)
  = map filled (enumerate 0 cells).
Proof.
  unfold main. simpl. rewrite main_loop_results.
  exact (write_back_all cells []).
Qed.

(** Fewer tasks than a batch: the loop only accumulates them. *)
Lemma loop_partial l : forall st,
  (Z.of_nat (List.length (tasks st) + List.length l) < batch_size)%Z ->
  fold_left turn l st
  = {| tasks := tasks st ++ l; results := results st; steps := steps st |}.
Proof.
  induction l as [|task l IH]; intros st H; simpl.
  - rewrite app_nil_r. now destruct st.
  - unfold main_turn at 2. simpl. rewrite Z.geb_leb.
    destruct (Z.leb_spec batch_size (Z.of_nat (List.length (tasks st ++ [task])))) as [Hge|Hlt].
    + rewrite length_app in Hge. simpl in *. lia.
    + rewrite IH; simpl.
      * now rewrite <- app_assoc.
      * rewrite length_app. simpl in *. lia.
Qed.

(** The task that fills the batch: the batch is awaited, then the pause. *)
Lemma loop_full l x : forall st,
  Z.of_nat (List.length (tasks st) + List.length l + 1) = batch_size ->
  let st' := fold_left turn (l ++ [x]) st in
  tasks st' = []
  /\ steps st' = steps st ++ [Await (map fst (tasks st ++ l ++ [x])); Pause pause].
Proof.
  intros st H. simpl. rewrite fold_left_app, (loop_partial l st) by lia. simpl.
  unfold main_turn. simpl. rewrite Z.geb_leb.
  destruct (Z.leb_spec batch_size (Z.of_nat (List.length ((tasks st ++ l) ++ [x])))) as [Hge|Hlt].
  - simpl. split; [reflexivity|]. now rewrite <- !app_assoc.
  - rewrite !length_app in Hlt. simpl in Hlt. lia.
Qed.

(** [q] full batches in a row, starting with no pending task. *)
Lemma loop_batches (q : nat) : forall cells a st,
  (0 < batch_size)%Z ->
  tasks st = [] ->
  List.length cells = q * Z.to_nat batch_size ->
  let st' := fold_left turn (enumerate a cells) st in
  tasks st' = []
  /\ steps st'
     = steps st
       ++ flat_map (fun k => [Await (seq (a + k * Z.to_nat batch_size) (Z.to_nat batch_size));
                              Pause pause])
                   (seq 0 q).
Proof.
  induction q as [|q IH]; intros cells a st Hb Ht Hlen; simpl.
  - destruct cells; [|discriminate]. simpl. now rewrite app_nil_r.
  - set (bn := Z.to_nat batch_size) in *.
    assert (Hbn : 0 < bn) by (unfold bn; lia).
    rewrite <- (firstn_skipn bn cells).
    assert (H1 : List.length (firstn bn cells) = bn) by (rewrite length_firstn; simpl in Hlen; lia).
    assert (H2 : List.length (skipn bn cells) = q * bn) by (rewrite length_skipn; simpl in Hlen; lia).
    destruct (exists_last (l := firstn bn cells)) as (l & x & Hlast).
    { intros Hnil. rewrite Hnil in H1. simpl in H1. lia. }
    rewrite enumerate_app, fold_left_app, H1.
    rewrite Hlast in H1 |- *. rewrite length_app in H1. simpl in H1.
    rewrite enumerate_app.
    change (enumerate (a + List.length l) [x]) with [(a + List.length l, x)].
    destruct (loop_full (enumerate a l) (a + List.length l, x) st) as (Ht1 & Hs1).
    { rewrite Ht, enumerate_length. simpl. unfold bn in *. lia. }
    simpl in Ht1, Hs1.
    destruct (IH (skipn bn cells) (a + bn)
                (fold_left turn (enumerate a l ++ [(a + List.length l, x)]) st)
                Hb Ht1 H2) as (Ht2 & Hs2).
    simpl in Ht2, Hs2. split; [exact Ht2|].
    rewrite Hs2, Hs1, Ht. simpl. rewrite <- !app_assoc. simpl.
    rewrite map_app, enumerate_fst. simpl.
    replace (seq a (List.length l) ++ [a + List.length l]) with (seq a bn)
      by (replace bn with (List.length l + 1) by lia; now rewrite seq_app).
    rewrite Nat.add_0_r. do 3 f_equal.
    rewrite <- seq_shift, flat_map_map.
    apply flat_map_ext. intros k. do 3 f_equal. lia.
Qed.

(** A batch size below 1 behaves as batch size 1: every row is awaited on
    its own. *)
Lemma main_batch_size_below_one cells :
  (batch_size <= 1)%Z ->
  main format exn_message nets completion cells batch_size pause
  = main format exn_message nets completion cells 1 pause.
Proof.
  intros Hb. unfold main, main_loop.
  assert (Hturn : forall l st,
    fold_left turn l st
    = fold_left (fun st task =>
                   main_turn format exn_message nets completion 1 pause task st) l st).
  { induction l as [|task l IH]; intros st; simpl; [reflexivity|].
    rewrite IH. f_equal. unfold main_turn. simpl. rewrite !Z.geb_leb.
    rewrite length_app. simpl.
    destruct (Z.leb_spec batch_size (Z.of_nat (List.length (tasks st) + 1))); [|lia].
    destruct (Z.leb_spec 1 (Z.of_nat (List.length (tasks st) + 1))); [reflexivity | lia]. }
  now rewrite Hturn.
Qed.

End WithTasks.

End BatchFacts.

(** ** The orchestrators: claims C7, C8 and C10 *)

Module OrchestratorClaims.
Import Py Http Samples pubchem_hazard_scraper BatchFacts.
Local Open Scope nat_scope.

Lemma enumerate_nth {A} (xs : list A) : forall a i x,
  nth_error xs i = Some x -> nth_error (enumerate a xs) i = Some (a + i, x).
Proof.
  induction xs as [|y xs IH]; intros a [|i] x H; simpl in H; try discriminate.
  - injection H as ->. rewrite enumerate_cons. simpl. now rewrite Nat.add_0_r.
  - rewrite enumerate_cons. simpl. rewrite (IH (S a) i x H). f_equal. f_equal. lia.
Qed.

(** C7: with a positive batch size [b] and [q * b + r] rows, [r < b], the
    orchestrator awaits [q] batches of exactly [b] consecutive rows, each
    followed by the pause, and then, when [r] is not zero, one last batch of
    the remaining [r] rows with no pause after it. *)
Theorem C7_batches_and_pauses :
  forall format exn_message nets completion cells batch_size pause (q r : nat),
    (0 < batch_size)%Z ->
    List.length cells = q * Z.to_nat batch_size + r ->
    r < Z.to_nat batch_size ->
    snd (main format exn_message nets completion cells batch_size pause)
    = flat_map (fun k => [Await (seq (k * Z.to_nat batch_size) (Z.to_nat batch_size));
                          Pause pause])
               (seq 0 q)
      ++ (if r =? 0 then [] else [Await (seq (q * Z.to_nat batch_size) r)]).
Proof.
  intros format exn_message nets completion cells batch_size pause q r Hb Hlen Hr.
  unfold main, main_loop. simpl.
  set (bn := Z.to_nat batch_size) in *.
  rewrite <- (firstn_skipn (q * bn) cells).
  assert (H1 : List.length (firstn (q * bn) cells) = q * bn) by (rewrite length_firstn; lia).
  assert (H2 : List.length (skipn (q * bn) cells) = r) by (rewrite length_skipn; lia).
  rewrite enumerate_app, fold_left_app, H1. simpl.
  destruct (loop_batches format exn_message nets completion batch_size pause
              q (firstn (q * bn) cells) 0
              {| tasks := []; results := []; steps := [] |} Hb eq_refl H1) as (Ht & Hs).
  simpl in Ht, Hs. fold bn in Hs.
  rewrite loop_partial by (rewrite Ht, enumerate_length, H2; unfold bn in *; simpl; lia).
  simpl. rewrite Ht, Hs. simpl.
  destruct (skipn (q * bn) cells) as [|c cs] eqn:Hskip; simpl in H2; subst r.
  - simpl. now rewrite app_nil_r.
  - rewrite enumerate_cons. simpl. rewrite enumerate_fst. reflexivity.
Qed.

(** Seven rows with batch size 5: two batches, of sizes 5 and 2, and one
    pause between them. *)
Lemma C7_batches_and_pauses_witness :
  snd (main plain_format plain_message (fun _ => overloaded) (fun _ => [])
         seven_rows 5 2)
  = [Await [0; 1; 2; 3; 4]; Pause 2; Await [5; 6]].
Proof.
  apply (C7_batches_and_pauses plain_format plain_message (fun _ => overloaded)
           (fun _ => []) seven_rows 5%Z 2%Q 1 2);
    [lia | reflexivity | simpl; lia].
Defined.

(** C8: the orchestrators keep the input order.  In the first program the
    result at position [i] is the record of identifier [i]; in the second
    the row at position [i] of the table written out holds what the task of
    row [i] returned.  Both hold for every order in which the concurrent
    tasks finish. *)
Theorem C8_results_in_input_order :
  (forall (record : Type) (process_cas_number : (nat -> outcome) -> string -> record)
          nets completion cas_numbers i cas,
      nth_error cas_numbers i = Some cas ->
      nth_error (get_toxinfo_by_cas6.get_tox_data_for_cas_numbers
                   record process_cas_number nets completion cas_numbers) i
      = Some (process_cas_number (nets i) cas))
  /\ (forall (record : Type) (process_cas_number : (nat -> outcome) -> string -> record)
             nets completion cas_numbers,
      List.length (get_toxinfo_by_cas6.get_tox_data_for_cas_numbers
                     record process_cas_number nets completion cas_numbers)
      = List.length cas_numbers)
  /\ (forall format exn_message nets completion cells batch_size pause i cas,
      nth_error cells i = Some cas ->
      nth_error (fst (main format exn_message nets completion cells batch_size pause)) i
      = Some (filled_row format exn_message nets (i, cas)))
  /\ (forall format exn_message nets completion cells batch_size pause,
      List.length (fst (main format exn_message nets completion cells batch_size pause))
      = List.length cells).
Proof.
  split; [|split; [|split]].
  - intros record process nets completion cas_numbers i cas H.
    unfold get_toxinfo_by_cas6.get_tox_data_for_cas_numbers.
    rewrite GatherFacts.gather_in_order.
    now rewrite nth_error_map, (enumerate_nth cas_numbers 0 i cas H).
  - intros record process nets completion cas_numbers.
    unfold get_toxinfo_by_cas6.get_tox_data_for_cas_numbers.
    now rewrite GatherFacts.gather_in_order, length_map, enumerate_length.
  - intros format exn_message nets completion cells batch_size pause i cas H.
    rewrite main_table.
    now rewrite nth_error_map, (enumerate_nth cells 0 i cas H).
  - intros. now rewrite main_table, length_map, enumerate_length.
Qed.

Lemma C8_results_in_input_order_witness :
  nth_error (get_toxinfo_by_cas6.get_tox_data_for_cas_numbers
               string (fun _ cas => cas) (fun _ => overloaded) [2; 0; 1]
               ["50-78-2"; "64-17-5"; "67-64-1"]%string) 1
  = Some "64-17-5"%string
  /\ nth_error (fst (main plain_format plain_message (fun _ => overloaded) (fun _ => [4; 3])
                       seven_rows 5 2)) 2
     = Some (filled_row plain_format plain_message (fun _ => overloaded) (2, Str "")).
Proof.
  split.
  - apply (proj1 C8_results_in_input_order string (fun _ cas => cas) (fun _ => overloaded)
             [2; 0; 1] ["50-78-2"; "64-17-5"; "67-64-1"]%string 1 "64-17-5"%string).
    reflexivity.
  - apply (proj1 (proj2 (proj2 C8_results_in_input_order))
             plain_format plain_message (fun _ => overloaded) (fun _ => [4; 3])
             seven_rows 5%Z 2%Q 2 (Str "")).
    reflexivity.
Defined.

(** C10: for a row whose [CAS] cell is missing or empty, [process_row]
    returns empty strings for hazards and precautions and leaves the world
    as it was: no request, no sleep, no line printed.  Such a row is
    written out with empty [Hazards] and [Precautions]. *)
Theorem C10_blank_cas_row :
  (forall format exn_message net idx cas w,
      cas = Missing \/ cas = Str "" ->
      process_row format exn_message net idx cas w = ((idx, ""%string, ""%string), w))
  /\ (forall format exn_message nets completion cells batch_size pause i cas,
      nth_error cells i = Some cas ->
      cas = Missing \/ cas = Str "" ->
      nth_error (fst (main format exn_message nets completion cells batch_size pause)) i
      = Some {| CAS := cas; Hazards := ""; Precautions := "" |}).
Proof.
  split.
  - intros format exn_message net idx cas w [-> | ->]; reflexivity.
  - intros format exn_message nets completion cells batch_size pause i cas H Hblank.
    rewrite main_table, nth_error_map, (enumerate_nth cells 0 i cas H).
    simpl. destruct Hblank as [-> | ->]; reflexivity.
Qed.

Lemma C10_blank_cas_row_witness :
  process_row plain_format plain_message overloaded 2 Missing start
  = ((2, ""%string, ""%string), start)
  /\ nth_error (fst (main plain_format plain_message (fun _ => overloaded) (fun _ => [])
                       seven_rows 5 2)) 2
     = Some {| CAS := Str ""; Hazards := ""; Precautions := "" |}.
Proof.
  split.
  - apply (proj1 C10_blank_cas_row). left. reflexivity.
  - apply (proj2 C10_blank_cas_row plain_format plain_message (fun _ => overloaded)
             (fun _ => []) seven_rows 5%Z 2%Q 2 (Str "")).
    + reflexivity.
    + right. reflexivity.
Defined.

End OrchestratorClaims.

(** ** The keyword-section extractor *)

Module ExtractorFacts.
Import Py get_toxinfo_by_cas6 Spec.
Local Open Scope py_scope.
Local Open Scope nat_scope.
Local Open Scope list_scope.

(** *** The dictionary *)

Lemma lookup_dict_set_same {V} h (v : V) d : lookup h (dict_set h v d) = Some v.
Proof.
  induction d as [|[k w] d IH]; simpl.
  - now rewrite String.eqb_refl.
  - destruct (String.eqb h k) eqn:E; simpl; rewrite E; [reflexivity | exact IH].
Qed.

Lemma lookup_dict_set_other {V} h k (v : V) d :
  h <> k -> lookup h (dict_set k v d) = lookup h d.
Proof.
  intros Hne. induction d as [|[k' w] d IH]; simpl.
  - destruct (String.eqb_spec h k); [contradiction | reflexivity].
  - destruct (String.eqb_spec k k') as [<-|Hk]; simpl.
    + destruct (String.eqb_spec h k); [contradiction | reflexivity].
    + destruct (String.eqb_spec h k'); [reflexivity | exact IH].
Qed.

Lemma dict_set_twice {V} h (v1 v2 : V) d :
  dict_set h v2 (dict_set h v1 d) = dict_set h v2 d.
Proof.
  induction d as [|[k w] d IH]; simpl.
  - now rewrite String.eqb_refl.
  - destruct (String.eqb h k) eqn:E; simpl; rewrite E; [reflexivity | now rewrite IH].
Qed.

Lemma dict_set_same {V} h (v : V) d : lookup h d = Some v -> dict_set h v d = d.
Proof.
  induction d as [|[k w] d IH]; simpl; [discriminate|].
  destruct (String.eqb h k) eqn:E.
  - intros H. injection H as ->. reflexivity.
  - intros H. now rewrite IH.
Qed.

(** *** A section's own strings *)

Lemma collect_info_strings h info d old :
  lookup h d = Some old ->
  collect_info h info d
  = (strings <- info_strings info ;; Ok (dict_set h (old ++ strings) d)).
Proof.
  intros Hold. unfold collect_info, info_strings.
  destruct (py_in "Value" info) as [[|]|e]; simpl;
    [| now rewrite app_nil_r, dict_set_same | reflexivity].
  destruct (getitem info "Value") as [value|e]; simpl; [|reflexivity].
  destruct (py_in "StringWithMarkup" value) as [[|]|e]; simpl;
    [| now rewrite app_nil_r, dict_set_same | reflexivity].
  destruct (getitem value "StringWithMarkup") as [markup|e]; simpl; [|reflexivity].
  destruct (iter markup) as [items|e]; simpl; [|reflexivity].
  destruct (comprehension _ items) as [strings|e]; simpl; [|reflexivity].
  unfold dict_extend. now rewrite Hold.
Qed.

Lemma for_each_collect_info h infos : forall d old,
  lookup h d = Some old ->
  for_each (collect_info h) infos d
  = (own <- gather_all info_strings infos ;; Ok (dict_set h (old ++ own) d)).
Proof.
  induction infos as [|info infos IH]; intros d old Hold; simpl.
  - now rewrite app_nil_r, dict_set_same.
  - rewrite (collect_info_strings h info d old Hold).
    destruct (info_strings info) as [strings|e]; simpl; [|reflexivity].
    rewrite (IH _ (old ++ strings)) by apply lookup_dict_set_same.
    destruct (gather_all info_strings infos) as [more|e]; simpl; [|reflexivity].
    now rewrite dict_set_twice, app_assoc.
Qed.

(** After [tox_data[heading] = []] the loop over [Information] leaves
    exactly the section's own strings under [heading]. *)
Lemma collect_information_own h section d :
  collect_information h section (dict_set h [] d)
  = (own <- own_strings section ;; Ok (dict_set h own d)).
Proof.
  unfold collect_information, own_strings.
  destruct (py_in "Information" section) as [[|]|e]; simpl;
    [| reflexivity | reflexivity].
  destruct (getitem section "Information") as [information|e]; simpl; [|reflexivity].
  destruct (iter information) as [infos|e]; simpl; [|reflexivity].
  rewrite (for_each_collect_info h infos _ []) by apply lookup_dict_set_same.
  destruct (gather_all info_strings infos) as [own|e]; simpl; [|reflexivity].
  now rewrite dict_set_twice.
Qed.

(** *** The traversal and the dictionary it leaves *)

Lemma store_app log1 log2 d : store (log1 ++ log2) d = store log2 (store log1 d).
Proof. unfold store. apply fold_left_app. Qed.

Lemma for_each_store (f : nat) items :
  (forall section d,
      process_section f section d
      = (log <- encountered f section ;; Ok (store log d))) ->
  forall d,
    for_each (process_section f) items d
    = (log <- gather_all (encountered f) items ;; Ok (store log d)).
Proof.
  intros Hf. induction items as [|section items IH]; intros d; simpl; [reflexivity|].
  rewrite Hf. destruct (encountered f section) as [log|e]; simpl; [|reflexivity].
  rewrite IH. destruct (gather_all (encountered f) items) as [more|e]; simpl; [|reflexivity].
  now rewrite store_app.
Qed.

(** [process_section] stores, one after the other, the entries of the
    sections it enters. *)
Lemma process_section_store (f : nat) : forall section d,
  process_section f section d
  = (log <- encountered f section ;; Ok (store log d)).
Proof.
  induction f as [|f IH]; intros section d; simpl; [reflexivity|].
  destruct (tox_heading section) as [[h|]|e]; simpl; [| reflexivity | reflexivity].
  rewrite collect_information_own.
  destruct (own_strings section) as [own|e]; simpl; [|reflexivity].
  destruct (py_in "Section" section) as [[|]|e]; simpl; [| reflexivity | reflexivity].
  destruct (getitem section "Section") as [subsections|e]; simpl; [|reflexivity].
  destruct (iter subsections) as [items|e]; simpl; [|reflexivity].
  rewrite (for_each_store f items IH).
  now destruct (gather_all (encountered f) items) as [below|e].
Qed.

Lemma extract_tox_data_store (f : nat) data :
  extract_tox_data f data
  = (log <- encountered_in f data ;; Ok (store log [])).
Proof.
  unfold extract_tox_data, encountered_in.
  destruct (py_in "Record" data) as [[|]|e]; simpl; [| reflexivity | reflexivity].
  destruct (getitem data "Record") as [record|e]; simpl; [|reflexivity].
  destruct (py_in "Section" record) as [[|]|e]; simpl; [| reflexivity | reflexivity].
  destruct (getitem record "Section") as [sections|e]; simpl; [|reflexivity].
  destruct (iter sections) as [items|e]; simpl; [|reflexivity].
  apply for_each_store. apply process_section_store.
Qed.

(** What a heading maps to once a log is stored: the last entry under it. *)
Lemma lookup_store h log : forall d,
  lookup h (store log d)
  = match last_under h log with
    | Some strings => Some strings
    | None => lookup h d
    end.
Proof.
  unfold last_under. induction log as [|[k v] log IH] using rev_ind; intros d.
  - reflexivity.
  - rewrite store_app, rev_app_distr. simpl.
    destruct (String.eqb_spec h k) as [->|Hne].
    + apply lookup_dict_set_same.
    + rewrite lookup_dict_set_other by assumption. apply IH.
Qed.

Lemma lookup_app {V} h (l1 l2 : list (string * V)) :
  lookup h (l1 ++ l2)
  = match lookup h l1 with
    | Some v => Some v
    | None => lookup h l2
    end.
Proof.
  induction l1 as [|[k v] l1 IH]; simpl; [reflexivity|].
  now destruct (String.eqb h k).
Qed.

Lemma lookup_In {V} h (l : list (string * V)) :
  lookup h l <> None <-> exists v, In (h, v) l.
Proof.
  induction l as [|[k w] l IH]; simpl.
  - split; [congruence | intros (v & [])].
  - destruct (String.eqb_spec h k) as [->|Hne].
    + split; [intros _; exists w; now left | congruence].
    + rewrite IH. split; intros (v & H); exists v.
      * now right.
      * destruct H as [H|H]; [congruence | assumption].
Qed.

Lemma last_under_In h log : last_under h log <> None <-> exists v, In (h, v) log.
Proof.
  unfold last_under. rewrite lookup_In.
  split; intros (v & H); exists v; [now apply in_rev | now apply in_rev in H].
Qed.

(** Of two entries under one heading, with none under it afterwards, the
    later one is the last. *)
Lemma last_under_later h log1 first log2 last log3 :
  last_under h log3 = None ->
  last_under h (log1 ++ (h, first) :: log2 ++ (h, last) :: log3) = Some last.
Proof.
  unfold last_under. intros H.
  rewrite rev_app_distr. simpl. rewrite rev_app_distr. simpl.
  rewrite <- !app_assoc. rewrite lookup_app, H. simpl.
  now rewrite String.eqb_refl.
Qed.

(** *** Strings of an item *)

Lemma info_strings_json strings : info_strings (info_json strings) = Ok (map JStr strings).
Proof.
  unfold info_strings, info_json. simpl.
  induction strings as [|s strings IH]; simpl; [reflexivity|]. now rewrite IH.
Qed.

(** *** Sections of any document *)

Lemma encountered_step (f : nat) section :
  encountered (S f) section
  = (matched <- tox_heading section ;;
     match matched with
     | Some heading =>
         own <- own_strings section ;;
         items <- subsections section ;;
         below <- gather_all (encountered f) items ;;
         Ok ((heading, own) :: below)
     | None => Ok []
     end).
Proof.
  cbn [encountered].
  destruct (tox_heading section) as [[h|]|e]; simpl; [| reflexivity | reflexivity].
  destruct (own_strings section) as [own|e]; simpl; [|reflexivity].
  unfold subsections.
  destruct (py_in "Section" section) as [[|]|e]; simpl; [| reflexivity | reflexivity].
  destruct (getitem section "Section") as [s|e]; simpl; [|reflexivity].
  now destruct (iter s).
Qed.

Lemma encountered_in_tops (f : nat) data :
  encountered_in f data
  = (tops <- top_sections data ;; gather_all (encountered f) tops).
Proof.
  unfold encountered_in, top_sections.
  destruct (py_in "Record" data) as [[|]|e]; simpl; [| reflexivity | reflexivity].
  destruct (getitem data "Record") as [record|e]; simpl; [|reflexivity].
  destruct (py_in "Section" record) as [[|]|e]; simpl; [| reflexivity | reflexivity].
  destruct (getitem record "Section") as [sections|e]; simpl; [|reflexivity].
  now destruct (iter sections).
Qed.

Lemma gather_all_each {A B} (g : A -> result (list B)) xs : forall all,
  gather_all g xs = Ok all ->
  forall x, In x xs -> exists ys, g x = Ok ys /\ incl ys all.
Proof.
  induction xs as [|x0 xs IH]; intros all H x Hin; [contradiction|].
  simpl in H. destruct (g x0) as [ys0|e] eqn:E0; simpl in H; [|discriminate].
  destruct (gather_all g xs) as [more|e]; simpl in H; [|discriminate].
  injection H as <-. destruct Hin as [<- | Hin].
  - exists ys0. split; [assumption | now apply incl_appl].
  - destruct (IH more eq_refl x Hin) as (ys & Hys & Hincl).
    exists ys. split; [assumption | now apply incl_appr].
Qed.

Lemma gather_all_from {A B} (g : A -> result (list B)) xs : forall all,
  gather_all g xs = Ok all ->
  forall y, In y all -> exists x ys, In x xs /\ g x = Ok ys /\ In y ys.
Proof.
  induction xs as [|x0 xs IH]; intros all H y Hin; simpl in H.
  - injection H as <-. contradiction.
  - destruct (g x0) as [ys0|e] eqn:E0; simpl in H; [|discriminate].
    destruct (gather_all g xs) as [more|e]; simpl in H; [|discriminate].
    injection H as <-. apply in_app_or in Hin as [Hin | Hin].
    + exists x0, ys0. split; [now left | now split].
    + destruct (IH more eq_refl y Hin) as (x & ys & Hx & Hys & Hy).
      exists x, ys. split; [now right | now split].
Qed.

(** Every entry of the traversal is the heading and the own strings of a
    section reached through matching sections only. *)
Lemma encountered_reached (f : nat) : forall section log,
  encountered f section = Ok log ->
  forall h own,
    In (h, own) log ->
    exists d, reached section d /\ tox_heading d = Ok (Some h) /\ own_strings d = Ok own.
Proof.
  induction f as [|f IH]; intros section log H h own Hin; [discriminate|].
  rewrite encountered_step in H.
  destruct (tox_heading section) as [[h0|]|e] eqn:Hh; simpl in H; [| | discriminate].
  - destruct (own_strings section) as [own0|e] eqn:Hown; simpl in H; [|discriminate].
    destruct (subsections section) as [items|e] eqn:Hsub; simpl in H; [|discriminate].
    destruct (gather_all (encountered f) items) as [below|e] eqn:Hbelow; simpl in H;
      [|discriminate].
    injection H as <-. destruct Hin as [Hin | Hin].
    + injection Hin as <- <-. exists section. split; [constructor | now split].
    + destruct (gather_all_from _ _ _ Hbelow _ Hin) as (c & logc & Hc & Hlogc & Hinc).
      destruct (IH c logc Hlogc h own Hinc) as (d & Hd & Hhd & Hownd).
      exists d. split; [|now split].
      now apply (reached_child section h0 items c d).
  - injection H as <-. contradiction.
Qed.

(** Every matching section reached through matching sections only has its
    entry in the traversal. *)
Lemma reached_encountered section d :
  reached section d ->
  forall (f : nat) log h,
    encountered f section = Ok log ->
    tox_heading d = Ok (Some h) ->
    exists own, own_strings d = Ok own /\ In (h, own) log.
Proof.
  induction 1 as [section | section h0 items c d Hh Hsub Hc Hr IH]; intros f log h H Hd.
  - destruct f as [|f]; [discriminate|]. rewrite encountered_step, Hd in H. simpl in H.
    destruct (own_strings section) as [own|e]; simpl in H; [|discriminate].
    destruct (subsections section) as [items|e]; simpl in H; [|discriminate].
    destruct (gather_all (encountered f) items) as [below|e]; simpl in H; [|discriminate].
    injection H as <-. exists own. split; [reflexivity | now left].
  - destruct f as [|f]; [discriminate|]. rewrite encountered_step, Hh in H. simpl in H.
    destruct (own_strings section) as [own0|e]; simpl in H; [|discriminate].
    rewrite Hsub in H. simpl in H.
    destruct (gather_all (encountered f) items) as [below|e] eqn:Hbelow; simpl in H;
      [|discriminate].
    injection H as <-.
    destruct (gather_all_each _ _ _ Hbelow c Hc) as (logc & Hlogc & Hincl).
    destruct (IH f logc h Hlogc Hd) as (own & Hown & Hin).
    exists own. split; [assumption|]. right. now apply Hincl.
Qed.

(** The headings of the result are those of the matching sections reached
    through matching sections only. *)
Lemma extract_tox_data_reached (f : nat) data tox_data :
  extract_tox_data f data = Ok tox_data ->
  exists tops log,
    top_sections data = Ok tops
    /\ encountered_in f data = Ok log
    /\ tox_data = store log []
    /\ (forall h own,
           In (h, own) log ->
           exists top d,
             In top tops /\ reached top d
             /\ tox_heading d = Ok (Some h) /\ own_strings d = Ok own)
    /\ (forall top d h,
           In top tops -> reached top d -> tox_heading d = Ok (Some h) ->
           exists own, In (h, own) log).
Proof.
  intros H. rewrite extract_tox_data_store in H.
  destruct (encountered_in f data) as [log|e] eqn:Hlog; simpl in H; [|discriminate].
  injection H as <-. rewrite encountered_in_tops in Hlog.
  destruct (top_sections data) as [tops|e]; simpl in Hlog; [|discriminate].
  exists tops, log. split; [reflexivity|]. split; [reflexivity|]. split; [reflexivity|].
  split.
  - intros h own Hin.
    destruct (gather_all_from _ _ _ Hlog _ Hin) as (top & logt & Htop & Hlogt & Hint).
    destruct (encountered_reached f top logt Hlogt h own Hint) as (d & Hd & Hhd & Hown).
    now exists top, d.
  - intros top d h Htop Hd Hhd.
    destruct (gather_all_each _ _ _ Hlog top Htop) as (logt & Hlogt & Hincl).
    destruct (reached_encountered top d Hd f logt h Hlogt Hhd) as (own & _ & Hin).
    exists own. now apply Hincl.
Qed.

(** *** Documents with keys left out *)

Lemma tox_heading_sparse t : tox_heading (sparse_json t) = Ok (sparse_match t).
Proof.
  destruct t as [[h|] [infos|] [sections|]]; unfold tox_heading, sparse_match; simpl;
    try reflexivity; now destruct (is_tox h).
Qed.

Lemma gather_all_items infos :
  gather_all info_strings (map item_json infos)
  = Ok (map JStr (flat_map item_strings infos)).
Proof.
  induction infos as [|i infos IH]; simpl; [reflexivity|].
  rewrite IH. destruct i as [| |strings]; simpl; try reflexivity.
  rewrite info_strings_json. simpl. now rewrite map_app.
Qed.

Lemma own_strings_sparse t : own_strings (sparse_json t) = Ok (sparse_leaves t).
Proof.
  destruct t as [[h|] [infos|] [sections|]]; unfold own_strings; simpl;
    try reflexivity; apply gather_all_items.
Qed.

Lemma subsections_sparse t :
  subsections (sparse_json t) = Ok (map sparse_json (sparse_children t)).
Proof.
  now destruct t as [[h|] [infos|] [sections|]].
Qed.

Lemma sparse_preorder_step t :
  sparse_preorder t
  = match sparse_match t with
    | Some h => (h, sparse_leaves t) :: flat_map sparse_preorder (sparse_children t)
    | None => []
    end.
Proof.
  destruct t as [[h|] [infos|] [sections|]]; unfold sparse_match; simpl;
    try reflexivity; now destruct (is_tox h).
Qed.

Lemma sparse_height_child t c :
  In c (sparse_children t) -> sparse_height c < sparse_height t.
Proof.
  destruct t as [h infos [sections|]]; simpl; [|contradiction].
  induction sections as [|x sections IH]; simpl; [contradiction|].
  intros [-> | H]; [lia|]. specialize (IH H). lia.
Qed.

Lemma gather_all_sparse (f : nat) sections :
  (forall c, In c sections ->
             encountered f (sparse_json c) = Ok (sparse_preorder c)) ->
  gather_all (encountered f) (map sparse_json sections)
  = Ok (flat_map sparse_preorder sections).
Proof.
  induction sections as [|c sections IH]; intros H; simpl; [reflexivity|].
  rewrite (H c) by now left. simpl.
  rewrite IH by (intros c' Hc'; apply H; now right). reflexivity.
Qed.

(** On a section whose keys may be absent, and with frames to spare, the
    traversal is the depth-first listing [sparse_preorder]. *)
Lemma encountered_sparse (f : nat) : forall t,
  sparse_height t <= f -> encountered f (sparse_json t) = Ok (sparse_preorder t).
Proof.
  induction f as [|f IH]; intros t Hh.
  - destruct t. simpl in Hh. lia.
  - rewrite encountered_step, tox_heading_sparse, sparse_preorder_step. simpl.
    destruct (sparse_match t) as [h|]; [|reflexivity].
    rewrite own_strings_sparse, subsections_sparse. simpl.
    rewrite gather_all_sparse; [reflexivity|].
    intros c Hc. apply IH. pose proof (sparse_height_child t c Hc). lia.
Qed.

Lemma encountered_in_sparse_document (f : nat) sections :
  (forall t, In t sections -> sparse_height t <= f) ->
  encountered_in f (sparse_document sections) = Ok (flat_map sparse_preorder sections).
Proof.
  intros H. unfold encountered_in, sparse_document. simpl.
  apply gather_all_sparse. intros c Hc. apply encountered_sparse. now apply H.
Qed.



End ExtractorFacts.

(** ** The keyword-section extractor: claims C1 and C9 *)

Module ExtractorClaims.
Import Py get_toxinfo_by_cas6 Spec Samples ExtractorFacts.
Local Open Scope nat_scope.
Local Open Scope list_scope.




(** C9, as the claim states it, fails: the heading "Toxicity" is carried by
    two sections that both match, and the one last in the document lies
    under "Pharmacology", which matches no keyword.  The extractor never
    enters it, and the result holds the strings of the first section.  When
    both lie under such a section the result has no entry at all. *)
Lemma C9_counterexample_later_section_hidden :
  is_tox "Toxicity" = true
  /\ flat_map every_section later_hidden_sections
     = [("Toxicity"%string, [JStr "LD50 200 mg/kg (rat, oral)"]);
        ("Pharmacology"%string, []);
        ("Toxicity"%string, [JStr "LD50 1100 mg/kg (mouse, oral)"])]
  /\ extract_tox_data 10 later_hidden
     = Ok [("Toxicity"%string, [JStr "LD50 200 mg/kg (rat, oral)"])]
  /\ extract_tox_data 10
       (document [Node "Pharmacology" []
                    [Node "Toxicity" [["LD50 200 mg/kg (rat, oral)"%string]] [];
                     Node "Toxicity" [["LD50 1100 mg/kg (mouse, oral)"%string]] []]])
     = Ok [].
Proof. repeat split; reflexivity. Qed.

(** C9 (amended): whenever the extractor returns, each heading of the
    result maps to the own strings of the last section the traversal
    entered under that heading, a section being entered only when every
    section above it matched; so when two sections entered carry the same
    heading, the result holds the strings of the later one alone, and what
    a heading maps to is always the own strings of one section, never those
    of two.  On a document whose sections are dictionaries, any of whose
    keys may be absent, the extractor does return, the traversal is the
    depth-first listing of the matching sections reached through matching
    sections, and each heading maps to the strings of the last section
    listed under it.  With "Hazards Identification" met twice, the strings
    of the first (H302, H315) are gone and those of the second (H319)
    remain. *)
Theorem C9_last_section_wins :
  (forall frames data tox_data,
      extract_tox_data frames data = Ok tox_data ->
      exists tops log,
        top_sections data = Ok tops
        /\ encountered_in frames data = Ok log
        /\ (forall h, lookup h tox_data = last_under h log)
        /\ (forall log1 h first log2 last log3,
               log = log1 ++ (h, first) :: log2 ++ (h, last) :: log3 ->
               last_under h log3 = None ->
               lookup h tox_data = Some last)
        /\ (forall h strings,
               lookup h tox_data = Some strings ->
               exists top d,
                 In top tops /\ reached top d
                 /\ tox_heading d = Ok (Some h) /\ own_strings d = Ok strings))
  /\ (forall frames sections,
      (forall t, In t sections -> sparse_height t <= frames) ->
      encountered_in frames (sparse_document sections)
      = Ok (flat_map sparse_preorder sections)
      /\ exists tox_data,
           extract_tox_data frames (sparse_document sections) = Ok tox_data
           /\ forall h,
               lookup h tox_data = last_under h (flat_map sparse_preorder sections))
  /\ extract_tox_data 10 repeated_heading
     = Ok [("Safety and Hazards"%string, [JStr "Irritant"]);
           ("Hazards Identification"%string, [JStr "H319"])].
Proof.
  split; [|split].
  - intros frames data tox_data H.
    destruct (extract_tox_data_reached frames data tox_data H)
      as (tops & log & Htops & Hlog & -> & Hfrom & _).
    exists tops, log. split; [assumption|]. split; [assumption|].
    assert (Hlast : forall h, lookup h (store log []) = last_under h log).
    { intros h. rewrite lookup_store. simpl. now destruct (last_under h log). }
    split; [exact Hlast|]. split.
    + intros log1 h first log2 last log3 -> Hnone.
      rewrite Hlast. now apply last_under_later.
    + intros h strings Hh. rewrite Hlast in Hh. apply Hfrom.
      unfold last_under in Hh. apply in_rev.
      clear - Hh. induction (rev log) as [|[k v] l IH]; simpl in Hh; [discriminate|].
      destruct (String.eqb_spec h k) as [->|Hne].
      * injection Hh as ->. now left.
      * right. now apply IH.
  - intros frames sections Hh.
    rewrite extract_tox_data_store, (encountered_in_sparse_document frames sections Hh).
    split; [reflexivity|]. simpl. eexists. split; [reflexivity|].
    intros h. rewrite lookup_store. simpl.
    now destruct (last_under h (flat_map sparse_preorder sections)).
  - reflexivity.
Qed.

Lemma C9_last_section_wins_witness :
  (exists tops log,
      top_sections repeated_heading = Ok tops
      /\ encountered_in 10 repeated_heading = Ok log
      /\ (forall h,
             lookup h [("Safety and Hazards"%string, [JStr "Irritant"]);
                       ("Hazards Identification"%string, [JStr "H319"])]
             = last_under h log)
      /\ (forall log1 h first log2 last log3,
             log = log1 ++ (h, first) :: log2 ++ (h, last) :: log3 ->
             last_under h log3 = None ->
             lookup h [("Safety and Hazards"%string, [JStr "Irritant"]);
                       ("Hazards Identification"%string, [JStr "H319"])]
             = Some last)
      /\ (forall h strings,
             lookup h [("Safety and Hazards"%string, [JStr "Irritant"]);
                       ("Hazards Identification"%string, [JStr "H319"])]
             = Some strings ->
             exists top d,
               In top tops /\ reached top d
               /\ tox_heading d = Ok (Some h) /\ own_strings d = Ok strings))
  /\ encountered_in 10 sparse_record
     = Ok [("Safety and Hazards"%string, []);
           ("Toxicity"%string, [JStr "LD50 200 mg/kg (rat, oral)"]);
           ("Toxicity"%string, [JStr "Irritant"])].
Proof.
  split.
  - apply (proj1 C9_last_section_wins 10 repeated_heading). reflexivity.
  - apply (proj1 (proj2 C9_last_section_wins) 10 sparse_sections).
    intros t [<- | [<- | [<- | []]]]; simpl; lia.
Defined.

End ExtractorClaims.

(** * Further properties *)

(** ** [fetch_url]: success and failure after retries *)

Module FetchExtras.
Import Py Http get_toxinfo_by_cas6 Spec Samples PyFacts.
Local Open Scope Z_scope.

Section WithLibraries.

Variable json_loads : string -> string + json.
Variable net : nat -> outcome.

Local Abbreviation loop := (fetch_url_loop json_loads net).

(** An attempt that is retried: one request, one sleep of [2 ^ attempt]. *)
Lemma retried_attempt url retries attempt rest w :
  retriable json_loads (net (sent w)) ->
  attempt <> retries - 1 ->
  exists pre,
    loop url retries (attempt :: rest) w
    = loop url retries rest {| sent := S (sent w); log := log w ++ pre |}
    /\ sleeps pre = [inject_Z (2 ^ attempt)]
    /\ gets pre = [url].
Proof.
  intros Hr Hlast. simpl.
  assert (Hne : (attempt =? retries - 1) = false) by now apply Z.eqb_neq.
  unfold retriable, failure in Hr.
  destruct (net (sent w)) as [r|msg].
  - destruct (Z.eqb_spec (status r) 200) as [H200|H200].
    + destruct (load_body json_loads r) as [msg|value].
      * rewrite Hne. eexists. unfold emit. simpl. rewrite <- !app_assoc. simpl.
        split; [reflexivity|]. split; reflexivity.
      * exfalso. destruct Hr as [(r' & Hr' & H503) | Hr]; [|congruence].
        injection Hr' as <-. lia.
    + destruct Hr as [(r' & Hr' & H503) | Hr]; [|congruence].
      injection Hr' as <-. rewrite H503. simpl.
      eexists. unfold emit. simpl. rewrite <- !app_assoc. simpl.
      split; [reflexivity|]. split; reflexivity.
  - rewrite Hne. eexists. unfold emit. simpl. rewrite <- !app_assoc. simpl.
    split; [reflexivity|]. split; reflexivity.
Qed.

(** [k] attempts in a row that are all retried. *)
Lemma retried_attempts url retries (k : nat) : forall (a m : nat) w,
  (forall i, (i < k)%nat -> retriable json_loads (net (sent w + i))) ->
  Z.of_nat (a + k) <= retries - 1 ->
  exists pre,
    loop url retries (map Z.of_nat (seq a (k + m))) w
    = loop url retries (map Z.of_nat (seq (a + k) m))
        {| sent := sent w + k; log := log w ++ pre |}
    /\ sleeps pre = backoff (map Z.of_nat (seq a k))
    /\ gets pre = repeat url k.
Proof.
  induction k as [|k IH]; intros a m w Hr Ha.
  - exists []. rewrite !Nat.add_0_r, app_nil_r. simpl.
    split; [now destruct w|]. split; reflexivity.
  - change (map Z.of_nat (seq a (S k + m)))
      with (Z.of_nat a :: map Z.of_nat (seq (S a) (k + m))).
    destruct (retried_attempt url retries (Z.of_nat a)
                (map Z.of_nat (seq (S a) (k + m))) w) as (pre1 & H1 & Hs1 & Hg1).
    { specialize (Hr 0%nat ltac:(lia)). now rewrite Nat.add_0_r in Hr. }
    { lia. }
    destruct (IH (S a) m {| sent := S (sent w); log := log w ++ pre1 |})
      as (pre2 & H2 & Hs2 & Hg2).
    { intros i Hi. simpl. specialize (Hr (S i) ltac:(lia)).
      now replace (S (sent w + i)) with (sent w + S i)%nat by lia. }
    { lia. }
    exists (pre1 ++ pre2).
    replace (a + S k)%nat with (S a + k)%nat by lia.
    replace (sent w + S k)%nat with (S (sent w) + k)%nat by lia.
    rewrite H1, H2. cbn [sent log]. rewrite <- app_assoc. split; [reflexivity|].
    unfold sleeps, gets in *. rewrite !flat_map_app, Hs1, Hs2, Hg1, Hg2.
    split; reflexivity.
Qed.

End WithLibraries.

(** X1: when the first [k] attempts are retried (answered by 503 or ended
    by an exception) and attempt [k], still within the budget, is answered
    by 200 with a body that parses, [fetch_url] returns the parsed value
    after [k + 1] requests and the sleeps 1, 2, ..., 2^(k-1). *)
Theorem X1_fetch_url_returns_value_after_retries :
  forall json_loads net url retries (k : nat) value w,
    Z.of_nat k < retries ->
    (forall i, (i < k)%nat -> retriable json_loads (net (sent w + i)%nat)) ->
    served json_loads (net (sent w + k)%nat) value ->
    exists l,
      fetch_url json_loads net url retries w
      = (value, {| sent := (sent w + k + 1)%nat; log := log w ++ l |})
      /\ sleeps l = backoff (range (Z.of_nat k))
      /\ gets l = repeat url (k + 1)%nat.
Proof.
  intros json_loads net url retries k value w Hk Hr (r & Hnet & H200 & Hbody).
  unfold fetch_url, range.
  replace (Z.to_nat retries) with (k + S (Z.to_nat retries - k - 1))%nat by lia.
  destruct (retried_attempts json_loads net url retries k 0
              (S (Z.to_nat retries - k - 1)) w Hr ltac:(lia)) as (pre & H & Hs & Hg).
  rewrite H. simpl. rewrite Hnet, H200, Hbody. simpl.
  exists (pre ++ [Get url]). rewrite <- app_assoc.
  replace (S (sent w + k)) with (sent w + k + 1)%nat by lia.
  split; [reflexivity|].
  unfold sleeps, gets in *. rewrite !flat_map_app, Hs, Hg. simpl.
  rewrite app_nil_r, Nat2Z.id. split; [reflexivity|].
  now rewrite repeat_app.
Qed.

Lemma X1_fetch_url_returns_value_after_retries_witness :
  exists l,
    fetch_url (fun _ => inr (cid_list [JNum (Int 2244)])) recovering "u" 3 start
    = (cid_list [JNum (Int 2244)], {| sent := 3; log := l |})
    /\ sleeps l = backoff (range 2)
    /\ gets l = ["u"; "u"; "u"]%string.
Proof.
  apply (X1_fetch_url_returns_value_after_retries
           (fun _ => inr (cid_list [JNum (Int 2244)])) recovering "u" 3 2
           (cid_list [JNum (Int 2244)]) start).
  - lia.
  - intros [|[|i]] Hi; simpl.
    + left. now exists {| status := 503; text := Text ""; read := inr "";
                          resp_json := inr JNull |}.
    + right. discriminate.
    + lia.
  - now exists {| status := 200; text := Text "{}"; read := inr "{}";
                  resp_json := inr JNull |}.
Defined.

(** X2: when every attempt but the last is retried and the last attempt
    ends with an exception (the request raises, or the body of a 200
    response cannot be read or parsed), [fetch_url] returns the error
    marker carrying the message of that exception, and does not sleep after
    the last attempt. *)
Theorem X2_fetch_url_error_marker_on_last_exception :
  forall json_loads net url retries msg w,
    1 <= retries ->
    (forall i, (i < Z.to_nat (retries - 1))%nat -> retriable json_loads (net (sent w + i)%nat)) ->
    failure json_loads (net (sent w + Z.to_nat (retries - 1))%nat) = Some msg ->
    exists l,
      fetch_url json_loads net url retries w
      = (error_marker msg, {| sent := (sent w + Z.to_nat retries)%nat; log := log w ++ l |})
      /\ sleeps l = backoff (range (retries - 1))
      /\ gets l = repeat url (Z.to_nat retries).
Proof.
  intros json_loads net url retries msg w Hpos Hr Hfail.
  unfold fetch_url, range.
  set (k := Z.to_nat (retries - 1)) in *.
  replace (Z.to_nat retries) with (k + 1)%nat by (unfold k; lia).
  destruct (retried_attempts json_loads net url retries k 0 1 w Hr
              ltac:(unfold k; lia)) as (pre & H & Hs & Hg).
  rewrite H. simpl.
  assert (Hlast : (Z.of_nat k =? retries - 1) = true) by (apply Z.eqb_eq; unfold k; lia).
  unfold failure in Hfail.
  exists (pre ++ [Get url; Print ("Exception for URL " ++ url ++ ": " ++ msg)%string]).
  unfold sleeps, gets in *. rewrite !flat_map_app, Hs, Hg. simpl.
  rewrite app_nil_r, repeat_app. simpl.
  replace (S (sent w + k)) with (sent w + (k + 1))%nat by lia.
  split; [|split; reflexivity].
  destruct (net (sent w + k)%nat) as [r|msg'].
  - destruct (status r =? 200); [|discriminate].
    destruct (load_body json_loads r) as [msg'|value]; [|discriminate].
    injection Hfail as ->. rewrite Hlast. unfold emit. simpl.
    now rewrite <- !app_assoc.
  - injection Hfail as ->. rewrite Hlast. unfold emit. simpl.
    now rewrite <- !app_assoc.
Qed.

Lemma X2_fetch_url_error_marker_on_last_exception_witness :
  exists l,
    fetch_url no_parse unreachable "u" 3 start
    = (error_marker "Cannot connect to host", {| sent := 3; log := l |})
    /\ sleeps l = backoff (range 2)
    /\ gets l = ["u"; "u"; "u"]%string.
Proof.
  apply (X2_fetch_url_error_marker_on_last_exception no_parse unreachable "u" 3
           "Cannot connect to host" start).
  - lia.
  - intros i Hi. right. discriminate.
  - reflexivity.
Defined.

End FetchExtras.

(** ** The keyword-section extractor: headings of the result *)

Module ExtractorExtras.
Import Py get_toxinfo_by_cas6 Spec Samples ExtractorFacts.
Local Open Scope nat_scope.
Local Open Scope list_scope.

Lemma tox_heading_matches section h : tox_heading section = Ok (Some h) -> is_tox h = true.
Proof.
  unfold tox_heading.
  destruct (py_in "TOCHeading" section) as [[|]|e]; simpl; try discriminate.
  destruct (getitem section "TOCHeading") as [[| | |s| |]|e]; simpl; try discriminate.
  destruct (is_tox s) eqn:Hs; [|discriminate]. intros H. injection H as <-. exact Hs.
Qed.

Lemma gather_all_Forall {A B} (P : B -> Prop) (f : A -> result (list B)) items :
  (forall x ys, f x = Ok ys -> Forall P ys) ->
  forall all, gather_all f items = Ok all -> Forall P all.
Proof.
  intros Hf. induction items as [|x items IH]; simpl; intros all H.
  - injection H as <-. constructor.
  - destruct (f x) as [ys|e] eqn:Hx; simpl in H; [|discriminate].
    destruct (gather_all f items) as [more|e]; simpl in H; [|discriminate].
    injection H as <-. apply Forall_app. split; [now apply (Hf x) | now apply IH].
Qed.

(** Every entry of a traversal is under a heading that matches. *)
Lemma encountered_matching (f : nat) : forall section log,
  encountered f section = Ok log -> Forall (fun entry => is_tox (fst entry) = true) log.
Proof.
  induction f as [|f IH]; intros section log H; simpl in H; [discriminate|].
  destruct (tox_heading section) as [[h|]|e] eqn:Hh; simpl in H; try discriminate.
  - apply tox_heading_matches in Hh.
    destruct (own_strings section) as [own|e]; simpl in H; [|discriminate].
    destruct (py_in "Section" section) as [[|]|e]; simpl in H; try discriminate.
    + destruct (getitem section "Section") as [subsections|e]; simpl in H; [|discriminate].
      destruct (iter subsections) as [items|e]; simpl in H; [|discriminate].
      destruct (gather_all (encountered f) items) as [below|e] eqn:Hb; simpl in H;
        [|discriminate].
      injection H as <-. constructor; [exact Hh|].
      now apply (gather_all_Forall _ (encountered f) items IH).
    + injection H as <-. now repeat constructor.
  - injection H as <-. constructor.
Qed.

Lemma encountered_in_matching (f : nat) data log :
  encountered_in f data = Ok log -> Forall (fun entry => is_tox (fst entry) = true) log.
Proof.
  unfold encountered_in. intros H.
  destruct (py_in "Record" data) as [[|]|e]; simpl in H; try discriminate;
    [|injection H as <-; constructor].
  destruct (getitem data "Record") as [record|e]; simpl in H; [|discriminate].
  destruct (py_in "Section" record) as [[|]|e]; simpl in H; try discriminate;
    [|injection H as <-; constructor].
  destruct (getitem record "Section") as [sections|e]; simpl in H; [|discriminate].
  destruct (iter sections) as [items|e]; simpl in H; [|discriminate].
  now apply (gather_all_Forall _ (encountered f) items (encountered_matching f)).
Qed.

(** X3: every heading under which [extract_tox_data] returns something
    contains one of the keywords, case apart; no other heading of the
    document reaches the result. *)
Theorem X3_extracted_headings_match_a_keyword :
  forall frames data tox_data h strings,
    extract_tox_data frames data = Ok tox_data ->
    lookup h tox_data = Some strings ->
    is_tox h = true.
Proof.
  intros frames data tox_data h strings H Hh.
  rewrite extract_tox_data_store in H.
  destruct (encountered_in frames data) as [log|e] eqn:Hlog; simpl in H; [|discriminate].
  injection H as <-.
  assert (Hin : exists v, In (h, v) log).
  { apply last_under_In. rewrite lookup_store in Hh. simpl in Hh.
    destruct (last_under h log); congruence. }
  destruct Hin as (v & Hin).
  pose proof (encountered_in_matching frames data log Hlog) as Hall.
  rewrite Forall_forall in Hall. exact (Hall (h, v) Hin).
Qed.

Lemma X3_extracted_headings_match_a_keyword_witness :
  is_tox "Hazards Identification" = true.
Proof.
  apply (X3_extracted_headings_match_a_keyword 10 repeated_heading
           [("Safety and Hazards"%string, [JStr "Irritant"]);
            ("Hazards Identification"%string, [JStr "H319"])]
           "Hazards Identification" [JStr "H319"]); reflexivity.
Defined.

(** *** The order of the headings *)

Lemma keys_ext {V} (l : list (string * V)) : forall seen1 seen2,
  (forall x, existsb (String.eqb x) seen1 = existsb (String.eqb x) seen2) ->
  keys seen1 l = keys seen2 l.
Proof.
  induction l as [|[k v] l IH]; intros seen1 seen2 H; simpl; [reflexivity|].
  rewrite (H k). destruct (existsb (String.eqb k) seen2).
  - now apply IH.
  - f_equal. apply IH. intros x. simpl. now rewrite H.
Qed.

Lemma keys_fresh {V} (l : list (string * V)) : forall seen,
  NoDup (keys seen l)
  /\ forall x, In x (keys seen l) -> existsb (String.eqb x) seen = false.
Proof.
  induction l as [|[k v] l IH]; intros seen; simpl.
  - split; [constructor | contradiction].
  - destruct (existsb (String.eqb k) seen) eqn:Hk; [apply IH|].
    destruct (IH (k :: seen)) as (Hnd & Hfresh). split.
    + constructor; [|exact Hnd]. intros Hin. apply Hfresh in Hin. simpl in Hin.
      now rewrite String.eqb_refl in Hin.
    + intros x [<- | Hin]; [exact Hk|]. apply Hfresh in Hin. simpl in Hin.
      now apply orb_false_elim in Hin as [_ ?].
Qed.

Lemma dict_set_keys {V} k (v : V) d :
  map fst (dict_set k v d)
  = if existsb (String.eqb k) (map fst d) then map fst d else map fst d ++ [k].
Proof.
  induction d as [|[k' v'] d IH]; simpl; [reflexivity|].
  destruct (String.eqb k k') eqn:E; simpl; [reflexivity|].
  rewrite IH. now destruct (existsb (String.eqb k) (map fst d)).
Qed.

Lemma store_keys log : forall d,
  map fst (store log d) = map fst d ++ keys (map fst d) log.
Proof.
  induction log as [|[k v] log IH]; intros d.
  - simpl. now rewrite app_nil_r.
  - change (store ((k, v) :: log) d) with (store log (dict_set k v d)).
    rewrite IH, dict_set_keys. simpl.
    destruct (existsb (String.eqb k) (map fst d)) eqn:Hk; [reflexivity|].
    rewrite <- app_assoc. simpl. do 2 f_equal.
    apply keys_ext. intros x. rewrite existsb_app. simpl.
    rewrite orb_false_r. apply orb_comm.
Qed.

(** X4: the result of [extract_tox_data] holds each heading once, and the
    headings stand in the order in which the traversal first met them. *)
Theorem X4_extracted_headings_in_order_of_first_encounter :
  forall frames data tox_data,
    extract_tox_data frames data = Ok tox_data ->
    exists log,
      encountered_in frames data = Ok log
      /\ map fst tox_data = keys [] log
      /\ NoDup (map fst tox_data).
Proof.
  intros frames data tox_data H. rewrite extract_tox_data_store in H.
  destruct (encountered_in frames data) as [log|e]; simpl in H; [|discriminate].
  injection H as <-. exists log. split; [reflexivity|].
  rewrite store_keys. simpl. split; [reflexivity | apply keys_fresh].
Qed.

Lemma X4_extracted_headings_in_order_of_first_encounter_witness :
  exists log,
    encountered_in 10 repeated_heading = Ok log
    /\ ["Safety and Hazards"; "Hazards Identification"]%string = keys [] log
    /\ NoDup ["Safety and Hazards"; "Hazards Identification"]%string.
Proof.
  apply (X4_extracted_headings_in_order_of_first_encounter 10 repeated_heading
           [("Safety and Hazards"%string, [JStr "Irritant"]);
            ("Hazards Identification"%string, [JStr "H319"])]).
  reflexivity.
Defined.

End ExtractorExtras.

(** ** The parts of a compound record *)

Module RecordExtras.
Import Py Http Task get_toxinfo_by_cas6 Spec Samples ExtractorFacts.
Local Open Scope nat_scope.
Local Open Scope list_scope.

(** X5: [get_iupac_and_smiles] reads the first entry of the property list
    only, and a name that entry lacks reads 'N/A'; without the path
    [PropertyTable -> Properties] (an error marker, for one) both names read
    'N/A'; on an empty property list it raises [IndexError]. *)
Theorem X5_iupac_and_smiles_first_entry_or_NA :
  (forall fields table properties others,
      lookup "PropertyTable" fields = Some (JObj table) ->
      lookup "Properties" table = Some (JArr (JObj properties :: others)) ->
      iupac_and_smiles_of (JObj fields)
      = Ok (or_NA "IUPACName" properties, or_NA "CanonicalSMILES" properties))
  /\ (forall fields,
      lookup "PropertyTable" fields = None
      \/ (exists table, lookup "PropertyTable" fields = Some (JObj table)
                        /\ lookup "Properties" table = None) ->
      iupac_and_smiles_of (JObj fields) = Ok (JStr "N/A", JStr "N/A"))
  /\ (forall fields table,
      lookup "PropertyTable" fields = Some (JObj table) ->
      lookup "Properties" table = Some (JArr []) ->
      iupac_and_smiles_of (JObj fields) = Raise IndexError).
Proof.
  unfold iupac_and_smiles_of, has_path. split; [|split].
  - intros fields table properties others H1 H2. simpl.
    rewrite H1. simpl. rewrite H2. reflexivity.
  - intros fields [H | (table & H1 & H2)]; simpl.
    + now rewrite H.
    + rewrite H1. simpl. now rewrite H2.
  - intros fields table H1 H2. simpl. rewrite H1. simpl. rewrite H2. reflexivity.
Qed.

Lemma X5_iupac_and_smiles_first_entry_or_NA_witness :
  iupac_and_smiles_of aspirin_properties
  = Ok (JStr "2-acetyloxybenzoic acid", JStr "N/A")
  /\ iupac_and_smiles_of (error_marker "HTTP error 404") = Ok (JStr "N/A", JStr "N/A")
  /\ iupac_and_smiles_of (JObj [("PropertyTable", JObj [("Properties", JArr [])])])
     = Raise IndexError.
Proof.
  destruct X5_iupac_and_smiles_first_entry_or_NA as (Hfirst & Hnone & Hempty).
  split; [|split].
  - apply (Hfirst _ [("Properties",
                      JArr [JObj [("CID", JNum (Int 2244));
                                  ("IUPACName", JStr "2-acetyloxybenzoic acid")]])]
             [("CID", JNum (Int 2244)); ("IUPACName", JStr "2-acetyloxybenzoic acid")] []);
      reflexivity.
  - apply (Hnone [("error", JStr "HTTP error 404")]). left. reflexivity.
  - apply (Hempty _ [("Properties", JArr [])]); reflexivity.
Defined.

Lemma get_default_heading section h :
  heading_entry section = Some h -> get_default section "TOCHeading" JNull = Ok h.
Proof.
  destruct section; simpl; try discriminate. intros H. now injection H as <-.
Qed.

Lemma scan_sections_skip pre : forall rest found,
  Forall (not_headed "Names and Identifiers") pre ->
  scan_sections (pre ++ rest) found = scan_sections rest found.
Proof.
  induction pre as [|s pre IH]; intros rest found H; [reflexivity|].
  inversion H as [|? ? (h & Hh & Hne) Hpre]; subst. simpl.
  rewrite (get_default_heading s h Hh). simpl. rewrite Hne. now apply IH.
Qed.

(** X6: [get_names_and_synonyms] looks into the first top-level section
    headed "Names and Identifiers" and into no section after it: what
    follows that section, well formed or not, has no bearing on the result. *)
Theorem X6_names_from_first_names_section_only :
  forall data before section after,
    has_sections data (before ++ section :: after) ->
    Forall (not_headed "Names and Identifiers") before ->
    headed "Names and Identifiers" section ->
    names_and_synonyms_of data = scan_sections [section] ([], []).
Proof.
  intros data before section after (fields & record & -> & Hr & Hs) Hbefore (h & Hh & Heq).
  unfold names_and_synonyms_of, has_path. simpl.
  rewrite Hr. simpl. rewrite Hs. simpl.
  rewrite (scan_sections_skip before _ _ Hbefore). simpl.
  rewrite (get_default_heading section h Hh). simpl. rewrite Heq.
  destruct (get_default section "Section" (JArr [])) as [subsections|e]; simpl;
    [|reflexivity].
  destruct (iter subsections) as [items|e]; reflexivity.
Qed.

Lemma X6_names_from_first_names_section_only_witness :
  names_and_synonyms_of names_twice = scan_sections [names_section] ([], [])
  /\ scan_sections [names_section] ([], [])
     = Ok ([JStr "2-acetyloxybenzoic acid"], [JStr "aspirin"; JStr "50-78-2"]).
Proof.
  split; [|reflexivity].
  apply (X6_names_from_first_names_section_only names_twice
           [JObj [("TOCHeading", JStr "Structures")]] names_section
           [JStr "Names and Identifiers"]).
  - eexists _, _. split; [reflexivity|]. split; reflexivity.
  - constructor; [|constructor]. exists (JStr "Structures"). split; reflexivity.
  - exists (JStr "Names and Identifiers"). split; reflexivity.
Defined.

(** *** Literature references *)

Lemma lookup_keys {V} h (d : list (string * V)) v :
  lookup h d = Some v -> existsb (String.eqb h) (map fst d) = true.
Proof.
  induction d as [|[k w] d IH]; simpl; [discriminate|].
  destruct (String.eqb h k); [reflexivity | exact IH].
Qed.

Lemma collect_info_keys h info d d' :
  collect_info h info d = Ok d' -> map fst d' = map fst d.
Proof.
  unfold collect_info. intros H.
  destruct (py_in "Value" info) as [[|]|e]; simpl in H; try discriminate;
    [|now injection H as <-].
  destruct (getitem info "Value") as [value|e]; simpl in H; [|discriminate].
  destruct (py_in "StringWithMarkup" value) as [[|]|e]; simpl in H; try discriminate;
    [|now injection H as <-].
  destruct (getitem value "StringWithMarkup") as [markup|e]; simpl in H; [|discriminate].
  destruct (iter markup) as [items|e]; simpl in H; [|discriminate].
  destruct (comprehension _ items) as [strings|e]; simpl in H; [|discriminate].
  unfold dict_extend in H. destruct (lookup h d) as [old|] eqn:Hold; [|discriminate].
  injection H as <-. rewrite ExtractorExtras.dict_set_keys.
  now rewrite (lookup_keys h d old Hold).
Qed.

Lemma for_each_keys {A} (body : A -> tox_dict -> result tox_dict) items :
  (forall x d d', body x d = Ok d' -> map fst d' = map fst d) ->
  forall d d', for_each body items d = Ok d' -> map fst d' = map fst d.
Proof.
  intros Hbody. induction items as [|x items IH]; simpl; intros d d' H.
  - now injection H as <-.
  - destruct (body x d) as [d1|e] eqn:Hx; simpl in H; [|discriminate].
    rewrite (IH d1 d' H). now apply (Hbody x).
Qed.

Lemma collect_references_keys section d d' :
  collect_references section d = Ok d' -> map fst d' = map fst d.
Proof.
  unfold collect_references. intros H.
  destruct (get_default section "TOCHeading" JNull) as [heading|e]; simpl in H;
    [|discriminate].
  destruct (key_in heading d) as [[|]|e]; simpl in H; try discriminate;
    [|now injection H as <-].
  destruct (get_default section "Information" (JArr [])) as [information|e]; simpl in H;
    [|discriminate].
  destruct (iter information) as [infos|e]; simpl in H; [|discriminate].
  destruct heading; try (now injection H as <-).
  now apply (for_each_keys (collect_info s) infos (collect_info_keys s)).
Qed.

(** X7: whenever [get_literature_references] returns, its result has the
    four reference categories, once each and in the order in which the
    program lists them, whatever the document holds. *)
Theorem X7_literature_references_keep_their_categories :
  forall data references,
    literature_references_of data = Ok references ->
    map fst references
    = ["Disease and References"; "Nature Journal References";
       "Springer Nature References"; "Other Safety Information"]%string.
Proof.
  intros data references H. unfold literature_references_of in H.
  destruct (has_path "Record" "Section" data) as [[|]|e]; simpl in H; try discriminate;
    [|now injection H as <-].
  destruct (getitem data "Record") as [record|e]; simpl in H; [|discriminate].
  destruct (getitem record "Section") as [sections|e]; simpl in H; [|discriminate].
  destruct (iter sections) as [items|e]; simpl in H; [|discriminate].
  now rewrite (for_each_keys collect_references items collect_references_keys _ _ H).
Qed.

Lemma X7_literature_references_keep_their_categories_witness :
  map fst [("Disease and References"%string, []);
           ("Nature Journal References"%string, [JStr "Nature 2001"]);
           ("Springer Nature References"%string, []);
           ("Other Safety Information"%string, [])]
  = ["Disease and References"; "Nature Journal References";
     "Springer Nature References"; "Other Safety Information"]%string.
Proof.
  apply (X7_literature_references_keep_their_categories with_references).
  reflexivity.
Defined.

End RecordExtras.

(** ** [process_cas_number]: the record of one identifier *)

Module ProcessExtras.
Import Py Http Task get_toxinfo_by_cas6 Spec Samples.
Local Open Scope nat_scope.
Local Open Scope list_scope.
Local Open Scope task_scope.

Lemma bind_ok {A B} (m : task A) (k : A -> task B) w b w' :
  Task.bind m k w = (Ok b, w') ->
  exists a w1, m w = (Ok a, w1) /\ k a w1 = (Ok b, w').
Proof.
  unfold Task.bind. destruct (m w) as [[a|e] w1]; [|discriminate].
  intros H. now exists a, w1.
Qed.

Section WithLibraries.

Variable json_loads : string -> string + json.
Variable quote : string -> string.
Variable format : json -> string.
Variable net : nat -> outcome.
Variable exn_message : exn -> string.
Variable frames : nat.

Local Abbreviation try_body :=
  (process_cas_number_try json_loads quote format net frames).
Local Abbreviation process :=
  (process_cas_number json_loads quote format net exn_message frames).
Local Abbreviation resolve := (get_pubchem_cid json_loads quote format net).

(** Whatever the [try] returns is a record of the identifier. *)
Lemma try_record cas w record w' :
  try_body cas w = (Ok record, w') -> record_of cas record.
Proof.
  unfold process_cas_number_try. intros H.
  apply bind_ok in H as (cid & w1 & _ & H).
  assert (Hother :
    (_ <~ say ("Found CID " ++ format cid ++ " for CAS " ++ cas) ;;
     compound_data <~ get_compound_data json_loads format net cid ;;
     failed <~ lift (py_in "error" compound_data) ;;
     if failed then
       message <~ lift (getitem compound_data "error") ;;
       ret (JObj [("CAS", JStr cas); ("PubChemCID", cid); ("error", message)])
     else
       iupac_smiles <~ get_iupac_and_smiles json_loads format net cid ;;
       found <~ get_names_and_synonyms json_loads format net cid ;;
       references <~ get_literature_references json_loads format net cid ;;
       has_record <~ lift (py_in "Record" compound_data) ;;
       if negb has_record then
         ret (JObj (described cas cid iupac_smiles found references
                    ++ [("error", JStr "Could not find compound data")]))
       else
         tox_data <~ lift (extract_tox_data frames compound_data) ;;
         ret (JObj (described cas cid iupac_smiles found references
                    ++ [("ToxData", dict_json tox_data)]))) w1
    = (Ok record, w') -> record_of cas record).
  { clear H. intros H.
    apply bind_ok in H as (u & w2 & _ & H).
    apply bind_ok in H as (compound_data & w3 & _ & H).
    apply bind_ok in H as (failed & w4 & _ & H).
    destruct failed.
    - apply bind_ok in H as (message & w5 & _ & H).
      injection H as <- _. eexists. split; [reflexivity|].
      split; [reflexivity|]. left. split; [discriminate | reflexivity].
    - apply bind_ok in H as (iupac_smiles & w5 & _ & H).
      apply bind_ok in H as (found & w6 & _ & H).
      apply bind_ok in H as (references & w7 & _ & H).
      apply bind_ok in H as (has_record & w8 & _ & H).
      destruct has_record; simpl in H.
      + apply bind_ok in H as (tox_data & w9 & _ & H).
        injection H as <- _. eexists. split; [reflexivity|].
        split; [reflexivity|]. right. split; [reflexivity | discriminate].
      + injection H as <- _. eexists. split; [reflexivity|].
        split; [reflexivity|]. left. split; [discriminate | reflexivity]. }
  destruct cid; try (now apply Hother).
  injection H as <- _. eexists. split; [reflexivity|].
  split; [reflexivity|]. left. split; [discriminate | reflexivity].
Qed.

Lemma process_record cas w : record_of cas (fst (process cas w)).
Proof.
  unfold process_cas_number.
  destruct (try_body cas _) as [[record|e] w1] eqn:Htry; simpl.
  - exact (try_record cas _ record w1 Htry).
  - eexists. split; [reflexivity|]. split; [reflexivity|].
    left. split; [discriminate | reflexivity].
Qed.

End WithLibraries.

(** X8: whatever the network does, [process_cas_number] returns a
    dictionary that names the identifier it was given under ['CAS'] and
    holds either an ['error'] or the ['ToxData'], never both and never
    neither. *)
Theorem X8_record_has_cas_and_error_or_tox_data :
  forall json_loads quote format net exn_message frames cas w,
    record_of cas
      (fst (process_cas_number json_loads quote format net exn_message frames cas w)).
Proof.
  intros. unfold process_cas_number.
  destruct (process_cas_number_try _ _ _ _ _ _ _) as [[record|e] w1] eqn:Htry; simpl.
  - exact (try_record json_loads quote format net frames cas _ record w1 Htry).
  - eexists. split; [reflexivity|]. split; [reflexivity|].
    left. split; [discriminate | reflexivity].
Qed.

(** X9: the list [get_tox_data_for_cas_numbers] returns has one record per
    identifier, and the record at position [i] is a record of identifier
    [i], whatever the order in which the tasks finish. *)
Theorem X9_one_record_per_identifier_in_order :
  forall json_loads quote format exn_message frames nets completion cas_numbers,
    List.length (tox_data_for_cas_numbers json_loads quote format exn_message frames
                   nets completion cas_numbers)
    = List.length cas_numbers
    /\ forall i cas,
        nth_error cas_numbers i = Some cas ->
        exists record,
          nth_error (tox_data_for_cas_numbers json_loads quote format exn_message frames
                       nets completion cas_numbers) i
          = Some record
          /\ record_of cas record.
Proof.
  intros. unfold tox_data_for_cas_numbers, get_tox_data_for_cas_numbers.
  rewrite GatherFacts.gather_in_order. split.
  - now rewrite length_map, BatchFacts.enumerate_length.
  - intros i cas H.
    rewrite nth_error_map, (OrchestratorClaims.enumerate_nth cas_numbers 0 i cas H).
    simpl. eexists. split; [reflexivity|]. apply process_record.
Qed.

Lemma X9_one_record_per_identifier_in_order_witness :
  exists record,
    nth_error (tox_data_for_cas_numbers no_parse plain_quote plain_format plain_message 10
                 (fun _ => unreachable) [1; 0] ["50-78-2"; "64-17-5"]%string) 1
    = Some record
    /\ record_of "64-17-5" record.
Proof.
  apply (proj2 (X9_one_record_per_identifier_in_order no_parse plain_quote plain_format
                  plain_message 10 (fun _ => unreachable) [1; 0]
                  ["50-78-2"; "64-17-5"]%string) 1 "64-17-5"%string).
  reflexivity.
Defined.

(** X10: when the resolver finds no identifier, the record holds the
    identifier and the error 'Could not find PubChem CID'; when the resolver
    raises, the record holds the identifier and 'Processing error: '
    followed by the message of the exception.  Either way nothing is
    requested after the resolver's own requests. *)
Theorem X10_resolver_failure_ends_the_record :
  forall json_loads quote format net exn_message frames cas w,
    let w0 := emit (Print ("Processing CAS " ++ cas)) w in
    let resolved := get_pubchem_cid json_loads quote format net cas w0 in
    (fst resolved = Ok JNull ->
     process_cas_number json_loads quote format net exn_message frames cas w
     = (JObj [("CAS", JStr cas); ("error", JStr "Could not find PubChem CID")],
        snd resolved))
    /\ (forall e,
        fst resolved = Raise e ->
        process_cas_number json_loads quote format net exn_message frames cas w
        = (JObj [("CAS", JStr cas);
                 ("error", JStr ("Processing error: " ++ exn_message e))],
           emit (Print ("Error processing CAS " ++ cas ++ ": " ++ exn_message e))
                (snd resolved))).
Proof.
  intros. subst w0 resolved.
  unfold process_cas_number, process_cas_number_try, Task.bind.
  destruct (get_pubchem_cid json_loads quote format net cas _) as [[cid|e] w1]; simpl.
  - split; [|discriminate]. intros H. now injection H as ->.
  - split; [discriminate|]. intros e' H. now injection H as <-.
Qed.

Lemma X10_resolver_failure_ends_the_record_witness :
  process_cas_number no_parse plain_quote plain_format (fun _ => respond 404)
    plain_message 10 "0-00-0" start
  = (JObj [("CAS", JStr "0-00-0"); ("error", JStr "Could not find PubChem CID")],
     snd (get_pubchem_cid no_parse plain_quote plain_format (fun _ => respond 404)
            "0-00-0" (emit (Print "Processing CAS 0-00-0") start)))
  /\ process_cas_number empty_loads plain_quote plain_format (serves JNull)
       plain_message 10 "50-78-2" start
     = (JObj [("CAS", JStr "50-78-2"); ("error", JStr "Processing error: error")],
        emit (Print "Error processing CAS 50-78-2: error")
             (snd (get_pubchem_cid empty_loads plain_quote plain_format (serves JNull)
                     "50-78-2" (emit (Print "Processing CAS 50-78-2") start)))).
Proof.
  split.
  - apply (proj1 (X10_resolver_failure_ends_the_record no_parse plain_quote plain_format
                    (fun _ => respond 404) plain_message 10 "0-00-0" start)).
    reflexivity.
  - apply (proj2 (X10_resolver_failure_ends_the_record empty_loads plain_quote plain_format
                    (serves JNull) plain_message 10 "50-78-2" start) IndexError).
    reflexivity.
Defined.

(** X11: when the identifier is resolved and the first download of the
    compound record comes back as an error marker, the record holds the
    identifier, the CID and the message of that marker, and none of the
    three further downloads is made. *)
Theorem X11_failed_record_download_ends_the_record :
  forall json_loads quote format net exn_message frames cas w cid w1 msg w2,
    get_pubchem_cid json_loads quote format net cas
      (emit (Print ("Processing CAS " ++ cas)) w) = (Ok cid, w1) ->
    cid <> JNull ->
    fetch_url json_loads net (compound_url format cid) 3
      (emit (Print ("Found CID " ++ format cid ++ " for CAS " ++ cas)) w1)
    = (error_marker msg, w2) ->
    process_cas_number json_loads quote format net exn_message frames cas w
    = (JObj [("CAS", JStr cas); ("PubChemCID", cid); ("error", JStr msg)], w2).
Proof.
  intros json_loads quote format net exn_message frames cas w cid w1 msg w2 Hcid Hne Hdata.
  unfold process_cas_number, process_cas_number_try, Task.bind.
  rewrite Hcid.
  destruct cid; try contradiction;
    unfold say, get_compound_data, fetch; rewrite Hdata; reflexivity.
Qed.

Lemma X11_failed_record_download_ends_the_record_witness :
  process_cas_number aspirin_loads plain_quote plain_format no_record_server
    plain_message 10 "50-78-2" start
  = (JObj [("CAS", JStr "50-78-2"); ("PubChemCID", JNum (Int 2244));
           ("error", JStr "HTTP error 404")],
     {| sent := 2;
        log := [Print "Processing CAS 50-78-2";
                Get "https://pubchem.ncbi.nlm.nih.gov/rest/pug/compound/name/50-78-2/cids/JSON";
                Print "Found CID 2244 for CAS 50-78-2";
                Get "https://pubchem.ncbi.nlm.nih.gov/rest/pug_view/data/compound/2244/JSON";
                Print "Error 404 for URL: https://pubchem.ncbi.nlm.nih.gov/rest/pug_view/data/compound/2244/JSON"] |}).
Proof.
  eapply (X11_failed_record_download_ends_the_record aspirin_loads plain_quote plain_format
            no_record_server plain_message 10 "50-78-2" start (JNum (Int 2244))).
  - reflexivity.
  - discriminate.
  - reflexivity.
Defined.

Lemma fetch_served json_loads net (docs : nat -> json) :
  (forall n, served json_loads (net n) (docs n)) ->
  forall url w,
    fetch_url json_loads net url 3 w
    = (docs (sent w), {| sent := S (sent w); log := log w ++ [Get url] |}).
Proof.
  intros Hserved url w. destruct (Hserved (sent w)) as (r & Hnet & Hst & Hbody).
  unfold fetch_url. change (range 3) with [0; 1; 2]%Z. simpl.
  now rewrite Hnet, Hst, Hbody.
Qed.

(** X12: when every request is answered at once by 200 with a body that
    parses, a record that holds ['ToxData'] has cost five requests: one for
    the identifier, one for the property table, and three for the same
    compound record. *)
Theorem X12_full_record_downloads_the_compound_three_times :
  forall json_loads quote format net exn_message frames (docs : nat -> json) cas fields,
    (forall n, served json_loads (net n) (docs n)) ->
    fst (process_cas_number json_loads quote format net exn_message frames cas start)
    = JObj fields ->
    lookup "ToxData" fields <> None ->
    exists cid,
      lookup "PubChemCID" fields = Some cid
      /\ gets (log (snd (process_cas_number json_loads quote format net exn_message
                           frames cas start)))
         = [(BASE_URL ++ "/compound/name/" ++ quote cas ++ "/cids/JSON")%string;
            compound_url format cid;
            property_url format cid;
            compound_url format cid;
            compound_url format cid].
Proof.
  intros json_loads quote format net exn_message frames docs cas fields Hserved Hfields Htox.
  pose proof (fetch_served json_loads net docs Hserved) as Hfetch.
  unfold process_cas_number in *.
  destruct (process_cas_number_try _ _ _ _ _ _ _) as [[record|e] w'] eqn:Htry;
    simpl in Hfields |- *.
  2: { injection Hfields as <-. simpl in Htox. congruence. }
  subst record. unfold process_cas_number_try in Htry.
  apply bind_ok in Htry as (cid & w1 & Hcid & H).
  unfold get_pubchem_cid in Hcid. rewrite Hfetch in Hcid. simpl in Hcid.
  unfold cid_of_response in Hcid.
  assert (Hnull : cid = JNull -> False).
  { intros ->. unfold ret in H. injection H as H _. subst fields. simpl in Htox. congruence. }
  destruct (has_cid_list (docs 0)) as [[|]|e]; [| |discriminate].
  2: { injection Hcid as <- _. now exfalso. }
  injection Hcid as _ <-.
  assert (Hother :
    (_ <~ say ("Found CID " ++ format cid ++ " for CAS " ++ cas) ;;
     compound_data <~ get_compound_data json_loads format net cid ;;
     failed <~ lift (py_in "error" compound_data) ;;
     if failed then
       message <~ lift (getitem compound_data "error") ;;
       ret (JObj [("CAS", JStr cas); ("PubChemCID", cid); ("error", message)])
     else
       iupac_smiles <~ get_iupac_and_smiles json_loads format net cid ;;
       found <~ get_names_and_synonyms json_loads format net cid ;;
       references <~ get_literature_references json_loads format net cid ;;
       has_record <~ lift (py_in "Record" compound_data) ;;
       if negb has_record then
         ret (JObj (described cas cid iupac_smiles found references
                    ++ [("error", JStr "Could not find compound data")]))
       else
         tox_data <~ lift (extract_tox_data frames compound_data) ;;
         ret (JObj (described cas cid iupac_smiles found references
                    ++ [("ToxData", dict_json tox_data)])))
      {| sent := 1;
         log := [Print ("Processing CAS " ++ cas);
                 Get (BASE_URL ++ "/compound/name/" ++ quote cas ++ "/cids/JSON")] |}
    = (Ok (JObj fields), w') ->
    exists cid0,
      lookup "PubChemCID" fields = Some cid0
      /\ gets (log w')
         = [(BASE_URL ++ "/compound/name/" ++ quote cas ++ "/cids/JSON")%string;
            compound_url format cid0; property_url format cid0;
            compound_url format cid0; compound_url format cid0]).
  { clear H Hnull. intros H.
    apply bind_ok in H as (u & w2 & Hw2 & H).
    unfold say in Hw2. injection Hw2 as _ <-.
    apply bind_ok in H as (compound_data & w3 & Hw3 & H).
    unfold get_compound_data, fetch in Hw3. rewrite Hfetch in Hw3.
    injection Hw3 as _ <-.
    apply bind_ok in H as (failed & w4 & Hw4 & H).
    unfold lift in Hw4. injection Hw4 as _ <-.
    destruct failed.
    { apply bind_ok in H as (message & w5 & _ & H).
      unfold ret in H. injection H as H _. subst fields. simpl in Htox. congruence. }
    apply bind_ok in H as (iupac_smiles & w5 & Hw5 & H).
    unfold get_iupac_and_smiles, fetch in Hw5.
    apply bind_ok in Hw5 as (data5 & w5' & Hf5 & Hw5). rewrite Hfetch in Hf5.
    injection Hf5 as _ <-. unfold lift in Hw5. injection Hw5 as _ <-.
    apply bind_ok in H as (found & w6 & Hw6 & H).
    unfold get_names_and_synonyms, fetch in Hw6.
    apply bind_ok in Hw6 as (data6 & w6' & Hf6 & Hw6). rewrite Hfetch in Hf6.
    injection Hf6 as _ <-. unfold lift in Hw6. injection Hw6 as _ <-.
    apply bind_ok in H as (references & w7 & Hw7 & H).
    unfold get_literature_references, fetch in Hw7.
    apply bind_ok in Hw7 as (data7 & w7' & Hf7 & Hw7). rewrite Hfetch in Hf7.
    injection Hf7 as _ <-. unfold lift in Hw7. injection Hw7 as _ <-.
    apply bind_ok in H as (has_record & w8 & Hw8 & H).
    unfold lift in Hw8. injection Hw8 as _ <-.
    destruct has_record; simpl in H.
    - apply bind_ok in H as (tox_data & w9 & Hw9 & H).
      unfold lift in Hw9. injection Hw9 as _ <-.
      unfold ret in H. injection H as H <-. subst fields.
      exists cid. split; reflexivity.
    - unfold ret in H. injection H as H _. subst fields. simpl in Htox. congruence. }
  destruct cid; first [now apply Hother | exfalso; now apply Hnull].
Qed.

Lemma X12_full_record_downloads_the_compound_three_times_witness :
  exists cid,
    lookup "PubChemCID"
      [("CAS", JStr "50-78-2"); ("PubChemCID", JNum (Int 2244));
       ("IUPAC", JStr "N/A"); ("SMILES", JStr "N/A");
       ("Names", JArr []); ("Synonyms", JArr []);
       ("LiteratureReferences", dict_json no_references);
       ("ToxData", dict_json [("Toxicity"%string, [JStr "LD50 200 mg/kg"])])]
    = Some cid
    /\ gets (log (snd (process_cas_number aspirin_loads plain_quote plain_format
                         aspirin_server plain_message 10 "50-78-2" start)))
       = [(BASE_URL ++ "/compound/name/" ++ plain_quote "50-78-2" ++ "/cids/JSON")%string;
          compound_url plain_format cid;
          property_url plain_format cid;
          compound_url plain_format cid;
          compound_url plain_format cid].
Proof.
  apply (X12_full_record_downloads_the_compound_three_times aspirin_loads plain_quote
           plain_format aspirin_server plain_message 10
           (fun n => match n with
                     | O => cid_list [JNum (Int 2244)]
                     | _ => document [Node "Toxicity" [["LD50 200 mg/kg"%string]] []]
                     end)
           "50-78-2").
  - intros [|n]; eexists; split; [reflexivity | split; reflexivity
                                 | reflexivity | split; reflexivity].
  - reflexivity.
  - discriminate.
Defined.

End ProcessExtras.

(** ** Reading identifiers, starting up, sizing columns *)

Module StartupExtras.
Import Py get_toxinfo_by_cas6 Spec Samples.
Local Open Scope nat_scope.
Local Open Scope list_scope.

Lemma lstrip_head s :
  lstrip s = EmptyString
  \/ exists c rest, lstrip s = String c rest /\ is_space c = false.
Proof.
  induction s as [|c s IH]; simpl; [now left|].
  destruct (is_space c) eqn:Hc; [exact IH|]. right. now exists c, s.
Qed.

Lemma rstrip_keeps_head c rest :
  is_space c = false -> rstrip (String c rest) = String c (rstrip rest).
Proof. intros Hc. simpl. rewrite Hc. now destruct (rstrip rest). Qed.

Lemma rstrip_idem s : rstrip (rstrip s) = rstrip s.
Proof.
  induction s as [|c s IH]; [reflexivity|]. simpl.
  destruct (rstrip s) as [|k kept] eqn:Hk.
  - destruct (is_space c) eqn:Hc; [reflexivity|]. simpl. now rewrite Hc.
  - change (rstrip (String c (String k kept)))
      with (match rstrip (String k kept) with
            | EmptyString => if is_space c then EmptyString else String c EmptyString
            | String a b => String c (String a b)
            end).
    now rewrite IH.
Qed.

(** Stripping twice is stripping once. *)
Lemma strip_idem s : strip (strip s) = strip s.
Proof.
  unfold strip. destruct (lstrip_head s) as [H | (c & rest & H & Hc)]; rewrite H.
  - reflexivity.
  - rewrite (rstrip_keeps_head c rest Hc). simpl. rewrite Hc.
    rewrite <- (rstrip_keeps_head c rest Hc). apply rstrip_idem.
Qed.

Lemma read_typed typed_lines : forall blank rest cas_numbers,
  Forall (fun line => strip line <> EmptyString) typed_lines ->
  strip blank = EmptyString ->
  read_cas_numbers (typed_lines ++ blank :: rest) cas_numbers
  = Entered (cas_numbers ++ map strip typed_lines) rest.
Proof.
  induction typed_lines as [|line lines IH]; intros blank rest acc Hall Hblank; simpl.
  - now rewrite Hblank, app_nil_r.
  - inversion Hall as [|? ? Hline Hlines]; subst.
    destruct (String.eqb_spec (strip line) EmptyString) as [He|_]; [contradiction|].
    rewrite (IH blank rest _ Hlines Hblank). now rewrite <- app_assoc.
Qed.

Lemma read_no_blank lines : forall cas_numbers,
  Forall (fun line => strip line <> EmptyString) lines ->
  read_cas_numbers lines cas_numbers = EOFError.
Proof.
  induction lines as [|line lines IH]; intros acc Hall; [reflexivity|]. simpl.
  inversion Hall as [|? ? Hline Hlines]; subst.
  destruct (String.eqb_spec (strip line) EmptyString) as [He|_]; [contradiction|].
  now apply IH.
Qed.

(** X13: [get_cas_numbers_from_user] returns the lines typed before the
    first blank line, each stripped of surrounding white space, and leaves
    the lines after the blank one unread; when the input ends before any
    blank line, [input()] raises [EOFError] and what was typed is lost. *)
Theorem X13_identifiers_typed_before_the_blank_line :
  (forall typed_lines blank rest,
      Forall (fun line => strip line <> EmptyString) typed_lines ->
      strip blank = EmptyString ->
      get_cas_numbers_from_user (typed_lines ++ blank :: rest)
      = Entered (map strip typed_lines) rest)
  /\ (forall lines,
      Forall (fun line => strip line <> EmptyString) lines ->
      get_cas_numbers_from_user lines = EOFError).
Proof.
  split.
  - intros typed_lines blank rest Hall Hblank.
    exact (read_typed typed_lines blank rest [] Hall Hblank).
  - intros lines Hall. exact (read_no_blank lines [] Hall).
Qed.

Lemma X13_identifiers_typed_before_the_blank_line_witness :
  get_cas_numbers_from_user [" 50-78-2"; "64-17-5  "; "   "; "67-64-1"]%string
  = Entered ["50-78-2"; "64-17-5"]%string ["67-64-1"%string]
  /\ get_cas_numbers_from_user ["50-78-2"; "64-17-5"]%string = EOFError.
Proof.
  split.
  - apply (proj1 X13_identifiers_typed_before_the_blank_line
             [" 50-78-2"; "64-17-5  "]%string "   "%string ["67-64-1"%string]).
    + repeat constructor; discriminate.
    + reflexivity.
  - apply (proj2 X13_identifiers_typed_before_the_blank_line).
    repeat constructor; discriminate.
Defined.

Lemma read_stripped stdin : forall cas_numbers entered rest,
  Forall (fun cas => cas <> EmptyString /\ strip cas = cas) cas_numbers ->
  read_cas_numbers stdin cas_numbers = Entered entered rest ->
  Forall (fun cas => cas <> EmptyString /\ strip cas = cas) entered
  /\ exists more, entered = cas_numbers ++ more.
Proof.
  induction stdin as [|line stdin IH]; intros acc entered rest Hacc H; simpl in H;
    [discriminate|].
  destruct (String.eqb_spec (strip line) EmptyString) as [He|Hne].
  - injection H as <- _. split; [exact Hacc|]. exists []. now rewrite app_nil_r.
  - destruct (IH (acc ++ [strip line]) entered rest) as (Hall & more & Hmore).
    + apply Forall_app. split; [exact Hacc|].
      constructor; [|constructor]. split; [exact Hne | apply strip_idem].
    + exact H.
    + split; [exact Hall|]. exists (strip line :: more). rewrite Hmore.
      now rewrite <- app_assoc.
Qed.

(** X14: every identifier [get_cas_numbers_from_user] returns is non-empty
    and carries no white space at either end. *)
Theorem X14_typed_identifiers_are_stripped_and_non_empty :
  forall stdin entered rest,
    get_cas_numbers_from_user stdin = Entered entered rest ->
    Forall (fun cas => cas <> EmptyString /\ strip cas = cas) entered.
Proof.
  intros stdin entered rest H.
  now destruct (read_stripped stdin [] entered rest (Forall_nil _) H).
Qed.

Lemma X14_typed_identifiers_are_stripped_and_non_empty_witness :
  Forall (fun cas => cas <> EmptyString /\ strip cas = cas) ["50-78-2"; "64-17-5"]%string.
Proof.
  apply (X14_typed_identifiers_are_stripped_and_non_empty
           [" 50-78-2"; "64-17-5  "; "   "; "67-64-1"]%string
           ["50-78-2"; "64-17-5"]%string ["67-64-1"%string]).
  reflexivity.
Defined.

(** X15: with identifiers on the command line the script fetches exactly
    those, as they are, and reads no input.  It leaves with status 1 exactly
    when there is none on the command line and the first line typed is
    blank; and a list it goes on to fetch is never empty. *)
Theorem X15_startup_fetches_or_exits :
  (forall argv stdin,
      1 < List.length argv -> choose_cas_numbers argv stdin = Fetches (tl argv))
  /\ (forall argv stdin status,
      choose_cas_numbers argv stdin = Exits status
      <-> status = 1%Z /\ List.length argv <= 1
          /\ exists blank rest, stdin = blank :: rest /\ strip blank = EmptyString)
  /\ (forall argv stdin cas_numbers,
      choose_cas_numbers argv stdin = Fetches cas_numbers -> cas_numbers <> []).
Proof.
  split; [|split].
  - intros argv stdin H. unfold choose_cas_numbers.
    destruct (Nat.ltb_spec 1 (List.length argv)) as [_|Hle]; [|lia].
    destruct argv as [|prog [|a args]]; simpl in H; try lia. reflexivity.
  - intros argv stdin status. unfold choose_cas_numbers, get_cas_numbers_from_user.
    destruct (Nat.ltb_spec 1 (List.length argv)) as [Hlt|Hle].
    + destruct argv as [|prog [|a args]]; simpl in Hlt; try lia. simpl.
      split; [discriminate | intros (_ & H & _); simpl in H; lia].
    + destruct stdin as [|line stdin]; simpl.
      * split; [discriminate | intros (_ & _ & blank & rest & H & _); discriminate].
      * destruct (String.eqb_spec (strip line) EmptyString) as [He|Hne].
        -- split.
           ++ intros H. injection H as <-. split; [reflexivity|].
              split; [exact Hle|]. now exists line, stdin.
           ++ now intros (-> & _).
        -- destruct (read_cas_numbers stdin [strip line]) as [entered rest|] eqn:Hread.
           ++ destruct (read_stripped stdin [strip line] entered rest) as (_ & more & ->).
              { constructor; [|constructor]. split; [exact Hne | apply strip_idem]. }
              { exact Hread. }
              simpl. split; [discriminate|].
              intros (_ & _ & blank & rest' & H & Hb). injection H as <- _. contradiction.
           ++ split; [discriminate|].
              intros (_ & _ & blank & rest' & H & Hb). injection H as <- _. contradiction.
  - intros argv stdin cas_numbers. unfold choose_cas_numbers.
    destruct (Nat.ltb_spec 1 (List.length argv)) as [Hlt|Hle].
    + destruct argv as [|prog [|a args]]; simpl in Hlt; try lia. simpl.
      intros H. injection H as <-. discriminate.
    + destruct (get_cas_numbers_from_user stdin) as [[|cas entered] rest|];
        try discriminate.
      intros H. injection H as <-. discriminate.
Qed.

Lemma X15_startup_fetches_or_exits_witness :
  choose_cas_numbers ["get_toxinfo_by_cas6.py"; " 50-78-2"]%string [] = Fetches [" 50-78-2"%string]
  /\ choose_cas_numbers ["get_toxinfo_by_cas6.py"%string] [""; "50-78-2"]%string = Exits 1.
Proof.
  destruct X15_startup_fetches_or_exits as (Hargs & Hexit & _). split.
  - apply Hargs. simpl. lia.
  - apply Hexit. split; [reflexivity|]. split; [simpl; lia|].
    now exists ""%string, ["50-78-2"%string].
Defined.

Lemma widen_all column : forall max_length,
  fold_left widen column max_length = Nat.max max_length (longest_text column).
Proof.
  induction column as [|value column IH]; intros m; simpl; [lia|].
  rewrite IH. destruct value as [s|shown]; simpl.
  - destruct (Nat.ltb_spec m (String.length s)); lia.
  - destruct (m <? String.length shown); reflexivity.
Qed.

(** X16: the width given to a column is the length of its longest string
    plus 2, capped at 100; cells that hold no string (numbers, empty cells)
    never widen it, so the width lies between 2 and 100. *)
Theorem X16_column_width_from_longest_string :
  forall column,
    column_width column = Nat.min (longest_text column + 2) 100
    /\ 2 <= column_width column <= 100.
Proof.
  intros column. unfold column_width. rewrite widen_all. simpl. lia.
Qed.

End StartupExtras.

(** ** The second program: rows and their requests *)

Module ScraperExtras.
Import Py Http pubchem_hazard_scraper Spec Samples PyFacts.
Local Open Scope Z_scope.

(** X17: a 404 ends a row at once, with no retry and no sleep.  From the
    resolver it makes the row read "No data found" after one request; from
    the GHS fragment of a resolved compound it makes the row read empty
    strings after two requests. *)
Theorem X17_not_found_ends_the_row_at_once :
  (forall format exn_message net idx cas r,
      blank cas = false ->
      net 0%nat = Responds r -> status r = 404 ->
      process_row format exn_message net idx cas start
      = ((idx, no_data_found, no_data_found),
         {| sent := 1;
            log := [Print ("Processing CAS: " ++ cell_text cas ++ " ...");
                    Get (PUBCHEM_URL (cell_text cas));
                    Print ("  → No PubChem match for CAS " ++ cell_text cas)] |}))
  /\ (forall format exn_message net idx cas r0 data cid r1,
      blank cas = false ->
      net 0%nat = Responds r0 -> status r0 = 200 -> resp_json r0 = inr data ->
      cid_of_data data = Ok cid -> truthy cid = true ->
      net 1%nat = Responds r1 -> status r1 = 404 ->
      process_row format exn_message net idx cas start
      = ((idx, ""%string, ""%string),
         {| sent := 2;
            log := [Print ("Processing CAS: " ++ cell_text cas ++ " ...");
                    Get (PUBCHEM_URL (cell_text cas));
                    Get (PUBCHEM_BASE_URL (format cid));
                    Print ("  → CID " ++ format cid ++ " | Hazards: "
                           ++ "" ++ " | Precautions: " ++ "")] |})).
Proof.
  split.
  - intros format exn_message net idx cas r Hblank Hnet Hst.
    unfold process_row. rewrite Hblank.
    unfold cas_to_cid. change (range 3) with [0; 1; 2]. simpl.
    rewrite Hnet, Hst. reflexivity.
  - intros format exn_message net idx cas r0 data cid r1 Hblank H0 Hs0 Hj Hcid Ht H1 Hs1.
    unfold process_row. rewrite Hblank.
    unfold cas_to_cid. change (range 3) with [0; 1; 2]. simpl.
    rewrite H0, Hs0. simpl. rewrite Hj, Hcid, Ht.
    unfold get_ghs_classification. change (range 3) with [0; 1; 2]. simpl.
    rewrite H1, Hs1. reflexivity.
Qed.

Lemma X17_not_found_ends_the_row_at_once_witness :
  fst (process_row plain_format plain_message (fun _ => respond 404) 4 (Str "0-00-0") start)
  = (4%nat, "No data found"%string, "No data found"%string)
  /\ fst (process_row plain_format plain_message no_ghs_server 4 (Str "50-78-2") start)
     = (4%nat, ""%string, ""%string).
Proof.
  split.
  - rewrite (proj1 X17_not_found_ends_the_row_at_once plain_format plain_message
               (fun _ => respond 404) 4%nat (Str "0-00-0")
               {| status := 404; text := Text ""; read := inr ""; resp_json := inr JNull |});
      reflexivity.
  - rewrite (proj2 X17_not_found_ends_the_row_at_once plain_format plain_message
               no_ghs_server 4%nat (Str "50-78-2")
               {| status := 200; text := Text "cids"; read := inr "";
                  resp_json := inr (cid_list [JNum (Int 2244)]) |}
               (cid_list [JNum (Int 2244)]) (JNum (Int 2244))
               {| status := 404; text := Text ""; read := inr ""; resp_json := inr JNull |});
      reflexivity.
Defined.

(** X18: whatever the network does, one row costs at most six requests,
    three for the identifier and three for the GHS fragment, and every
    sleep of the row lasts one second. *)
Theorem X18_row_makes_at_most_six_requests :
  forall format exn_message net idx cas w,
  exists l,
    log (snd (process_row format exn_message net idx cas w)) = log w ++ l
    /\ (List.length (gets l) <= 6)%nat
    /\ Forall (fun s => s = 1%Q) (sleeps l).
Proof.
  intros format exn_message net idx cas w. unfold process_row.
  destruct (blank cas).
  { exists []. simpl. rewrite app_nil_r. repeat split; [lia | constructor]. }
  set (w1 := emit (Print ("Processing CAS: " ++ cell_text cas ++ " ...")) w).
  destruct (ScraperFacts.cas_to_cid_loop_log exn_message net (cell_text cas) 1%Q (range 3) w1)
    as (l1 & Hl1 & Hs1 & Hg1).
  unfold cas_to_cid.
  destruct (cas_to_cid_loop exn_message net (cell_text cas) 1 (range 3) w1) as [cid w2].
  simpl in Hl1. rewrite range_length in Hg1.
  destruct (truthy cid).
  - destruct (ScraperFacts.get_ghs_classification_loop_log format net cid 1%Q (range 3) w2)
      as (l2 & Hl2 & Hs2 & Hg2).
    unfold get_ghs_classification.
    destruct (get_ghs_classification_loop format net cid 1 (range 3) w2)
      as [[hazards precautions] w3].
    simpl in Hl2. rewrite range_length in Hg2. simpl.
    eexists (Print _ :: l1 ++ l2 ++ [Print _]).
    rewrite Hl2, Hl1. unfold w1. simpl. rewrite <- !app_assoc. simpl.
    split; [reflexivity|].
    unfold gets, sleeps in *. simpl. rewrite !flat_map_app. simpl.
    rewrite !app_nil_r, length_app. split; [simpl in *; lia|].
    now apply Forall_app.
  - simpl. eexists (Print _ :: l1 ++ [Print _]).
    rewrite Hl1. unfold w1. simpl. rewrite <- !app_assoc. simpl.
    split; [reflexivity|].
    unfold gets, sleeps in *. simpl. rewrite !flat_map_app. simpl.
    rewrite !app_nil_r. split; [simpl in *; lia | assumption].
Qed.

Section Exhaustion.

Variable format : json -> string.
Variable exn_message : exn -> string.
Variable net : nat -> outcome.
Hypothesis Hdown : forall n, unavailable (net n).

(** With the server unavailable the resolver loop makes one request and one
    sleep per attempt, the last attempt included, and yields [None]. *)
Lemma cas_to_cid_loop_unavailable cas delay attempts : forall w,
  exists l,
    cas_to_cid_loop exn_message net cas delay attempts w
    = (JNull, {| sent := sent w + List.length attempts; log := log w ++ l |})
    /\ gets l = repeat (PUBCHEM_URL cas) (List.length attempts)
    /\ sleeps l = repeat delay (List.length attempts).
Proof.
  induction attempts as [|attempt rest IH]; intros w.
  - exists []. simpl. rewrite Nat.add_0_r, app_nil_r. split; [now destruct w|].
    split; reflexivity.
  - assert (Hgo : forall pre,
      gets pre = [PUBCHEM_URL cas] -> sleeps pre = [delay] ->
      exists l,
        cas_to_cid_loop exn_message net cas delay rest
          {| sent := S (sent w); log := log w ++ pre |}
        = (JNull, {| sent := sent w + S (List.length rest); log := log w ++ l |})
        /\ gets l = repeat (PUBCHEM_URL cas) (S (List.length rest))
        /\ sleeps l = repeat delay (S (List.length rest))).
    { intros pre Hg Hs.
      destruct (IH {| sent := S (sent w); log := log w ++ pre |}) as (l & Hl & Hgl & Hsl).
      exists (pre ++ l). rewrite Hl. simpl. rewrite <- app_assoc.
      replace (S (sent w + List.length rest)) with (sent w + S (List.length rest))%nat by lia.
      split; [reflexivity|].
      unfold gets, sleeps in *. rewrite !flat_map_app, Hg, Hs, Hgl, Hsl.
      split; reflexivity. }
    simpl. destruct (Hdown (sent w)) as [(msg & Hn) | (r & Hn & H200 & H404)]; rewrite Hn.
    + unfold emit. simpl. rewrite <- !app_assoc. simpl. apply Hgo; reflexivity.
    + destruct (Z.eqb_spec (status r) 200); [contradiction|].
      destruct (Z.eqb_spec (status r) 404); [contradiction|].
      destruct (status r =? 503); unfold emit; simpl; rewrite <- !app_assoc; simpl;
        apply Hgo; reflexivity.
Qed.

Lemma get_ghs_classification_loop_unavailable cid delay attempts : forall w,
  exists l,
    get_ghs_classification_loop format net cid delay attempts w
    = ((""%string, ""%string),
       {| sent := sent w + List.length attempts; log := log w ++ l |})
    /\ gets l = repeat (PUBCHEM_BASE_URL (format cid)) (List.length attempts)
    /\ sleeps l = repeat delay (List.length attempts).
Proof.
  induction attempts as [|attempt rest IH]; intros w.
  - exists []. simpl. rewrite Nat.add_0_r, app_nil_r. split; [now destruct w|].
    split; reflexivity.
  - assert (Hgo : forall pre,
      gets pre = [PUBCHEM_BASE_URL (format cid)] -> sleeps pre = [delay] ->
      exists l,
        get_ghs_classification_loop format net cid delay rest
          {| sent := S (sent w); log := log w ++ pre |}
        = ((""%string, ""%string),
           {| sent := sent w + S (List.length rest); log := log w ++ l |})
        /\ gets l = repeat (PUBCHEM_BASE_URL (format cid)) (S (List.length rest))
        /\ sleeps l = repeat delay (S (List.length rest))).
    { intros pre Hg Hs.
      destruct (IH {| sent := S (sent w); log := log w ++ pre |}) as (l & Hl & Hgl & Hsl).
      exists (pre ++ l). rewrite Hl. simpl. rewrite <- app_assoc.
      replace (S (sent w + List.length rest)) with (sent w + S (List.length rest))%nat by lia.
      split; [reflexivity|].
      unfold gets, sleeps in *. rewrite !flat_map_app, Hg, Hs, Hgl, Hsl.
      split; reflexivity. }
    simpl. destruct (Hdown (sent w)) as [(msg & Hn) | (r & Hn & H200 & H404)]; rewrite Hn.
    + unfold emit. simpl. rewrite <- !app_assoc. simpl. apply Hgo; reflexivity.
    + destruct (Z.eqb_spec (status r) 200); [contradiction|].
      destruct (Z.eqb_spec (status r) 404); [contradiction|].
      destruct (status r =? 503); unfold emit; simpl; rewrite <- !app_assoc; simpl;
        apply Hgo; reflexivity.
Qed.

End Exhaustion.

(** X19: when every request raises or is answered by a status other than
    200 and 404, [cas_to_cid] gives [None] and [get_ghs_classification]
    gives two empty strings, each after exactly [retries] requests and
    [retries] sleeps of [delay]: they sleep after the last attempt too. *)
Theorem X19_unavailable_server_uses_up_the_attempts :
  forall format exn_message net,
    (forall n, unavailable (net n)) ->
    (forall cas retries delay w,
        exists l,
          cas_to_cid exn_message net cas retries delay w
          = (JNull, {| sent := sent w + Z.to_nat retries; log := log w ++ l |})
          /\ gets l = repeat (PUBCHEM_URL cas) (Z.to_nat retries)
          /\ sleeps l = repeat delay (Z.to_nat retries))
    /\ (forall cid retries delay w,
        exists l,
          get_ghs_classification format net cid retries delay w
          = ((""%string, ""%string),
             {| sent := sent w + Z.to_nat retries; log := log w ++ l |})
          /\ gets l = repeat (PUBCHEM_BASE_URL (format cid)) (Z.to_nat retries)
          /\ sleeps l = repeat delay (Z.to_nat retries)).
Proof.
  intros format exn_message net Hdown. split.
  - intros cas retries delay w. unfold cas_to_cid.
    rewrite <- (range_length retries).
    apply cas_to_cid_loop_unavailable. exact Hdown.
  - intros cid retries delay w. unfold get_ghs_classification.
    rewrite <- (range_length retries).
    apply get_ghs_classification_loop_unavailable. exact Hdown.
Qed.

Lemma X19_unavailable_server_uses_up_the_attempts_witness :
  exists l,
    cas_to_cid plain_message overloaded "50-78-2" 3 1 start
    = (JNull, {| sent := 3; log := l |})
    /\ gets l = repeat (PUBCHEM_URL "50-78-2") 3
    /\ sleeps l = [1%Q; 1%Q; 1%Q].
Proof.
  apply (proj1 (X19_unavailable_server_uses_up_the_attempts plain_format plain_message
                  overloaded
                  ltac:(intros n; right;
                        exists {| status := 503; text := Text ""; read := inr "";
                                  resp_json := inr JNull |};
                        split; [reflexivity | split; discriminate]))
           "50-78-2"%string 3 1%Q start).
Defined.

(** X20: when every request raises or is answered by a status other than
    200 and 404, a row with an identifier reads "No data found", as for an
    unknown compound, after three requests and three seconds of sleep. *)
Theorem X20_unavailable_server_reads_as_no_data :
  forall format exn_message net idx cas,
    (forall n, unavailable (net n)) ->
    blank cas = false ->
    exists l,
      process_row format exn_message net idx cas start
      = ((idx, no_data_found, no_data_found), {| sent := 3; log := l |})
      /\ gets l = repeat (PUBCHEM_URL (cell_text cas)) 3
      /\ sleeps l = [1%Q; 1%Q; 1%Q].
Proof.
  intros format exn_message net idx cas Hdown Hblank.
  unfold process_row. rewrite Hblank. unfold cas_to_cid.
  destruct (cas_to_cid_loop_unavailable exn_message net Hdown (cell_text cas) 1%Q (range 3)
              (emit (Print ("Processing CAS: " ++ cell_text cas ++ " ...")) start))
    as (l & Hl & Hg & Hs).
  rewrite Hl. simpl. eexists. split; [reflexivity|].
  unfold gets, sleeps in *. simpl. rewrite !flat_map_app, Hg, Hs. simpl.
  split; reflexivity.
Qed.

Lemma X20_unavailable_server_reads_as_no_data_witness :
  exists l,
    process_row plain_format plain_message unreachable 0 (Str "50-78-2") start
    = ((0%nat, no_data_found, no_data_found), {| sent := 3; log := l |})
    /\ gets l = repeat (PUBCHEM_URL "50-78-2") 3
    /\ sleeps l = [1%Q; 1%Q; 1%Q].
Proof.
  apply (X20_unavailable_server_reads_as_no_data plain_format plain_message unreachable
           0%nat (Str "50-78-2")).
  - intros n. left. now exists "Cannot connect to host"%string.
  - reflexivity.
Defined.

End ScraperExtras.

(** ** The second program: the table and the batches *)

Module BatchExtras.
Import Py Http pubchem_hazard_scraper Spec Samples BatchFacts.
Local Open Scope nat_scope.

Lemma enumerate_snd {A} (xs : list A) : forall a, map snd (enumerate a xs) = xs.
Proof.
  induction xs as [|x xs IH]; intros a; [reflexivity|].
  rewrite enumerate_cons. simpl. now rewrite IH.
Qed.

(** X21: [main] writes out as many rows as it read, with the [CAS] column
    as it was, whatever the tasks return. *)
Theorem X21_table_keeps_rows_and_cas_column :
  forall format exn_message nets completion cells batch_size pause,
    map CAS (fst (main format exn_message nets completion cells batch_size pause)) = cells.
Proof.
  intros. rewrite main_table, map_map. simpl. apply enumerate_snd.
Qed.

Section WithTasks.

Variable format : json -> string.
Variable exn_message : exn -> string.
Variable nets : nat -> nat -> outcome.
Variable completion : nat -> list nat.
Variable batch_size : Z.
Variable pause : Q.

Local Abbreviation turn :=
  (fun st task => main_turn format exn_message nets completion batch_size pause task st).

Lemma awaited_rows_app l1 l2 : awaited_rows (l1 ++ l2) = awaited_rows l1 ++ awaited_rows l2.
Proof. apply flat_map_app. Qed.

(** The rows awaited so far, followed by the rows pending, are the rows
    met so far. *)
Lemma loop_awaited l : forall st,
  let st' := fold_left turn l st in
  awaited_rows (steps st') ++ map fst (tasks st')
  = awaited_rows (steps st) ++ map fst (tasks st) ++ map fst l.
Proof.
  induction l as [|task l IH]; intros st; simpl.
  - now rewrite app_nil_r.
  - rewrite IH. unfold main_turn. simpl.
    destruct (Z.of_nat (List.length (tasks st ++ [task])) >=? batch_size)%Z; simpl.
    + rewrite !awaited_rows_app. simpl. rewrite !app_nil_r, map_app. simpl.
      now rewrite <- !app_assoc.
    + rewrite map_app. simpl. now rewrite <- !app_assoc.
Qed.

(** The batches and pauses of [main] for a positive batch size. *)
Lemma main_schedule cells (q r : nat) :
  (0 < batch_size)%Z ->
  List.length cells = q * Z.to_nat batch_size + r ->
  r < Z.to_nat batch_size ->
  snd (main format exn_message nets completion cells batch_size pause)
  = flat_map (fun k => [Await (seq (k * Z.to_nat batch_size) (Z.to_nat batch_size));
                        Pause pause])
             (seq 0 q)
    ++ (if r =? 0 then [] else [Await (seq (q * Z.to_nat batch_size) r)]).
Proof.
  intros Hb Hlen Hr. unfold main, main_loop. simpl.
  set (bn := Z.to_nat batch_size) in *.
  rewrite <- (firstn_skipn (q * bn) cells).
  assert (H1 : List.length (firstn (q * bn) cells) = q * bn) by (rewrite length_firstn; lia).
  assert (H2 : List.length (skipn (q * bn) cells) = r) by (rewrite length_skipn; lia).
  rewrite enumerate_app, fold_left_app, H1. simpl.
  destruct (loop_batches format exn_message nets completion batch_size pause
              q (firstn (q * bn) cells) 0
              {| tasks := []; results := []; steps := [] |} Hb eq_refl H1) as (Ht & Hs).
  simpl in Ht, Hs. fold bn in Hs.
  rewrite loop_partial by (rewrite Ht, enumerate_length, H2; unfold bn in *; simpl; lia).
  simpl. rewrite Ht, Hs. simpl.
  destruct (skipn (q * bn) cells) as [|c cs] eqn:Hskip; simpl in H2; subst r.
  - simpl. now rewrite app_nil_r.
  - rewrite enumerate_cons. simpl. rewrite enumerate_fst. reflexivity.
Qed.

End WithTasks.

(** X22: whatever the batch size, every row is awaited exactly once, and
    the rows are awaited in the order of the table. *)
Theorem X22_every_row_awaited_once_in_order :
  forall format exn_message nets completion cells batch_size pause,
    awaited_rows (snd (main format exn_message nets completion cells batch_size pause))
    = seq 0 (List.length cells).
Proof.
  intros. unfold main, main_loop. simpl.
  pose proof (loop_awaited format exn_message nets completion batch_size pause
                (enumerate 0 cells) {| tasks := []; results := []; steps := [] |}) as H.
  simpl in H. rewrite enumerate_fst in H.
  destruct (tasks (fold_left _ (enumerate 0 cells) _)) as [|t ts] eqn:Ht.
  - simpl in H. now rewrite app_nil_r in H.
  - unfold await_batch. simpl. rewrite Ht, awaited_rows_app. simpl.
    now rewrite app_nil_r.
Qed.

(** X23: with a batch size of 1 or below (zero and negative sizes
    included) every row is awaited on its own and followed by a pause. *)
Theorem X23_batch_size_below_one_awaits_rows_one_by_one :
  forall format exn_message nets completion cells batch_size pause,
    (batch_size <= 1)%Z ->
    snd (main format exn_message nets completion cells batch_size pause)
    = flat_map (fun i => [Await [i]; Pause pause]) (seq 0 (List.length cells)).
Proof.
  intros format exn_message nets completion cells batch_size pause Hb.
  rewrite (main_batch_size_below_one format exn_message nets completion batch_size pause
             cells Hb).
  rewrite (main_schedule format exn_message nets completion 1 pause cells
             (List.length cells) 0); simpl; try lia.
  rewrite app_nil_r. apply flat_map_ext. intros k. simpl.
  now rewrite Nat.mul_1_r.
Qed.

Lemma X23_batch_size_below_one_awaits_rows_one_by_one_witness :
  snd (main plain_format plain_message (fun _ => overloaded) (fun _ => [])
         [Str "50-78-2"; Str "64-17-5"] 0 2)
  = [Await [0]; Pause 2; Await [1]; Pause 2].
Proof.
  apply (X23_batch_size_below_one_awaits_rows_one_by_one plain_format plain_message
           (fun _ => overloaded) (fun _ => []) [Str "50-78-2"; Str "64-17-5"] 0%Z 2%Q).
  lia.
Defined.

Lemma pauses_of_batches (pause : Q) (f : nat -> list nat) (ks : list nat) tail :
  pauses tail = [] ->
  pauses (flat_map (fun k => [Await (f k); Pause pause]) ks ++ tail)
  = repeat pause (List.length ks).
Proof.
  intros Htail. unfold pauses in *. rewrite flat_map_app, Htail, app_nil_r.
  induction ks as [|k ks IH]; simpl; [reflexivity | now rewrite IH].
Qed.

(** X24: with a positive batch size [b], a table of [n] rows makes the
    orchestrator pause [n / b] times (integer division), each time for
    [pause] seconds: once after every full batch, the last one included
    when [b] divides [n]. *)
Theorem X24_one_pause_per_full_batch :
  forall format exn_message nets completion cells batch_size pause,
    (0 < batch_size)%Z ->
    pauses (snd (main format exn_message nets completion cells batch_size pause))
    = repeat pause (List.length cells / Z.to_nat batch_size).
Proof.
  intros format exn_message nets completion cells batch_size pause Hb.
  set (bn := Z.to_nat batch_size).
  assert (Hbn : bn <> 0) by (unfold bn; lia).
  rewrite (main_schedule format exn_message nets completion batch_size pause cells
             (List.length cells / bn) (List.length cells mod bn) Hb).
  - fold bn. rewrite pauses_of_batches; [now rewrite length_seq|].
    now destruct (List.length cells mod bn =? 0).
  - fold bn. pose proof (Nat.div_mod_eq (List.length cells) bn). lia.
  - fold bn. now apply Nat.mod_upper_bound.
Qed.

Lemma X24_one_pause_per_full_batch_witness :
  pauses (snd (main plain_format plain_message (fun _ => overloaded) (fun _ => [])
                 seven_rows 5 2))
  = [2%Q].
Proof.
  apply (X24_one_pause_per_full_batch plain_format plain_message (fun _ => overloaded)
           (fun _ => []) seven_rows 5%Z 2%Q).
  lia.
Defined.

End BatchExtras.

(** ** The first program under overload, and its literature references *)

Module OverloadExtras.
Import Py Http Task get_toxinfo_by_cas6 Spec Samples PyFacts ExtractorFacts.
Local Open Scope Z_scope.

Lemma fetch_url_loop_overloaded json_loads net url retries :
  (forall n, exists r, net n = Responds r /\ status r = 503) ->
  forall attempts w,
    fetch_url_loop json_loads net url retries attempts w
    = (JNull,
       {| sent := sent w + List.length attempts;
          log := log w ++ flat_map (fun attempt => [Get url; Sleep (inject_Z (2 ^ attempt))])
                                   attempts |}).
Proof.
  intros Hnet. induction attempts as [|attempt rest IH]; intros w.
  - simpl. rewrite Nat.add_0_r, app_nil_r. now destruct w.
  - destruct (Hnet (sent w)) as (r & Hr & Hst).
    rewrite (FetchFacts.fetch_url_loop_503 json_loads net url retries attempt rest w r Hr Hst).
    rewrite IH. simpl. rewrite <- app_assoc. simpl.
    now replace (S (sent w + List.length rest)) with (sent w + S (List.length rest))%nat by lia.
Qed.

(** X25: when every request is answered by 503, [process_cas_number] asks
    three times for the identifier, sleeping 1, 2 and 4 seconds, and then
    records 'Processing error: ' with the message of the [TypeError] raised
    on the [None] that [fetch_url] returned, not 'Could not find PubChem
    CID'. *)
Theorem X25_overloaded_server_gives_processing_error :
  forall json_loads quote format net exn_message frames cas,
    (forall n, exists r, net n = Responds r /\ status r = 503) ->
    let url := (BASE_URL ++ "/compound/name/" ++ quote cas ++ "/cids/JSON")%string in
    process_cas_number json_loads quote format net exn_message frames cas start
    = (JObj [("CAS", JStr cas);
             ("error", JStr ("Processing error: " ++ exn_message TypeError))],
       {| sent := 3;
          log := [Print ("Processing CAS " ++ cas);
                  Get url; Sleep 1; Get url; Sleep 2; Get url; Sleep (4 # 1);
                  Print ("Error processing CAS " ++ cas ++ ": "
                         ++ exn_message TypeError)] |}).
Proof.
  intros json_loads quote format net exn_message frames cas Hnet url.
  unfold process_cas_number, process_cas_number_try, Task.bind, get_pubchem_cid, fetch_url.
  fold url. rewrite (fetch_url_loop_overloaded json_loads net url 3 Hnet).
  reflexivity.
Qed.

Lemma X25_overloaded_server_gives_processing_error_witness :
  fst (process_cas_number no_parse plain_quote plain_format overloaded plain_message 10
         "50-78-2" start)
  = JObj [("CAS", JStr "50-78-2"); ("error", JStr "Processing error: error")].
Proof.
  rewrite (X25_overloaded_server_gives_processing_error no_parse plain_quote plain_format
             overloaded plain_message 10 "50-78-2"
             ltac:(intros n;
                   exists {| status := 503; text := Text ""; read := inr "";
                             resp_json := inr JNull |};
                   split; reflexivity)).
  reflexivity.
Defined.

(** X26: a top-level section headed by one of the reference categories adds
    its own strings after those already collected under that category:
    sections under one category are merged, where [extract_tox_data] keeps
    the last section only. *)
Theorem X26_reference_sections_append :
  forall fields h references old,
    lookup "TOCHeading" fields = Some (JStr h) ->
    lookup h references = Some old ->
    collect_references (JObj fields) references
    = Py.bind (own_strings (JObj fields))
              (fun own => Ok (dict_set h (old ++ own) references)).
Proof.
  intros fields h references old Hh Hold.
  unfold collect_references, own_strings. simpl. rewrite Hh. simpl. rewrite Hold.
  destruct (lookup "Information" fields) as [information|]; simpl.
  - destruct (iter information) as [infos|e]; simpl; [|reflexivity].
    apply for_each_collect_info. exact Hold.
  - now rewrite app_nil_r, dict_set_same.
Qed.

Lemma X26_reference_sections_append_witness :
  collect_references
    (JObj [("TOCHeading", JStr "Nature Journal References");
           ("Information", JArr [named_info "Reference" ["Nature 2001"]])])
    [("Nature Journal References"%string, [JStr "Nature 1999"])]
  = Ok [("Nature Journal References"%string, [JStr "Nature 1999"; JStr "Nature 2001"])].
Proof.
  rewrite (X26_reference_sections_append
             [("TOCHeading", JStr "Nature Journal References");
              ("Information", JArr [named_info "Reference" ["Nature 2001"%string]])]
             "Nature Journal References"
             [("Nature Journal References"%string, [JStr "Nature 1999"])]
             [JStr "Nature 1999"]); reflexivity.
Defined.

End OverloadExtras.
